(** * Factorial time tracker: a shallow embedding of the automation workflow

    The TypeScript sources (src/time-tracker.ts, src/factorial-automation.ts,
    src/index.ts, src/config.ts) drive a browser through Playwright.  The
    browser and the vendor's web application are outside the repository, so
    they appear here as a [browser] record of functions; the repository's own
    code (selector cascades, loops, try/catch structure, in-page callbacks,
    string formatting, date arithmetic) is translated definition by
    definition. *)

From Stdlib Require Import ZArith Lia Ascii.
From stdpp Require Import base option strings list gmap.

Local Open Scope string_scope.
Set Warnings "-register-all".

(** ** JavaScript primitives used by the sources *)

Module JS.

(** The double-quote character, for selectors such as span[title=...]. *)
Definition dq : string := String "034"%char EmptyString.

(** [q s] is [s] between double quotes. *)
Definition q (s : string) : string := dq +:+ s +:+ dq.

(** [String.prototype.includes]. *)
Fixpoint includes (s sub : string) : bool :=
  if String.prefix sub s then true
  else match s with
       | EmptyString => false
       | String _ s' => includes s' sub
       end.

(** Truthiness of a string: the empty string is falsy. *)
Definition truthy_string (s : string) : bool :=
  match s with EmptyString => false | _ => true end.

(** Truthiness of [string | null]. *)
Definition truthy_opt (o : option string) : bool :=
  match o with Some s => truthy_string s | None => false end.

Definition is_space (c : ascii) : bool :=
  let n := nat_of_ascii c in
  ((9 <=? n) && (n <=? 13))%nat || (n =? 32)%nat.

Fixpoint trimStart (s : string) : string :=
  match s with
  | String c s' => if is_space c then trimStart s' else s
  | EmptyString => EmptyString
  end.

Fixpoint trimEnd (s : string) : string :=
  match s with
  | EmptyString => EmptyString
  | String c s' =>
      match trimEnd s' with
      | EmptyString => if is_space c then EmptyString else String c EmptyString
      | t => String c t
      end
  end.

(** [String.prototype.trim] on ASCII white space. *)
Definition trim (s : string) : string := trimEnd (trimStart s).

Definition lower_ascii (c : ascii) : ascii :=
  let n := nat_of_ascii c in
  if ((65 <=? n) && (n <=? 90))%nat then ascii_of_nat (n + 32) else c.

(** [String.prototype.toLowerCase] on the ASCII letters; other bytes are
    kept as they are. *)
Fixpoint toLowerCase (s : string) : string :=
  match s with
  | EmptyString => EmptyString
  | String c s' => String (lower_ascii c) (toLowerCase s')
  end.

Definition is_digit (c : ascii) : bool :=
  let n := nat_of_ascii c in ((48 <=? n) && (n <=? 57))%nat.

Definition digit_of (c : ascii) : Z := Z.of_nat (nat_of_ascii c) - 48.

Definition char_of_digit (d : Z) : ascii := ascii_of_nat (Z.to_nat (48 + d)).

(** Decimal digits of a non-negative integer, most significant first.
    [fuel] bounds the number of digits. *)
Fixpoint digits (fuel : nat) (n : Z) (acc : string) : string :=
  let acc' := String (char_of_digit (n mod 10)) acc in
  match fuel with
  | O => acc'
  | S f => if (n <? 10)%Z then acc' else digits f (n / 10) acc'
  end.

(** [Number.prototype.toString] on an integer. *)
Definition toString (n : Z) : string :=
  if (n <? 0)%Z then "-" +:+ digits (Z.to_nat (Z.log2 (- n))) (- n) ""
  else digits (Z.to_nat (Z.log2 n)) n "".

Definition bool_toString (b : bool) : string := if b then "true" else "false".

(** [k] characters taken cyclically from [pad], continuing at [cur]. *)
Fixpoint fill (k : nat) (pad cur : string) : string :=
  match k with
  | O => EmptyString
  | S k' =>
      match cur with
      | String c cur' => String c (fill k' pad cur')
      | EmptyString =>
          match pad with
          | String c pad' => String c (fill k' pad pad')
          | EmptyString => EmptyString
          end
      end
  end.

(** [String.prototype.padStart]. *)
Definition padStart (s : string) (target : nat) (pad : string) : string :=
  if (target <=? String.length s)%nat then s
  else fill (target - String.length s) pad pad +:+ s.

(** Value of a run of decimal digits, read left to right from [acc];
    stops at the first character that is not a digit. *)
Fixpoint digits_value (s : string) (acc : Z) : Z :=
  match s with
  | String c s' => if is_digit c then digits_value s' (10 * acc + digit_of c) else acc
  | EmptyString => acc
  end.

Definition starts_with_digit (s : string) : bool :=
  match s with String c _ => is_digit c | EmptyString => false end.

(** [parseInt s] in base ten: leading white space, an optional sign, then
    the longest run of digits; [None] stands for NaN. *)
Definition parseInt (s : string) : option Z :=
  match trimStart s with
  | String "-"%char r => if starts_with_digit r then Some (- digits_value r 0)%Z else None
  | String "+"%char r => if starts_with_digit r then Some (digits_value r 0) else None
  | r => if starts_with_digit r then Some (digits_value r 0) else None
  end.

(** [/\d/.test s]: some character is a decimal digit.  (The source writes
    the pattern \d{1,2}, which matches exactly when one digit occurs.) *)
Fixpoint has_digit (s : string) : bool :=
  match s with
  | String c s' => is_digit c || has_digit s'
  | EmptyString => false
  end.

(** [s.split(sep)[0]] for a one-character separator. *)
Fixpoint before_char (sep : ascii) (s : string) : string :=
  match s with
  | EmptyString => EmptyString
  | String c s' => if Ascii.eqb c sep then EmptyString else String c (before_char sep s')
  end.

End JS.

(** ** formatBreakTime (src/time-tracker.ts) *)

(** [Math.floor(minutes / 60)] is the floor quotient and [%] the truncating
    remainder. *)
Definition formatBreakTime (minutes : Z) : string :=
  let hours := (minutes / 60)%Z in
  let mins := Z.rem minutes 60 in
  JS.padStart (JS.toString hours) 2 "0" +:+ ":" +:+ JS.padStart (JS.toString mins) 2 "0".

(** Spec-side reading of a two-field clock string. *)
Fixpoint all_digits (s : string) : bool :=
  match s with
  | String c s' => JS.is_digit c && all_digits s'
  | EmptyString => true
  end.

Definition leading_zero (s : string) : bool :=
  match s with
  | String c _ => Ascii.eqb c "0"%char
  | EmptyString => false
  end.

(** ** Document model

    Elements carry an identity, so that a handle obtained from one query
    still denotes the same element after the page has changed.  [tag] is
    the upper-case [tagName] of the DOM. *)

Module Dom.

Inductive node :=
| Text (s : string)
| Elem (id : nat) (tag : string) (attrs : list (string * string)) (kids : list node).

Definition tagName (n : node) : string :=
  match n with Elem _ t _ _ => t | Text _ => "" end.

Fixpoint assoc (k : string) (l : list (string * string)) : option string :=
  match l with
  | [] => None
  | (k', v) :: l' => if String.eqb k k' then Some v else assoc k l'
  end.

Definition getAttribute (name : string) (n : node) : option string :=
  match n with Elem _ _ attrs _ => assoc name attrs | Text _ => None end.

(** [Node.textContent]: the text of all descendants, in document order. *)
Fixpoint textContent (n : node) : string :=
  match n with
  | Text s => s
  | Elem _ _ _ ks => fold_right (fun k acc => textContent k +:+ acc) "" ks
  end.

(** The element descendants of [n] in document order, [n] excluded: the
    candidates of [n.querySelectorAll]. *)
Fixpoint descendants (n : node) : list node :=
  match n with
  | Text _ => []
  | Elem _ _ _ ks =>
      flat_map (fun k => match k with
                         | Text _ => []
                         | Elem _ _ _ _ => k :: descendants k
                         end) ks
  end.

(** The chain from the element with identity [i] up to [n]: the element
    first, then its [parentElement]s. *)
Fixpoint path_to (i : nat) (n : node) : option (list node) :=
  match n with
  | Text _ => None
  | Elem j _ _ ks =>
      if (i =? j)%nat then Some [n]
      else
        match (fix first (l : list node) : option (list node) :=
                 match l with
                 | [] => None
                 | k :: l' =>
                     match path_to i k with
                     | Some p => Some p
                     | None => first l'
                     end
                 end) ks with
        | Some p => Some (p ++ [n])%list
        | None => None
        end
  end.

Definition has_tag (t : string) (n : node) : bool := String.eqb (tagName n) t.

Definition has_attr (name value : string) (n : node) : bool :=
  match getAttribute name n with
  | Some v => String.eqb v value
  | None => false
  end.

(** [n.querySelectorAll(tag)] for a bare tag selector. *)
Definition byTag (t : string) (n : node) : list node :=
  filter (fun k => has_tag t k = true) (descendants n).

(** [n.querySelector('[name="value"]')]. *)
Definition byAttr (name value : string) (n : node) : option node :=
  head (filter (fun k => has_attr name value k = true) (descendants n)).

Definition node_id (n : node) : option nat :=
  match n with Elem i _ _ _ => Some i | Text _ => None end.

End Dom.

(** ** Values crossing the page boundary *)

(** What a [JSHandle] can wrap in the code at hand. *)
Inductive jsval :=
| JNull
| JBool (b : bool)
| JString (s : string)
| JElem (id : nat).

Definition truthy (v : jsval) : bool :=
  match v with
  | JNull => false
  | JBool b => b
  | JString s => JS.truthy_string s
  | JElem _ => true
  end.

Definition of_node (o : option Dom.node) : jsval :=
  match o with
  | Some (Dom.Elem i _ _ _) => JElem i
  | _ => JNull
  end.

(** ** The browser as seen by the program *)

Record page := Page {
  p_url : string;
  p_title : string;
  p_dom : Dom.node;
  p_values : gmap nat string   (* the [value] of the inputs written so far *)
}.

(** The Playwright calls issued by the sources. *)
Inductive action :=
| Launch
| NewContext
| NewPage
| ClosePage
| CloseContext
| CloseBrowser
| Goto (url : string)
| WaitForLoadState (state : string)
| WaitForTimeout (ms : Z)
| Query (sel : string)
| QueryAll (sel : string)
| WaitForSelector (sel : string) (timeout : Z)
| PageClick (sel : string)
| KeyboardPress (key : string)
| Screenshot (path : string)
| Title
| Click (el : nat)
| Fill (el : nat) (value : string)
| TypeText (el : nat) (text : string)
| Press (el : nat) (key : string)
| IsVisible (el : nat)
| TextContent (el : nat)
| Evaluate (h : jsval) (fn : string)
| JsonValue (h : jsval).

(** The part of the system that is not in the repository: how the browser
    and the web application answer a call.  [env_step] receives the calls
    made so far, the call, and the page; it returns the page afterwards and
    the message of the error the call throws, if it throws.  [env_select]
    is Playwright's selector engine and [env_visible] its visibility test. *)
Record browser := Browser {
  env_step : list action -> action -> page -> page * option string;
  env_select : string -> page -> list nat;
  env_visible : nat -> page -> bool
}.

Inductive level := Info | Warn | Error | Debug.

Record log_entry := LogEntry {
  le_level : level;
  le_message : string;
  le_error : option string   (* message of the error object logged along *)
}.

Record world := World {
  w_page : page;
  w_browser : bool;     (* FactorialAutomation.browser is not null *)
  w_context : bool;     (* FactorialAutomation.context is not null *)
  w_hasPage : bool;     (* FactorialAutomation.page is not null *)
  w_log : list log_entry;
  w_console : list string;
  w_trace : list action
}.

Definition set_page (p : page) (w : world) : world :=
  World p (w_browser w) (w_context w) (w_hasPage w) (w_log w) (w_console w) (w_trace w).

Definition add_trace (a : action) (w : world) : world :=
  World (w_page w) (w_browser w) (w_context w) (w_hasPage w) (w_log w) (w_console w)
        (w_trace w ++ [a])%list.

Definition add_log (e : log_entry) (w : world) : world :=
  World (w_page w) (w_browser w) (w_context w) (w_hasPage w) (w_log w ++ [e])%list
        (w_console w) (w_trace w).

Definition add_console (s : string) (w : world) : world :=
  World (w_page w) (w_browser w) (w_context w) (w_hasPage w) (w_log w)
        (w_console w ++ [s])%list (w_trace w).

Definition set_session (b c p : bool) (w : world) : world :=
  World (w_page w) b c p (w_log w) (w_console w) (w_trace w).

(** ** Computations: state passing with exceptions *)

Inductive res (A : Type) :=
| Ok (a : A)
| Throw (e : string).
Arguments Ok {A} a.
Arguments Throw {A} e.

Definition M (A : Type) : Type := world -> res A * world.

Definition ret {A} (a : A) : M A := fun w => (Ok a, w).

Definition throw {A} (e : string) : M A := fun w => (Throw e, w).

Definition bind {A B} (m : M A) (k : A -> M B) : M B :=
  fun w => match m w with
           | (Ok a, w') => k a w'
           | (Throw e, w') => (Throw e, w')
           end.

(** [try { m } catch (e) { h e }]. *)
Definition try_catch {A} (m : M A) (h : string -> M A) : M A :=
  fun w => match m w with
           | (Ok a, w') => (Ok a, w')
           | (Throw e, w') => h e w'
           end.

(** The outcome of [m] as a value: a [try] whose [catch] is written at the
    place where the outcome is inspected. *)
Definition attempt {A} (m : M A) : M (res A) :=
  fun w => match m w with (r, w') => (Ok r, w') end.

Declare Scope js_scope.
Delimit Scope js_scope with js.
Notation "x <- m ;; k" := (bind m (fun x => k))
  (at level 100, m at next level, right associativity) : js_scope.
Notation "m ;; k" := (bind m (fun _ => k))
  (at level 100, right associativity) : js_scope.
Local Open Scope js_scope.

(** Loops.  The body says how the iteration ended and what the loop's
    variables hold then. *)
Inductive flow (S : Type) :=
| Next (s : S)                 (* fall through or [continue] *)
| Break (s : S)                (* [break] *)
| Raise (e : string) (s : S).  (* an exception leaves the loop *)
Arguments Next {S} s.
Arguments Break {S} s.
Arguments Raise {S} e s.

(** [for (const x of xs) body]: the variables at the end, and the exception
    that ended the loop, if one did. *)
Fixpoint for_of {A S} (xs : list A) (body : A -> S -> M (flow S)) (s : S)
  : M (S * option string) :=
  match xs with
  | [] => ret (s, None)
  | x :: xs' =>
      r <- body x s ;;
      match r with
      | Next s' => for_of xs' body s'
      | Break s' => ret (s', None)
      | Raise e s' => ret (s', Some e)
      end
  end.

(** A loop whose body catches everything it throws. *)
Definition for_each {A S} (xs : list A) (body : A -> S -> M (flow S)) (s : S) : M S :=
  r <- for_of xs body s ;; ret (fst r).

Definition log (l : level) (msg : string) : M unit :=
  fun w => (Ok tt, add_log (LogEntry l msg None) w).

Definition log_with (l : level) (msg : string) (e : string) : M unit :=
  fun w => (Ok tt, add_log (LogEntry l msg (Some e)) w).

Definition console (s : string) : M unit :=
  fun w => (Ok tt, add_console s w).

(** What [fill] and [type] do to an input before the application reacts. *)
Definition effect (a : action) (p : page) : page :=
  match a with
  | Fill el v => Page (p_url p) (p_title p) (p_dom p) (<[el := v]> (p_values p))
  | TypeText el t =>
      Page (p_url p) (p_title p) (p_dom p)
           (<[el := default "" (p_values p !! el) +:+ t]> (p_values p))
  | _ => p
  end.

(** The element a handle denotes in the live document, with its chain of
    [parentElement]s; a handle whose element is no longer there belongs to a
    context that was destroyed. *)
Definition resolve (p : page) (el : nat) : res (Dom.node * list Dom.node) :=
  match Dom.path_to el (p_dom p) with
  | Some (n :: up) => Ok (n, up)
  | _ => Throw "Execution context was destroyed, most likely because of a navigation"
  end.

Section Calls.
Context (B : browser).

(** One Playwright call: it is recorded, the environment answers it, and
    unless it throws the result is read off the page. *)
Definition call {A} (a : action) (read : page -> res A) : M A :=
  fun w =>
    let '(p', err) := env_step B (w_trace w) a (effect a (w_page w)) in
    let w' := add_trace a (set_page p' w) in
    match err with
    | Some e => (Throw e, w')
    | None => (read p', w')
    end.

Definition call_ (a : action) : M unit := call a (fun _ => Ok tt).

(** [page.url()] is answered locally. *)
Definition url : M string := fun w => (Ok (p_url (w_page w)), w).

Definition goto (u : string) : M unit := call_ (Goto u).
Definition waitForLoadState (state : string) : M unit := call_ (WaitForLoadState state).
Definition waitForTimeout (ms : Z) : M unit := call_ (WaitForTimeout ms).
Definition pageClick (sel : string) : M unit := call_ (PageClick sel).
Definition keyboardPress (key : string) : M unit := call_ (KeyboardPress key).
Definition screenshot (path : string) : M unit := call_ (Screenshot path).
Definition title : M string := call Title (fun p => Ok (p_title p)).

(** [page.$(sel)]: the first match or null. *)
Definition query (sel : string) : M (option nat) :=
  call (Query sel) (fun p => Ok (head (env_select B sel p))).

(** [page.$$(sel)]. *)
Definition queryAll (sel : string) : M (list nat) :=
  call (QueryAll sel) (fun p => Ok (env_select B sel p)).

(** [page.waitForSelector(sel, { timeout })]: the first match, or a
    timeout error when there is none. *)
Definition waitForSelector (sel : string) (timeout : Z) : M (option nat) :=
  call (WaitForSelector sel timeout)
       (fun p => match env_select B sel p with
                 | el :: _ => Ok (Some el)
                 | [] => Throw ("page.waitForSelector: Timeout " +:+ JS.toString timeout
                                +:+ "ms exceeded.")
                 end).

Definition click (el : nat) : M unit := call_ (Click el).
Definition fill (el : nat) (v : string) : M unit := call_ (Fill el v).
Definition typeText (el : nat) (t : string) : M unit := call_ (TypeText el t).
Definition press (el : nat) (key : string) : M unit := call_ (Press el key).

Definition isVisible (el : nat) : M bool :=
  call (IsVisible el) (fun p => Ok (env_visible B el p)).

(** [handle.textContent()]. *)
Definition textContent (el : nat) : M (option string) :=
  call (TextContent el)
       (fun p => match resolve p el with
                 | Ok (n, _) => Ok (Some (Dom.textContent n))
                 | Throw e => Throw e
                 end).

(** [handle.evaluate(fn)] and [handle.evaluateHandle(fn)]: [fn] runs in
    the page on what the handle wraps. *)
Definition evaluate (h : jsval) (name : string) (fn : page -> jsval -> res jsval)
  : M jsval :=
  call (Evaluate h name) (fun p => fn p h).

(** [handle.jsonValue()]: Playwright serialises a DOM node as a
    placeholder string. *)
Definition jsonValue (h : jsval) : M jsval :=
  call (JsonValue h)
       (fun _ => Ok (match h with
                     | JElem _ => JString "ref: <Node>"
                     | v => v
                     end)).

End Calls.

(** ** The JavaScript [Date] object

    A date is its time value, the milliseconds since the epoch in UTC.
    Local time is UTC shifted by a fixed offset [tz] in minutes (east of
    Greenwich positive); daylight saving changes are not modelled. *)

Module Date.
Local Open Scope Z_scope.

Definition msPerDay : Z := 86400000.

Definition Day (t : Z) : Z := t / msPerDay.
Definition TimeWithinDay (t : Z) : Z := t mod msPerDay.

(** 0 is Sunday; the epoch was a Thursday. *)
Definition WeekDay (t : Z) : Z := (Day t + 4) mod 7.

(** Days since the epoch of the civil date [y]-[m]-[d], [m] from 1. *)
Definition days_from_civil (y m d : Z) : Z :=
  let y := if m <=? 2 then y - 1 else y in
  let era := y / 400 in
  let yoe := y - era * 400 in
  let doy := (153 * (if 2 <? m then m - 3 else m + 9) + 2) / 5 + d - 1 in
  let doe := yoe * 365 + yoe / 4 - yoe / 100 + doy in
  era * 146097 + doe - 719468.

(** Year, month (from 1) and day of the month of a day number. *)
Definition civil_from_days (z : Z) : Z * Z * Z :=
  let z := z + 719468 in
  let era := z / 146097 in
  let doe := z - era * 146097 in
  let yoe := (doe - doe / 1460 + doe / 36524 - doe / 146096) / 365 in
  let y := yoe + era * 400 in
  let doy := doe - (365 * yoe + yoe / 4 - yoe / 100) in
  let mp := (5 * doy + 2) / 153 in
  let d := doy - (153 * mp + 2) / 5 + 1 in
  let m := if mp <? 10 then mp + 3 else mp - 9 in
  (if m <=? 2 then y + 1 else y, m, d).

Definition YearFromTime (t : Z) : Z := fst (fst (civil_from_days (Day t))).
(** Months count from 0, as in ECMAScript. *)
Definition MonthFromTime (t : Z) : Z := snd (fst (civil_from_days (Day t))) - 1.
Definition DateFromTime (t : Z) : Z := snd (civil_from_days (Day t)).

Definition MakeDay (year month date : Z) : Z :=
  days_from_civil (year + month / 12) (month mod 12 + 1) 1 + date - 1.

Definition MakeDate (day time : Z) : Z := day * msPerDay + time.

Definition LocalTime (tz t : Z) : Z := t + tz * 60000.
Definition UTC (tz t : Z) : Z := t - tz * 60000.

(** [getDay()], [getDate()] and [setDate(dt)] work in local time. *)
Definition getDay (tz t : Z) : Z := WeekDay (LocalTime tz t).
Definition getDate (tz t : Z) : Z := DateFromTime (LocalTime tz t).
Definition setDate (tz t dt : Z) : Z :=
  let lt := LocalTime tz t in
  UTC tz (MakeDate (MakeDay (YearFromTime lt) (MonthFromTime lt) dt) (TimeWithinDay lt)).

Definition pad (width : nat) (n : Z) : string := JS.padStart (JS.toString n) width "0".

(** [toISOString()] prints the UTC fields. *)
Definition toISOString (t : Z) : string :=
  let '(y, m, d) := civil_from_days (Day t) in
  let ms := TimeWithinDay t in
  (if (0 <=? y) && (y <=? 9999) then pad 4 y
   else if y <? 0 then "-" +:+ pad 6 (- y) else "+" +:+ pad 6 y)
  +:+ "-" +:+ pad 2 m +:+ "-" +:+ pad 2 d
  +:+ "T" +:+ pad 2 (ms / 3600000) +:+ ":" +:+ pad 2 (ms / 60000 mod 60)
  +:+ ":" +:+ pad 2 (ms / 1000 mod 60) +:+ "." +:+ pad 3 (ms mod 1000) +:+ "Z".

(** [toISOString().split('T')[0]]. *)
Definition isoDate (t : Z) : string := JS.before_char "T"%char (toISOString t).

End Date.

(** ** Configuration (src/config.ts) and work entries *)

Record Config := {
  factorial_email : string;
  factorial_password : string;
  factorial_baseUrl : string;
  browser_headless : bool;
  browser_timeout : Z;
  browser_pageTimeout : Z;
  browser_navigationTimeout : Z;
  browser_elementTimeout : Z;
  workHours_defaultHours : Z;
  workHours_defaultStartTime : string;
  workHours_defaultEndTime : string;
  workHours_defaultBreakMinutes : Z;
  logging_level : string;
  logging_logFile : string
}.

Record WorkEntry := {
  date : string;                  (* YYYY-MM-DD format *)
  startTime : string;             (* HH:MM format *)
  endTime : string;               (* HH:MM format *)
  breakMinutes : option Z;
  description : option string
}.

(** ** The row locator, the editor and the verification
       (TimeTracker.handleFactorialTimeEntry, src/time-tracker.ts) *)

Definition missingHoursSelectors : list string := Eval vm_compute in
  [ "span[title=" +:+ JS.q "-8h" +:+ "]";
    "span:has-text(" +:+ JS.q "-8h" +:+ ")";
    "span._1jh4l1p2:has-text(" +:+ JS.q "-8h" +:+ ")";
    "[title=" +:+ JS.q "-8h" +:+ "]";
    "span[title*=" +:+ JS.q "-" +:+ "]";
    "span:has-text(" +:+ JS.q "-" +:+ ")" ].

Definition closeSelectors : list string := Eval vm_compute in
  [ "div[role=" +:+ JS.q "button" +:+ "][aria-label=" +:+ JS.q "Close" +:+ "]";
    "button[aria-label=" +:+ JS.q "Close" +:+ "]";
    "[aria-label=" +:+ JS.q "Close" +:+ "]";
    "button:has-text(" +:+ JS.q "Ã—" +:+ ")";
    "button:has-text(" +:+ JS.q "âœ•" +:+ ")";
    ".close-button";
    "[data-testid=" +:+ JS.q "close" +:+ "]" ].

Definition addButtonSelectors : list string := Eval vm_compute in
  [ "button:has-text(" +:+ JS.q "AÃ±adir" +:+ ")";
    "button:text(" +:+ JS.q "AÃ±adir" +:+ ")";
    "[role=" +:+ JS.q "button" +:+ "]:has-text(" +:+ JS.q "AÃ±adir" +:+ ")";
    "button:contains(" +:+ JS.q "AÃ±adir" +:+ ")" ].

Definition workTypeSelectors : list string := Eval vm_compute in
  [ "select";
    "[role=" +:+ JS.q "combobox" +:+ "]";
    "input[placeholder*=" +:+ JS.q "tipo" +:+ "]";
    "input[placeholder*=" +:+ JS.q "work" +:+ "]";
    "input[placeholder*=" +:+ JS.q "category" +:+ "]" ].

Definition startTimeSelectors : list string := Eval vm_compute in
  [ "input[placeholder*=" +:+ JS.q "inicio" +:+ "]";
    "input[placeholder*=" +:+ JS.q "start" +:+ "]";
    "input[name*=" +:+ JS.q "start" +:+ "]";
    "input[id*=" +:+ JS.q "start" +:+ "]" ].

Definition endTimeSelectors : list string := Eval vm_compute in
  [ "input[placeholder*=" +:+ JS.q "fin" +:+ "]";
    "input[placeholder*=" +:+ JS.q "end" +:+ "]";
    "input[name*=" +:+ JS.q "end" +:+ "]";
    "input[id*=" +:+ JS.q "end" +:+ "]" ].

Definition applyButtonSelectors : list string := Eval vm_compute in
  [ "button:has-text(" +:+ JS.q "Aplicar" +:+ ")";
    "button:text(" +:+ JS.q "Aplicar" +:+ ")";
    "[role=" +:+ JS.q "button" +:+ "]:has-text(" +:+ JS.q "Aplicar" +:+ ")";
    "button[type=" +:+ JS.q "submit" +:+ "]" ].

Definition closeButtonSelector : string := Eval vm_compute in
  "div[role=" +:+ JS.q "button" +:+ "][aria-label=" +:+ JS.q "Close" +:+ "]".

Definition modalSelector : string := Eval vm_compute in
  "[aria-modal=" +:+ JS.q "true" +:+ "]".

Definition timeInputSelector : string := Eval vm_compute in
  "input[type=" +:+ JS.q "time" +:+ "]".

Definition successSelector : string := Eval vm_compute in
  ".success, [data-testid=" +:+ JS.q "success" +:+ "], .notification-success".

Definition attendanceUrl : string := "https://app.factorialhr.com/attendance/clock-in".

(** The test the sources apply to a text to call it a missing-hours marker:
    [text && text.includes('-') && text.includes('h')]. *)
Definition isMissingHoursText (t : option string) : bool :=
  match t with
  | Some s => JS.truthy_string s && JS.includes s "-" && JS.includes s "h"
  | None => false
  end.

(** [text && /\d{1,2}/.test(text) && parseInt(text) <= 31]. *)
Definition looksLikeDay (text : string) : bool :=
  JS.truthy_string text && JS.has_digit text &&
  match JS.parseInt text with
  | Some v => (v <=? 31)%Z
  | None => false
  end.

Section InPage.
(** The functions the sources hand to [evaluate] and [evaluateHandle]:
    they run inside the page, on the live document. *)

Definition null_deref {A} (prop : string) : res A :=
  Throw ("TypeError: Cannot read properties of null (reading '" +:+ prop +:+ "')").

(** [el => { let current = el.parentElement;
             while (current && current.tagName !== 'TR') current = current.parentElement;
             return current; }] *)
Definition closestRow (p : page) (el : jsval) : res jsval :=
  match el with
  | JElem i =>
      match resolve p i with
      | Ok (_, up) => Ok (of_node (List.find (Dom.has_tag "TR") up))
      | Throw e => Throw e
      end
  | _ => null_deref "parentElement"
  end.

(** [row => { for (const cell of row.querySelectorAll('td')) {
                const text = cell.textContent?.trim();
                if (text && /\d{1,2}/.test(text) && parseInt(text) <= 31) return text; }
              return null; }] *)
Definition dateCellText (p : page) (row : jsval) : res jsval :=
  match row with
  | JElem i =>
      match resolve p i with
      | Ok (n, _) =>
          Ok (match List.find looksLikeDay
                      (map (fun cell => JS.trim (Dom.textContent cell)) (Dom.byTag "TD" n)) with
              | Some text => JString text
              | None => JNull
              end)
      | Throw e => Throw e
      end
  | _ => null_deref "querySelectorAll"
  end.

(** [row => row && row.querySelector('[data-intercom-target="attendance-row-toggle"]') !== null] *)
Definition hasToggleButton (p : page) (row : jsval) : res jsval :=
  match row with
  | JElem i =>
      match resolve p i with
      | Ok (n, _) =>
          Ok (JBool (bool_decide (is_Some (Dom.byAttr "data-intercom-target"
                                                      "attendance-row-toggle" n))))
      | Throw e => Throw e
      end
  | v => if truthy v then Throw "TypeError: row.querySelector is not a function" else Ok v
  end.

(** [row => { if (!row) return null;
              return row.querySelector('[data-intercom-target="attendance-row-toggle"]'); }] *)
Definition toggleButtonOf (p : page) (row : jsval) : res jsval :=
  match row with
  | JElem i =>
      match resolve p i with
      | Ok (n, _) => Ok (of_node (Dom.byAttr "data-intercom-target" "attendance-row-toggle" n))
      | Throw e => Throw e
      end
  | _ => Ok JNull
  end.

(** [row => { if (!row) return false;
              for (const span of row.querySelectorAll('span'))
                if (span.textContent && span.textContent.includes('-')
                    && span.textContent.includes('h')) return true;
              return false; }] *)
Definition stillHasMissingHours (p : page) (row : jsval) : res jsval :=
  match row with
  | JElem i =>
      match resolve p i with
      | Ok (n, _) =>
          Ok (JBool (existsb (fun span => isMissingHoursText (Some (Dom.textContent span)))
                             (Dom.byTag "SPAN" n)))
      | Throw e => Throw e
      end
  | _ => Ok (JBool false)
  end.
End InPage.

Section TimeTracker.
Context (B : browser) (config : Config).
(** The clock: [now] is the time value of [new Date()], [tz] the offset of
    local time from UTC in minutes. *)
Context (now tz : Z).

(** The loop variables [targetRow] and [foundDate] of step 1.  A
    [JSHandle] is an object, hence truthy whatever it wraps: [targetRow]
    is [None] for the JavaScript [null] and [Some h] for a handle. *)
Definition locals : Type := option jsval * string.

(** The body of [for (const span of missingHoursSpans)]. *)
Definition inspectSpan (selector : string) (span : nat) (st : locals)
  : M (flow locals) :=
  let foundDate := snd st in
  r <- attempt (textContent B span) ;;
  match r with
  | Throw e => ret (Raise e st)
  | Ok spanText =>
      if isMissingHoursText spanText then
        log Info ("Found missing hours span: " +:+ JS.q (default "" spanText)
                  +:+ " with selector: " +:+ selector) ;;
        r <- attempt (evaluate B (JElem span) "closestRow" closestRow) ;;
        match r with
        | Throw e => ret (Raise e st)
        | Ok row =>
            (* targetRow = row; if (targetRow) *)
            foundDate <-
              try_catch
                (dateCell <- evaluate B row "dateCellText" dateCellText ;;
                 dateText <- jsonValue B dateCell ;;
                 ret (match dateText with
                      | JString t => if JS.truthy_string t then t else foundDate
                      | _ => foundDate
                      end))
                (fun _ => log Debug "Could not determine date for row" ;; ret foundDate) ;;
            log Info ("Found missing hours row for date " +:+ foundDate
                      +:+ " with missing hours: " +:+ default "" spanText) ;;
            try_catch
              (hasToggle <- evaluate B row "hasToggleButton" hasToggleButton ;;
               if negb (truthy hasToggle) then
                 log Debug ("Row with " +:+ default "" spanText
                            +:+ " appears to be a header row (no toggle button), skipping...") ;;
                 ret (Next (None, foundDate))
               else
                 rowElement <- jsonValue B row ;;
                 if negb (truthy rowElement) then
                   log Debug "Row element is null, skipping..." ;;
                   ret (Next (None, foundDate))
                 else
                   log Info "Validated row has toggle button - this is a data row with missing hours" ;;
                   ret (Break (Some row, foundDate)))
              (fun e =>
                 log Debug ("Row validation failed: " +:+ e +:+ ", skipping...") ;;
                 ret (Next (None, foundDate)))
        end
      else ret (Next st)
  end.

(** The body of [for (const selector of missingHoursSelectors)]. *)
Definition trySelector (selector : string) (st : locals) : M (flow locals) :=
  r <- attempt (queryAll B selector) ;;
  match r with
  | Throw e =>
      log_with Debug ("Selector " +:+ selector +:+ " failed:") e ;; ret (Next st)
  | Ok missingHoursSpans =>
      r <- for_of missingHoursSpans (inspectSpan selector) st ;;
      match snd r with
      | Some e =>
          log_with Debug ("Selector " +:+ selector +:+ " failed:") e ;; ret (Next (fst r))
      | None =>
          match fst (fst r) with
          | Some _ => ret (Break (fst r))
          | None => ret (Next (fst r))
          end
      end
  end.

(** Step 1: find any table row with missing hours. *)
Definition findTargetRow : M locals :=
  log Info "Waiting for dynamic content to load..." ;;
  waitForTimeout B 3000 ;;
  log Info "Looking for ANY table row with missing hours..." ;;
  for_each missingHoursSelectors trySelector (None, "unknown").

(** The modal check before the toggle is clicked. *)
Definition dismissModal : M unit :=
  modal <- query B modalSelector ;;
  log Info ("MODAL CHECK: Found modal? " +:+ JS.bool_toString (bool_decide (is_Some modal))) ;;
  match modal with
  | None => ret tt
  | Some _ =>
      log Info "MODAL FOUND: Trying multiple strategies to dismiss blocking modal..." ;;
      modalClosed <-
        for_each closeSelectors
          (fun selector (modalClosed : bool) =>
             try_catch
               (closeButton <- query B selector ;;
                match closeButton with
                | Some b =>
                    log Info ("Found close button with selector: " +:+ selector) ;;
                    click B b ;;
                    waitForTimeout B 1000 ;;
                    ret (Break true)
                | None => ret (Next modalClosed)
                end)
               (fun e =>
                  log_with Debug ("Close button selector " +:+ selector +:+ " failed:") e ;;
                  ret (Next modalClosed)))
          false ;;
      (if negb modalClosed then
         log Info "No close button found, trying Escape key..." ;;
         keyboardPress B "Escape" ;;
         waitForTimeout B 1000
       else ret tt) ;;
      stillHasModal <- query B modalSelector ;;
      match stillHasModal with
      | Some _ =>
          log Info "Modal still present, trying to click outside it..." ;;
          pageClick B "body" ;;
          waitForTimeout B 1000
      | None => ret tt
      end
  end.

(** Step 3: find the button that adds an entry. *)
Definition findAddButton : M (option nat) :=
  addButton <-
    for_each addButtonSelectors
      (fun selector (addButton : option nat) =>
         r <- attempt (waitForSelector B selector 5000) ;;
         match r with
         | Ok (Some b) =>
             log Info ("Found " +:+ JS.q "AÃ±adir" +:+ " button with selector: " +:+ selector) ;;
             ret (Break (Some b))
         | Ok None => ret (Next None)
         | Throw e =>
             log_with Debug ("Selector " +:+ selector +:+ " failed:") e ;;
             ret (Next addButton)
         end)
      None ;;
  match addButton with
  | Some _ => ret addButton
  | None =>
      allButtons <- queryAll B "button" ;;
      for_each allButtons
        (fun button (addButton : option nat) =>
           r <- attempt (textContent B button) ;;
           match r with
           | Ok text =>
               if JS.truthy_opt text &&
                  JS.includes (JS.toLowerCase (JS.trim (default "" text))) "aÃ±adir"
               then
                 log Info ("Found " +:+ JS.q "AÃ±adir" +:+ " button by text content") ;;
                 ret (Break (Some button))
               else ret (Next addButton)
           | Throw _ => ret (Next addButton)
           end)
        None
  end.

(** One of the two cascades of last resort in fillFactorialPopup. *)
Definition fillBySelectors (what : string) (selectors : list string) (value : string)
  : M bool :=
  for_each selectors
    (fun selector (filled : bool) =>
       try_catch
         (element <- query B selector ;;
          match element with
          | Some el =>
              visible <- isVisible B el ;;
              if visible then
                log Info ("Setting " +:+ what +:+ " time with selector: " +:+ selector) ;;
                click B el ;;
                fill B el value ;;
                waitForTimeout B 500 ;;
                ret (Break true)
              else ret (Next filled)
          | None => ret (Next filled)
          end)
         (fun e =>
            log_with Debug (what +:+ " time selector " +:+ selector +:+ " failed:") e ;;
            ret (Next filled)))
    false.

(** The two time fields of the popup. *)
Definition fillTimes (entry : WorkEntry) : M unit :=
  timeInputs <- queryAll B timeInputSelector ;;
  allInputs <- queryAll B "input" ;;
  log Info ("Found " +:+ JS.toString (Z.of_nat (length timeInputs)) +:+ " time inputs and "
            +:+ JS.toString (Z.of_nat (length allInputs)) +:+ " total inputs") ;;
  match timeInputs !! 0%nat, timeInputs !! 1%nat with
  | Some t0, Some t1 =>
      (* timeInputs.length >= 2 && timeInputs[0] && timeInputs[1] *)
      log Info "Using first time input for start time and second for end time" ;;
      try_catch
        (click B t0 ;;
         fill B t0 (startTime entry) ;;
         log Info ("Set start time to " +:+ startTime entry +:+ " in first time input") ;;
         waitForTimeout B 500 ;;
         click B t1 ;;
         fill B t1 (endTime entry) ;;
         log Info ("Set end time to " +:+ endTime entry +:+ " in second time input") ;;
         waitForTimeout B 500)
        (fun e => log_with Error "Failed to fill time inputs directly:" e ;; throw e)
  | _, _ =>
      match allInputs !! 0%nat, allInputs !! 1%nat with
      | Some a0, Some a1 =>
          log Info "Fallback: using first two inputs for start and end time" ;;
          try_catch
            (click B a0 ;;
             fill B a0 (startTime entry) ;;
             log Info ("Set start time to " +:+ startTime entry +:+ " in first input") ;;
             waitForTimeout B 500 ;;
             click B a1 ;;
             fill B a1 (endTime entry) ;;
             log Info ("Set end time to " +:+ endTime entry +:+ " in second input") ;;
             waitForTimeout B 500)
            (fun e => log_with Error "Failed to fill inputs with fallback method:" e ;; throw e)
      | _, _ =>
          log Info "Using specific selectors as last resort..." ;;
          startFilled <- fillBySelectors "start" startTimeSelectors (startTime entry) ;;
          endFilled <- fillBySelectors "end" endTimeSelectors (endTime entry) ;;
          if negb startFilled || negb endFilled then
            log Warn ("Time filling incomplete: start=" +:+ JS.bool_toString startFilled
                      +:+ ", end=" +:+ JS.bool_toString endFilled)
          else ret tt
      end
  end.

(** The submit button of the popup. *)
Definition findApplyButton : M (option nat) :=
  applyButton <-
    for_each applyButtonSelectors
      (fun selector (applyButton : option nat) =>
         r <- attempt (query B selector) ;;
         match r with
         | Throw e =>
             log_with Debug ("Apply button selector " +:+ selector +:+ " failed:") e ;;
             ret (Next applyButton)
         | Ok None => ret (Next None)
         | Ok (Some b) =>
             r <- attempt (isVisible B b) ;;
             match r with
             | Ok true =>
                 log Info ("Found " +:+ JS.q "Aplicar" +:+ " button with selector: " +:+ selector) ;;
                 ret (Break (Some b))
             | Ok false => ret (Next (Some b))
             | Throw e =>
                 log_with Debug ("Apply button selector " +:+ selector +:+ " failed:") e ;;
                 ret (Next (Some b))
             end
         end)
      None ;;
  match applyButton with
  | Some _ => ret applyButton
  | None =>
      allButtons <- queryAll B "button" ;;
      for_each allButtons
        (fun button (applyButton : option nat) =>
           r <- attempt (textContent B button) ;;
           match r with
           | Ok text =>
               if JS.truthy_opt text &&
                  JS.includes (JS.toLowerCase (JS.trim (default "" text))) "aplicar"
               then
                 log Info ("Found " +:+ JS.q "Aplicar" +:+ " button by text content") ;;
                 ret (Break (Some button))
               else ret (Next applyButton)
           | Throw _ => ret (Next applyButton)
           end)
        None
  end.

Definition fillFactorialPopup (entry : WorkEntry) : M bool :=
  try_catch
    (log Info "Filling Factorial popup with work details..." ;;
     log Info ("Setting work type to " +:+ JS.q "Trabajo" +:+ "...") ;;
     for_each workTypeSelectors
       (fun selector (_ : unit) =>
          try_catch
            (element <- query B selector ;;
             match element with
             | Some el =>
                 visible <- isVisible B el ;;
                 if visible then
                   log Info ("Trying to set work type with selector: " +:+ selector) ;;
                   click B el ;;
                   waitForTimeout B 500 ;;
                   fill B el "" ;;
                   typeText B el "Trabajo" ;;
                   waitForTimeout B 500 ;;
                   keyboardPress B "Tab" ;;
                   ret (Break tt)
                 else ret (Next tt)
             | None => ret (Next tt)
             end)
            (fun e =>
               log_with Debug ("Work type selector " +:+ selector +:+ " failed:") e ;;
               ret (Next tt)))
       tt ;;
     log Info ("Setting start time to " +:+ startTime entry +:+ " and end time to "
               +:+ endTime entry +:+ "...") ;;
     fillTimes entry ;;
     log Info ("Looking for " +:+ JS.q "Aplicar" +:+ " button...") ;;
     applyButton <- findApplyButton ;;
     match applyButton with
     | None => throw ("Could not find " +:+ JS.q "Aplicar" +:+ " button to submit the form")
     | Some b =>
         log Info ("Clicking " +:+ JS.q "Aplicar" +:+ " button to submit...") ;;
         click B b ;;
         waitForTimeout B 3000 ;;
         log Info "Checking for successful submission..." ;;
         currentUrl <- url ;;
         successIndicators <- queryAll B successSelector ;;
         if (0 <? length successIndicators)%nat then
           log Info "Found success indicators - form submission appears successful" ;;
           ret true
         else
           log Info "Form submitted without errors - will verify success in parent function" ;;
           ret true
     end)
    (fun error => log_with Error "Failed to fill Factorial popup:" error ;; ret false).

(** Step 5: has the missing-hours indicator left the target row? *)
Definition verifySubmission (row : jsval) (fillResult : bool) : M bool :=
  if fillResult then
    log Info "Verifying successful submission by checking if missing hours indicator has disappeared..." ;;
    try_catch
      (waitForTimeout B 2000 ;;
       stillHas <- evaluate B row "stillHasMissingHours" stillHasMissingHours ;;
       if truthy stillHas then
         log Warn "Missing hours indicator still present after submission - may not have been successful" ;;
         ret false
       else
         log Info "Success confirmed: Missing hours indicator has disappeared from the row!" ;;
         ret true)
      (fun e =>
         log Warn ("Could not verify success by checking missing hours indicator: " +:+ e) ;;
         ret fillResult)
  else ret fillResult.

(** Steps 2 to 5, once a row has been kept. *)
Definition logHoursInRow (entry : WorkEntry) (row : jsval) : M bool :=
  log Info "Looking for toggle button in the target row..." ;;
  r <- attempt (evaluate B row "toggleButtonOf" toggleButtonOf) ;;
  match r with
  | Throw e => log Error ("Failed to find toggle button: " +:+ e) ;; ret false
  | Ok toggleButton =>
      (* the tests [!targetRow] and [!toggleButton] that the source repeats
         here test handles, which are never falsy *)
      log Info "MODAL CHECK: Looking for blocking modals before clicking toggle button..." ;;
      try_catch dismissModal
        (fun e => log_with Debug "Modal dismissal failed, continuing..." e) ;;
      log Info "CLICK: About to click toggle button..." ;;
      lastModalCheck <- query B modalSelector ;;
      match lastModalCheck with
      | Some _ =>
          log Error "CRITICAL: Modal still present right before click! This will cause timeout." ;;
          screenshot B ("logs/modal-blocking-click-" +:+ JS.toString now +:+ ".png")
      | None => ret tt
      end ;;
      (* toggleButton.asElement()?.click() *)
      match toggleButton with
      | JElem el => click B el
      | _ => ret tt
      end ;;
      waitForTimeout B 2000 ;;
      log Info ("Looking for " +:+ JS.q "AÃ±adir" +:+ " button...") ;;
      addButton <- findAddButton ;;
      match addButton with
      | None => throw ("Could not find " +:+ JS.q "AÃ±adir" +:+ " button after clicking toggle")
      | Some b =>
          log Info ("Clicking " +:+ JS.q "AÃ±adir" +:+ " button...") ;;
          click B b ;;
          waitForTimeout B 3000 ;;
          log Info "Filling popup form..." ;;
          fillResult <- fillFactorialPopup entry ;;
          verifySubmission row fillResult
      end
  end.

Definition handleFactorialTimeEntry (entry : WorkEntry) : M bool :=
  log Info "Starting Factorial-specific time entry workflow..." ;;
  try_catch
    (found <- findTargetRow ;;
     match fst found with
     | None =>
         log Info "No missing hours found - all days appear to be properly logged" ;;
         ret true
     | Some targetRow => logHoursInRow entry targetRow
     end)
    (fun error => log_with Error "Factorial workflow failed:" error ;; ret false).

(** The preamble shared by logWorkHours and logAnyMissingHours: try to
    close any popup. *)
Definition dismissPopups : M unit :=
  log Info "Looking for close button to dismiss any popups..." ;;
  try_catch
    (closeButton <- query B closeButtonSelector ;;
     match closeButton with
     | Some b =>
         log Info "Found close button, clicking to dismiss popup..." ;;
         click B b ;;
         waitForTimeout B 1000
     | None =>
         log Debug "No close button found, clicking body as fallback..." ;;
         pageClick B "body" ;;
         waitForTimeout B 1000
     end)
    (fun _ => log Debug "Could not click close button or body, continuing...").

Definition logWorkHours (entry : WorkEntry) : M bool :=
  try_catch
    (log Info ("Logging work hours for " +:+ date entry +:+ ": " +:+ startTime entry
               +:+ " - " +:+ endTime entry) ;;
     currentUrl <- url ;;
     (if negb (JS.includes currentUrl "attendance") && negb (JS.includes currentUrl "time") then
        log Warn "Not on attendance page, trying to navigate..." ;;
        goto B attendanceUrl ;;
        waitForLoadState B "load" ;;
        waitForTimeout B 2000
      else ret tt) ;;
     dismissPopups ;;
     success <-
       try_catch
         (log Info "Using Factorial-specific workflow..." ;;
          success <- handleFactorialTimeEntry entry ;;
          if negb success then throw "Factorial workflow failed" else ret success)
         (fun error =>
            log_with Error "Factorial workflow failed:" error ;;
            throw "Could not log work hours using Factorial workflow") ;;
     if success then
       log Info "Work hours logged successfully" ;;
       ret true
     else ret false)
    (fun error => log_with Error "Failed to log work hours:" error ;; ret false).

Definition logAnyMissingHours : M bool :=
  log Info "Scanning for any days with missing hours to log automatically..." ;;
  try_catch
    (let defaultEntry :=
       {| date := Date.isoDate now;
          startTime := workHours_defaultStartTime config;
          endTime := workHours_defaultEndTime config;
          breakMinutes := Some (workHours_defaultBreakMinutes config);
          description := Some "Automated work hours entry" |} in
     currentUrl <- url ;;
     (if negb (JS.includes currentUrl "attendance") && negb (JS.includes currentUrl "time") then
        log Info "Navigating to time tracking page..." ;;
        goto B attendanceUrl ;;
        waitForLoadState B "load" ;;
        waitForTimeout B 2000
      else ret tt) ;;
     dismissPopups ;;
     log Info "Using flexible workflow to find and log any missing hours..." ;;
     handleFactorialTimeEntry defaultEntry)
    (fun error => log_with Error "Failed to log missing hours automatically:" error ;; ret false).

Definition getTodayEntry : WorkEntry :=
  let dateString := Date.isoDate now in
  {| date := dateString;
     startTime := workHours_defaultStartTime config;
     endTime := workHours_defaultEndTime config;
     breakMinutes := Some (workHours_defaultBreakMinutes config);
     description := Some ("Work day - " +:+ dateString) |}.

Definition getCurrentWeekEntries : list WorkEntry :=
  let today := now in
  let startOfWeek := today in
  (* Get Monday of current week *)
  let dayOfWeek := Date.getDay tz today in
  let diff := (Date.getDate tz today - dayOfWeek + (if (dayOfWeek =? 0)%Z then -6 else 1))%Z in
  let startOfWeek := Date.setDate tz startOfWeek diff in
  (* Generate entries for the work week (Monday to Friday) *)
  map (fun i : Z =>
         let workDay := startOfWeek in
         let workDay := Date.setDate tz workDay (Date.getDate tz startOfWeek + i) in
         let dateString := Date.isoDate workDay in
         {| date := dateString;
            startTime := workHours_defaultStartTime config;
            endTime := workHours_defaultEndTime config;
            breakMinutes := Some (workHours_defaultBreakMinutes config);
            description := Some ("Work day - " +:+ dateString) |})
      [0; 1; 2; 3; 4]%Z.

End TimeTracker.

(** ** The session driver (src/factorial-automation.ts) *)

Definition emailSelectors : list string := Eval vm_compute in
  [ "input[type=" +:+ JS.q "email" +:+ "]";
    "input[name=" +:+ JS.q "email" +:+ "]";
    "input[placeholder*=" +:+ JS.q "email" +:+ " i]";
    "#email";
    ".email-input" ].

Definition passwordSelectors : list string := Eval vm_compute in
  [ "input[type=" +:+ JS.q "password" +:+ "]";
    "input[name=" +:+ JS.q "password" +:+ "]";
    "#password";
    ".password-input" ].

Definition buttonSelectors : list string := Eval vm_compute in
  [ "button[type=" +:+ JS.q "submit" +:+ "]";
    "input[type=" +:+ JS.q "submit" +:+ "]";
    "button:has-text(" +:+ JS.q "Sign in" +:+ ")";
    "button:has-text(" +:+ JS.q "Login" +:+ ")";
    "button:has-text(" +:+ JS.q "Log in" +:+ ")";
    ".login-button";
    ".submit-button" ].

Definition errorSelectors : list string := Eval vm_compute in
  [ ".error-message";
    ".alert-error";
    "[data-testid=" +:+ JS.q "error" +:+ "]";
    ".login-error" ].

Definition loggedInIndicators : list string := Eval vm_compute in
  [ ".dashboard";
    ".user-menu";
    "[data-testid=" +:+ JS.q "user-avatar" +:+ "]";
    ".navigation-menu";
    "nav[role=" +:+ JS.q "navigation" +:+ "]" ].

Definition timeTrackingSelectors : list string := Eval vm_compute in
  [ "a[href*=" +:+ JS.q "time" +:+ "]";
    "a[href*=" +:+ JS.q "attendance" +:+ "]";
    "nav a:has-text(" +:+ JS.q "Time" +:+ ")";
    "nav a:has-text(" +:+ JS.q "Attendance" +:+ ")";
    "[data-testid=" +:+ JS.q "time-tracking" +:+ "]";
    ".menu-time";
    ".sidebar a:has-text(" +:+ JS.q "Time" +:+ ")" ].

Definition timeUrls : list string :=
  [ "/attendance/clock-in"; "/attendance/"; "/attendance"; "/time"; "/time-tracking" ].

Definition maxAttempts : Z := 3.

Section FactorialAutomation.
Context (B : browser) (config : Config).

Definition set_fields (b c p : bool) : M unit :=
  fun w => (Ok tt, set_session b c p w).

Definition fields : M (bool * bool * bool) :=
  fun w => (Ok (w_browser w, w_context w, w_hasPage w), w).

Definition initialize : M unit :=
  try_catch
    (log Info "Initializing Playwright browser..." ;;
     call_ B Launch ;;
     f <- fields ;;
     set_fields true (snd (fst f)) (snd f) ;;
     call_ B NewContext ;;
     f <- fields ;;
     set_fields (fst (fst f)) true (snd f) ;;
     call_ B NewPage ;;
     f <- fields ;;
     set_fields (fst (fst f)) (snd (fst f)) true ;;
     (* setDefaultTimeout and setDefaultNavigationTimeout only store a number *)
     log Info "Browser initialized successfully")
    (fun error => log_with Error "Failed to initialize browser:" error ;; throw error).

Definition isLoggedIn : M bool :=
  f <- fields ;;
  if negb (snd f) then ret false
  else
    try_catch
      (found <-
         for_each loggedInIndicators
           (fun selector (found : bool) =>
              try_catch
                (element <- query B selector ;;
                 match element with
                 | Some _ =>
                     log Debug ("Found logged-in indicator: " +:+ selector) ;;
                     ret (Break true)
                 | None => ret (Next found)
                 end)
                (fun _ => ret (Next found)))
           false ;;
       if found then ret true
       else
         currentUrl <- url ;;
         if JS.includes currentUrl "/login" || JS.includes currentUrl "/signin" then ret false
         else if JS.includes currentUrl "factorialhr.com" && negb (JS.includes currentUrl "/login")
              then ret true
              else ret false)
      (fun error => log_with Debug "Error checking login status:" error ;; ret false).

(** The navigation loop of login: [remaining] attempts are left. *)
Fixpoint navigate (remaining : nat) (attempts : Z) : M unit :=
  match remaining with
  | O => ret tt
  | S remaining' =>
      let attempts := (attempts + 1)%Z in
      r <- attempt
             (log Info ("Navigation attempt " +:+ JS.toString attempts +:+ "/"
                        +:+ JS.toString maxAttempts +:+ "...") ;;
              goto B (factorial_baseUrl config) ;;
              waitForLoadState B "networkidle" ;;
              log Info "Successfully navigated to Factorial login page") ;;
      match r with
      | Ok _ => ret tt
      | Throw navError =>
          if (attempts =? maxAttempts)%Z then
            throw ("Failed to navigate to Factorial after " +:+ JS.toString maxAttempts
                   +:+ " attempts. Network issue or site unavailable. Error: " +:+ navError)
          else
            log_with Warn ("Navigation attempt " +:+ JS.toString attempts
                           +:+ " failed, retrying in 5 seconds...") navError ;;
            waitForTimeout B 5000 ;;
            navigate remaining' attempts
      end
  end.

(** A cascade of [waitForSelector] calls: the first selector that yields
    an element wins. *)
Definition waitForFirst (what : string) (selectors : list string) (timeout : Z)
  : M (option nat) :=
  for_each selectors
    (fun selector (found : option nat) =>
       r <- attempt (waitForSelector B selector timeout) ;;
       match r with
       | Ok (Some el) =>
           log Info ("Found " +:+ what +:+ " with selector: " +:+ selector) ;;
           ret (Break (Some el))
       | Ok None => ret (Next None)
       | Throw _ => ret (Next found)
       end)
    None.

(** What login does when the page does not show a logged-in state. *)
Definition reportLoginError : M bool :=
  for_each errorSelectors
    (fun selector (_ : unit) =>
       try_catch
         (errorElement <- query B selector ;;
          match errorElement with
          | Some el =>
              errorText <- textContent B el ;;
              log Error ("Login failed with error: " +:+ default "null" errorText) ;;
              throw ("Login failed: " +:+ default "null" errorText)
          | None => ret (Next tt)
          end)
         (fun _ => ret (Next tt)))
    tt ;;
  log Error "Login failed - no specific error message found" ;;
  throw "Login failed - please check credentials".

Definition login : M bool :=
  f <- fields ;;
  if negb (snd f) then throw "Browser not initialized. Call initialize() first."
  else
    try_catch
      (log Info "Navigating to Factorial login page..." ;;
       navigate (Z.to_nat maxAttempts) 0 ;;
       log Info "Looking for login form..." ;;
       emailInput <- waitForFirst "email input" emailSelectors 5000 ;;
       match emailInput with
       | None =>
           loggedIn <- isLoggedIn ;;
           if loggedIn then
             log Info "Already logged in to Factorial" ;;
             ret true
           else throw "Could not find email input field. The page structure might have changed."
       | Some emailInput =>
           log Info "Filling email field..." ;;
           fill B emailInput (factorial_email config) ;;
           passwordInput <- waitForFirst "password input" passwordSelectors 2000 ;;
           match passwordInput with
           | None => throw "Could not find password input field"
           | Some passwordInput =>
               log Info "Filling password field..." ;;
               fill B passwordInput (factorial_password config) ;;
               loginButton <- waitForFirst "login button" buttonSelectors 2000 ;;
               match loginButton with
               | None =>
                   log Info "No login button found, trying Enter key..." ;;
                   press B passwordInput "Enter"
               | Some loginButton =>
                   log Info "Clicking login button..." ;;
                   click B loginButton
               end ;;
               waitForLoadState B "networkidle" ;;
               loginSuccess <- isLoggedIn ;;
               if loginSuccess then
                 log Info "Login successful!" ;;
                 ret true
               else reportLoginError
           end
       end)
      (fun error => log_with Error "Login failed:" error ;; throw error).

Definition navigateToTimeTracking : M unit :=
  f <- fields ;;
  if negb (snd f) then throw "Browser not initialized"
  else
    try_catch
      (log Info "Navigating to time tracking section..." ;;
       found <-
         for_each timeTrackingSelectors
           (fun selector (found : bool) =>
              try_catch
                (element <- query B selector ;;
                 match element with
                 | Some el =>
                     log Info ("Found time tracking link with selector: " +:+ selector) ;;
                     click B el ;;
                     waitForLoadState B "networkidle" ;;
                     ret (Break true)
                 | None => ret (Next found)
                 end)
                (fun _ => ret (Next found)))
           false ;;
       found <-
         (if negb found then
            for_each timeUrls
              (fun u (found : bool) =>
                 try_catch
                   (log Info ("Trying direct navigation to: " +:+ factorial_baseUrl config +:+ u) ;;
                    goto B (factorial_baseUrl config +:+ u) ;;
                    waitForLoadState B "load" ;;
                    waitForTimeout B 2000 ;;
                    pageTitle <- title B ;;
                    currentUrl <- url ;;
                    if negb (JS.includes (JS.toLowerCase pageTitle) "error") &&
                       negb (JS.includes (JS.toLowerCase pageTitle) "404") &&
                       negb (JS.includes currentUrl "/login")
                    then
                      log Info ("Successfully navigated to: " +:+ currentUrl) ;;
                      ret (Break true)
                    else ret (Next found))
                   (fun e =>
                      log_with Debug ("Failed to navigate to " +:+ u +:+ ":") e ;;
                      ret (Next found)))
              false
          else ret found) ;;
       if negb found then
         throw "Could not navigate to time tracking section. Please check the Factorial interface."
       else log Info "Successfully navigated to time tracking section")
      (fun error => log_with Error "Failed to navigate to time tracking:" error ;; throw error).

Definition cleanup : M unit :=
  try_catch
    (log Info "Cleaning up browser resources..." ;;
     f <- fields ;;
     (if snd f then call_ B ClosePage else ret tt) ;;
     (if snd (fst f) then call_ B CloseContext else ret tt) ;;
     (if fst (fst f) then call_ B CloseBrowser else ret tt) ;;
     log Info "Browser cleanup completed")
    (fun error => log_with Error "Error during cleanup:" error).

End FactorialAutomation.

(** ** The command line (src/index.ts, src/config.ts) *)

Definition newline : string := String "010"%char EmptyString.

Fixpoint join (sep : string) (l : list string) : string :=
  match l with
  | [] => ""
  | [x] => x
  | x :: l' => x +:+ sep +:+ join sep l'
  end.

(** The options of the log-custom command, as commander hands them over. *)
Record CustomOptions := {
  opt_date : string;
  opt_start : string;
  opt_end : string;
  opt_break : string;
  opt_description : option string
}.

Section CommandLine.
Context (B : browser) (config : Config) (now : Z).

Definition validateConfig : M unit :=
  let errors := [] in
  let errors := if negb (JS.truthy_string (factorial_email config))
                then (errors ++ ["FACTORIAL_EMAIL is required"])%list else errors in
  let errors := if negb (JS.truthy_string (factorial_password config))
                then (errors ++ ["FACTORIAL_PASSWORD is required"])%list else errors in
  if (0 <? length errors)%nat
  then throw ("Configuration errors:" +:+ newline +:+ join newline errors)
  else ret tt.

(** The action of log-custom.  The result is the exit code of the
    process: [process.exit] ends it at once, so neither the rest of the
    block nor the [finally] clause runs after it; otherwise the process
    ends with code 0 after the [finally] clause.  The colours and the
    pictograms of the console messages are left out. *)
Definition logCustom (options : CustomOptions) : M Z :=
  console ("Logging work hours for " +:+ opt_date options +:+ "...") ;;
  r <- attempt
         (validateConfig ;;
          initialize B ;;
          loginSuccess <- login B config ;;
          (if negb loginSuccess then throw "Login failed" else ret tt) ;;
          navigateToTimeTracking B config ;;
          f <- fields ;;
          (if negb (snd f) then throw "Page not initialized" else ret tt) ;;
          let entry :=
            {| date := opt_date options;
               startTime := opt_start options;
               endTime := opt_end options;
               breakMinutes := JS.parseInt (opt_break options);
               description :=
                 Some (if JS.truthy_opt (opt_description options)
                       then default "" (opt_description options)
                       else "Work day - " +:+ opt_date options) |} in
          success <- logWorkHours B now entry ;;
          if success then
            console "Work hours logged successfully!" ;;
            console ("   Date: " +:+ date entry) ;;
            console ("   Time: " +:+ startTime entry +:+ " - " +:+ endTime entry) ;;
            console ("   Break: " +:+ match breakMinutes entry with
                                      | Some b => JS.toString b
                                      | None => "NaN"
                                      end +:+ " minutes") ;;
            ret None
          else
            console "Failed to log work hours" ;;
            ret (Some 1%Z)) ;;
  match r with
  | Ok (Some code) => ret code
  | Ok None => cleanup B ;; ret 0%Z
  | Throw e => console ("Error: " +:+ e) ;; ret 1%Z
  end.

End CommandLine.

(** ** Fixture pages

    A mocked browser in the sense of the specification's testable
    properties: a fixed document, a table-driven selector engine that knows
    the selectors the fixtures need, and an application that either does
    nothing or applies the submitted hours. *)

Module Fixture.
Import Dom.

Definition text_has (t : string) (n : node) : bool := JS.includes (textContent n) t.

Definition attr_has (name t : string) (n : node) : bool :=
  match getAttribute name n with
  | Some v => JS.includes v t
  | None => false
  end.

Definition engine : list (string * (node -> bool)) := Eval vm_compute in
  [ ("span[title=" +:+ JS.q "-8h" +:+ "]",
     fun n => has_tag "SPAN" n && has_attr "title" "-8h" n);
    ("span:has-text(" +:+ JS.q "-8h" +:+ ")",
     fun n => has_tag "SPAN" n && text_has "-8h" n);
    ("span._1jh4l1p2:has-text(" +:+ JS.q "-8h" +:+ ")",
     fun n => has_tag "SPAN" n && has_attr "class" "_1jh4l1p2" n && text_has "-8h" n);
    ("[title=" +:+ JS.q "-8h" +:+ "]", fun n => has_attr "title" "-8h" n);
    ("span[title*=" +:+ JS.q "-" +:+ "]",
     fun n => has_tag "SPAN" n && attr_has "title" "-" n);
    ("span:has-text(" +:+ JS.q "-" +:+ ")",
     fun n => has_tag "SPAN" n && text_has "-" n);
    ("button", has_tag "BUTTON");
    ("input", has_tag "INPUT");
    ("input[type=" +:+ JS.q "time" +:+ "]",
     fun n => has_tag "INPUT" n && has_attr "type" "time" n);
    ("button:has-text(" +:+ JS.q "AÃ±adir" +:+ ")",
     fun n => has_tag "BUTTON" n && text_has "AÃ±adir" n);
    ("button:has-text(" +:+ JS.q "Aplicar" +:+ ")",
     fun n => has_tag "BUTTON" n && text_has "Aplicar" n);
    ("input[type=" +:+ JS.q "email" +:+ "]",
     fun n => has_tag "INPUT" n && has_attr "type" "email" n);
    ("input[type=" +:+ JS.q "password" +:+ "]",
     fun n => has_tag "INPUT" n && has_attr "type" "password" n);
    ("button[type=" +:+ JS.q "submit" +:+ "]",
     fun n => has_tag "BUTTON" n && has_attr "type" "submit" n);
    (".error-message", has_attr "class" "error-message");
    ("a[href*=" +:+ JS.q "attendance" +:+ "]",
     fun n => has_tag "A" n && attr_has "href" "attendance" n) ].

Fixpoint lookup_engine (sel : string) (l : list (string * (node -> bool)))
  : node -> bool :=
  match l with
  | [] => fun _ => false
  | (s, f) :: l' => if String.eqb sel s then f else lookup_engine sel l'
  end.

Definition select (sel : string) (p : page) : list nat :=
  omap node_id (List.filter (lookup_engine sel engine) (p_dom p :: descendants (p_dom p))).

(** The attendance table: a summary row that shows "-8h" but has no
    toggle, the row of day 12 with a toggle, and the controls of the
    editor.  [marker] is what the hours cell of day 12 holds. *)
Definition attendance (marker : list node) : node :=
  Elem 0 "BODY" []
    [ Elem 1 "TABLE" []
        [ Elem 10 "TR" []
            [ Elem 11 "TH" [] [Text "Semana"];
              Elem 12 "TD" [] [Elem 13 "SPAN" [("title", "-8h")] [Text "-8h"]] ];
          Elem 20 "TR" []
            [ Elem 21 "TD" [] [Text " 12 "];
              Elem 22 "TD" [] marker;
              Elem 24 "TD" []
                [Elem 25 "BUTTON" [("data-intercom-target", "attendance-row-toggle")] []] ] ];
      Elem 30 "BUTTON" [] [Text "AÃ±adir"];
      Elem 40 "INPUT" [("type", "time")] [];
      Elem 41 "INPUT" [("type", "time")] [];
      Elem 50 "BUTTON" [] [Text "Aplicar"] ].

Definition missing : list node := [Elem 23 "SPAN" [("title", "-8h")] [Text "-8h"]].
Definition worked : list node := [Elem 23 "SPAN" [("title", "8h")] [Text "8h"]].
(** The marker carried by an element that is not a span. *)
Definition missing_div : list node := [Elem 23 "DIV" [("title", "-8h")] [Text "-8h"]].

Definition attendance_url : string := "https://app.factorialhr.com/attendance/clock-in".

Definition page_of (u : string) (d : node) : page := Page u "Factorial" d ∅.

Definition start (p : page) : world := World p true true true [] [] [].

(** A browser whose application never reacts. *)
Definition still : browser :=
  Browser (fun _ _ p => (p, None)) select (fun _ _ => true).

(** A browser whose application, when the submit button 50 is clicked,
    replaces the document by [after]. *)
Definition submitting (after : node) : browser :=
  Browser (fun _ a p =>
             match a with
             | Click 50 => (Page (p_url p) (p_title p) after (p_values p), None)
             | _ => (p, None)
             end)
          select (fun _ _ => true).

(** A browser whose application fails the re-reading of the row. *)
Definition navigating : browser :=
  Browser (fun _ a p =>
             match a with
             | Evaluate _ "stillHasMissingHours" => (p, Some "Execution context was destroyed")
             | _ => (p, None)
             end)
          select (fun _ _ => true).

Definition entry : WorkEntry :=
  {| date := "2024-01-12"; startTime := "09:00"; endTime := "17:00";
     breakMinutes := Some 60%Z; description := Some "Work day - 2024-01-12" |}.

(** A page with every day logged. *)
Definition all_logged : node :=
  Elem 0 "BODY" []
    [ Elem 1 "TABLE" []
        [ Elem 20 "TR" []
            [ Elem 21 "TD" [] [Text "12"];
              Elem 22 "TD" [] worked;
              Elem 24 "TD" []
                [Elem 25 "BUTTON" [("data-intercom-target", "attendance-row-toggle")] []] ] ] ].

(** The editor with a single input and a submit button. *)
Definition one_input : node :=
  Elem 0 "BODY" []
    [ Elem 40 "INPUT" [("type", "text")] [];
      Elem 50 "BUTTON" [] [Text "Aplicar"] ].

(** The login page after a refused attempt. *)
Definition login_refused : node :=
  Elem 0 "BODY" []
    [ Elem 1 "INPUT" [("type", "email")] [];
      Elem 2 "INPUT" [("type", "password")] [];
      Elem 3 "BUTTON" [("type", "submit")] [Text "Sign in"];
      Elem 4 "DIV" [("class", "error-message")] [Text "Invalid email or password"] ].

(** The login page without a password field. *)
Definition login_no_password : node :=
  Elem 0 "BODY" [] [ Elem 1 "INPUT" [("type", "email")] [] ].

Definition login_url : string := "https://app.factorialhr.com/login".

Definition config : Config :=
  {| factorial_email := "ana@example.com";
     factorial_password := "secret";
     factorial_baseUrl := "https://app.factorialhr.com";
     browser_headless := true;
     browser_timeout := 60000;
     browser_pageTimeout := 30000;
     browser_navigationTimeout := 60000;
     browser_elementTimeout := 20000;
     workHours_defaultHours := 8;
     workHours_defaultStartTime := "09:00";
     workHours_defaultEndTime := "17:00";
     workHours_defaultBreakMinutes := 60;
     logging_level := "info";
     logging_logFile := "logs/factorial-automation.log" |}.

(** 2024-01-01T00:30:00 in a zone one hour east of Greenwich, a Monday
    there; in UTC it is still Sunday 2023-12-31, 23:30. *)
Definition monday_after_midnight : Z := 1704065400000.

(** The attendance table before the editor is there. *)
Definition table_only : node :=
  Elem 0 "BODY" []
    [ Elem 1 "TABLE" []
        [ Elem 20 "TR" []
            [ Elem 21 "TD" [] [Text "12"];
              Elem 22 "TD" [] missing;
              Elem 24 "TD" []
                [Elem 25 "BUTTON" [("data-intercom-target", "attendance-row-toggle")] []] ] ] ].

Definition empty_page : node := Elem 0 "BODY" [] [].

(** A browser that cannot reach the site. *)
Definition offline : browser :=
  Browser (fun _ a p =>
             match a with
             | Goto _ => (p, Some "net::ERR_NAME_NOT_RESOLVED")
             | _ => (p, None)
             end)
          select (fun _ _ => true).

Definition no_credentials : Config :=
  {| factorial_email := "";
     factorial_password := "secret";
     factorial_baseUrl := "https://app.factorialhr.com";
     browser_headless := true;
     browser_timeout := 60000;
     browser_pageTimeout := 30000;
     browser_navigationTimeout := 60000;
     browser_elementTimeout := 20000;
     workHours_defaultHours := 8;
     workHours_defaultStartTime := "09:00";
     workHours_defaultEndTime := "17:00";
     workHours_defaultBreakMinutes := 60;
     logging_level := "info";
     logging_logFile := "logs/factorial-automation.log" |}.

(** log-custom with a date that is not in YYYY-MM-DD format. *)
Definition bad_date : CustomOptions :=
  {| opt_date := "12/01/2024"; opt_start := "09:00"; opt_end := "17:00";
     opt_break := "60"; opt_description := None |}.

(** The world before the browser is started. *)
Definition cold (p : page) : world := World p false false false [] [] [].

End Fixture.

(** ** Vocabulary of the statements *)

(** [m], started in [w], ends with an outcome and a world that [post]
    accepts. *)
Definition ends {A} (m : M A) (w : world) (post : res A -> world -> Prop) : Prop :=
  post (fst (m w)) (snd (m w)).

(** [R], a relation between the world at an earlier point and the current
    one, survives [m]. *)
Definition obeys {A} (R : world -> world -> Prop) (m : M A) : Prop :=
  forall w0 w, R w0 w -> R w0 (snd (m w)).

(** The world after a call that left the page as [p']. *)
Definition after (a : action) (p' : page) (w : world) : world :=
  add_trace a (set_page p' w).

(** The application never reacts and no call fails: a fixed fixture page. *)
Definition inert (B : browser) : Prop :=
  forall tr a p, env_step B tr a p = (p, None).

(** The browser raises no error of its own. *)
Definition never_throws (B : browser) : Prop :=
  forall tr a p, snd (env_step B tr a p) = None.

(** [Inv] holds of every page the browser can show once it holds: neither
    the application's reaction nor the writing of an input breaks it. *)
Definition stable (B : browser) (Inv : page -> Prop) : Prop :=
  forall tr a p, Inv p -> Inv (fst (env_step B tr a (effect a p))).

Definition on_page (Inv : page -> Prop) (w : world) : Prop := Inv (w_page w).

(** A call that only waits or reads: it neither clicks, types, presses a
    key nor navigates. *)
Definition passive (a : action) : Prop :=
  match a with
  | WaitForTimeout _ | Query _ | QueryAll _ | WaitForSelector _ _ | IsVisible _
  | TextContent _ | Evaluate _ _ | JsonValue _ | Title | Screenshot _
  | WaitForLoadState _ => True
  | _ => False
  end.

(** Since [w0], only passive calls were made. *)
Definition quiet (w0 w : world) : Prop :=
  exists l, w_trace w = (w_trace w0 ++ l)%list /\ Forall passive l.

(** Since [w0], calls were only added. *)
Definition grows (w0 w : world) : Prop :=
  exists l, w_trace w = (w_trace w0 ++ l)%list.

(** Since [w0] the document is the same. *)
Definition same_dom (w0 w : world) : Prop := p_dom (w_page w) = p_dom (w_page w0).

(** Since [w0] no input was written. *)
Definition same_values (w0 w : world) : Prop :=
  p_values (w_page w) = p_values (w_page w0) /\ same_dom w0 w.

(** A call that does not write into an input. *)
Definition reads_only (a : action) : Prop :=
  match a with
  | Fill _ _ | TypeText _ _ => False
  | _ => True
  end.

(** Reading the inputs [t0] and [t1] back gives the entry's times. *)
Definition filled (entry : WorkEntry) (t0 t1 : nat) (w : world) : Prop :=
  p_values (w_page w) !! t0 = Some (startTime entry) /\
  p_values (w_page w) !! t1 = Some (endTime entry).

Definition resolvable (p : page) (el : nat) : Prop :=
  exists n up, resolve p el = Ok (n, up).

(** What the verification looks for: a span inside the row whose text
    contains a minus sign and the letter h. *)
Definition rowShowsMarkerSpan (p : page) (row : jsval) : Prop :=
  exists i n up span,
    row = JElem i /\ resolve p i = Ok (n, up) /\
    span ∈ Dom.descendants n /\ Dom.tagName span = "SPAN" /\
    JS.includes (Dom.textContent span) "-" = true /\
    JS.includes (Dom.textContent span) "h" = true.

(** Following the specification's words: a "-Nh" pattern is a minus sign,
    one or more digits and the letter h. *)
Fixpoint digits_then_h (s : string) (seen : bool) : bool :=
  match s with
  | String c s' =>
      if JS.is_digit c then digits_then_h s' true
      else seen && Ascii.eqb c "h"%char
  | EmptyString => false
  end.

Fixpoint minusNh (s : string) : bool :=
  match s with
  | String c s' => (Ascii.eqb c "-"%char && digits_then_h s' false) || minusNh s'
  | EmptyString => false
  end.

(** Following the specification's words: the text content of the row
    still shows a "-Nh" pattern. *)
Definition rowTextShowsMissingHours (p : page) (row : nat) : bool :=
  match resolve p row with
  | Ok (n, _) => minusNh (Dom.textContent n)
  | Throw _ => false
  end.

(** The element [el] marks missing hours in the data row [r]: its text
    contains a minus sign and the letter h, its nearest enclosing TR is the
    element [r], and [r] contains a toggle. *)
Definition marks (p : page) (el r : nat) : Prop :=
  exists n up tr row rowup toggle,
    resolve p el = Ok (n, up) /\
    JS.includes (Dom.textContent n) "-" = true /\
    JS.includes (Dom.textContent n) "h" = true /\
    List.find (Dom.has_tag "TR") up = Some tr /\ Dom.node_id tr = Some r /\
    resolve p r = Ok (row, rowup) /\
    toggle ∈ Dom.descendants row /\
    Dom.getAttribute "data-intercom-target" toggle = Some "attendance-row-toggle".

(** The elements the locator examines, in the order in which it does. *)
Definition candidates (B : browser) (p : page) : list nat :=
  concat (map (fun sel => env_select B sel p) missingHoursSelectors).

(** The row the locator keeps for one element, computed. *)
Definition verdict (p : page) (el : nat) : option nat :=
  match resolve p el with
  | Ok (n, up) =>
      if isMissingHoursText (Some (Dom.textContent n)) then
        match of_node (List.find (Dom.has_tag "TR") up) with
        | JElem r =>
            match resolve p r with
            | Ok (row, _) =>
                if bool_decide (is_Some (Dom.byAttr "data-intercom-target"
                                                    "attendance-row-toggle" row))
                then Some r else None
            | Throw _ => None
            end
        | _ => None
        end
      else None
  | Throw _ => None
  end.

(** The first row kept among the elements [els]. *)
Definition first_kept (p : page) (els : list nat) : option nat :=
  head (omap (verdict p) els).

(** On the pages in [Inv], no selector of [sels] matches an element. *)
Definition absent (B : browser) (Inv : page -> Prop) (sels : list string) : Prop :=
  forall sel p, sel ∈ sels -> Inv p -> env_select B sel p = [].

(** On the pages in [Inv], no button carries [label] in its text, however
    the case. *)
Definition no_button_says (B : browser) (Inv : page -> Prop) (label : string) : Prop :=
  forall p p' el n up,
    Inv p -> Inv p' ->
    el ∈ env_select B "button" p -> resolve p' el = Ok (n, up) ->
    JS.includes (JS.toLowerCase (JS.trim (Dom.textContent n))) label = false.

(** The messages of the errors and of the warning at stake. *)
Definition email_not_found : string :=
  "Could not find email input field. The page structure might have changed.".

Definition password_not_found : string := "Could not find password input field".

Definition apply_not_found : string := Eval vm_compute in
  "Could not find " +:+ JS.q "Aplicar" +:+ " button to submit the form".

Definition add_not_found : string := Eval vm_compute in
  "Could not find " +:+ JS.q "AÃ±adir" +:+ " button after clicking toggle".

Definition incomplete : log_entry :=
  LogEntry Warn "Time filling incomplete: start=false, end=false" None.

Definition workflow_started : log_entry :=
  LogEntry Info "Starting Factorial-specific time entry workflow..." None.

(** Since [w] the browser was launched, and that before any other call. *)
Definition launched_since (w w' : world) : Prop :=
  exists l, w_trace w' = (w_trace w ++ Launch :: l)%list.

(** ** Vocabulary of the further properties *)

(** The day of the 400-year era [doe] as year of the era, month and day,
    and back: the check behind the round trip of the civil calendar. *)
Definition era_day_ok (doe : Z) : bool :=
  (let yoe := (doe - doe / 1460 + doe / 36524 - doe / 146096) / 365 in
   let doy := doe - (365 * yoe + yoe / 4 - yoe / 100) in
   let mp := (5 * doy + 2) / 153 in
   let d := doy - (153 * mp + 2) / 5 + 1 in
   let m := if mp <? 10 then mp + 3 else mp - 9 in
   (0 <=? yoe) && (yoe <=? 399) && (1 <=? m) && (m <=? 12) && (1 <=? d) && (d <=? 31) &&
   (yoe * 365 + yoe / 4 - yoe / 100
    + ((153 * (if 2 <? m then m - 3 else m + 9) + 2) / 5 + d - 1) =? doe))%Z.

(** [f] holds of the [n] integers from [z] on. *)
Fixpoint all_from (n : nat) (z : Z) (f : Z -> bool) : bool :=
  match n with
  | O => true
  | S n' => f z && all_from n' (z + 1)%Z f
  end.

(** No character of [s] is [c]. *)
Fixpoint lacks (c : ascii) (s : string) : bool :=
  match s with
  | String x s' => negb (Ascii.eqb x c) && lacks c s'
  | EmptyString => true
  end.


(** The calls of [l] that navigate with [page.goto]. *)
Definition is_goto (a : action) : bool :=
  match a with Goto _ => true | _ => false end.

Fixpoint gotos (l : list action) : nat :=
  match l with
  | [] => 0
  | a :: l' => (if is_goto a then 1 else 0) + gotos l'
  end.

(** Since [w0] at most [k] navigations with [page.goto] were made. *)
Definition goto_bound (k : nat) (w0 w : world) : Prop :=
  exists l, w_trace w = (w_trace w0 ++ l)%list /\ (gotos l <= k)%nat.

(** What cleanup has to close in [w], in the order in which it does. *)
Definition closes (w : world) : list action :=
  ((if w_hasPage w then [ClosePage] else []) ++
   (if w_context w then [CloseContext] else []) ++
   (if w_browser w then [CloseBrowser] else []))%list.

(** The verdict of isLoggedIn on a URL when no indicator is on the page. *)
Definition url_says_logged_in (u : string) : bool :=
  negb (JS.includes u "/login" || JS.includes u "/signin") && JS.includes u "factorialhr.com".

Definition navigation_failed (e : string) : string :=
  "Failed to navigate to Factorial after 3 attempts. Network issue or site unavailable. Error: "
  +:+ e.

Definition no_time_tracking : string :=
  "Could not navigate to time tracking section. Please check the Factorial interface.".

(** An editor whose two fields are plain text inputs. *)
Definition text_editor : Dom.node :=
  Dom.Elem 0 "BODY" []
    [ Dom.Elem 40 "INPUT" [("type", "text")] [];
      Dom.Elem 41 "INPUT" [("type", "text")] [];
      Dom.Elem 50 "BUTTON" [] [Dom.Text "Aplicar"] ].

(** A browser whose application never reacts and shows none of its
    controls. *)
Definition hidden_controls : browser :=
  Browser (fun _ _ p => (p, None)) Fixture.select (fun _ _ => false).

(** ** The form fillers of the older workflow (src/time-tracker.ts)

    fillStartTime, fillEndTime, fillBreakTime, fillDescription,
    submitTimeEntry and checkForErrors, with the selector lists they
    declare. *)

Module Form.

Definition startTimeSelectors : list string := Eval vm_compute in
  [ "input[name*=" +:+ JS.q "start" +:+ " i]";
    "input[placeholder*=" +:+ JS.q "start" +:+ " i]";
    "input[aria-label*=" +:+ JS.q "start" +:+ " i]";
    "[data-testid=" +:+ JS.q "start-time" +:+ "]";
    ".start-time input";
    "input[type=" +:+ JS.q "time" +:+ "]:first-of-type" ].

Definition endTimeSelectors : list string := Eval vm_compute in
  [ "input[name*=" +:+ JS.q "end" +:+ " i]";
    "input[placeholder*=" +:+ JS.q "end" +:+ " i]";
    "input[aria-label*=" +:+ JS.q "end" +:+ " i]";
    "[data-testid=" +:+ JS.q "end-time" +:+ "]";
    ".end-time input";
    "input[type=" +:+ JS.q "time" +:+ "]:last-of-type" ].

Definition breakSelectors : list string := Eval vm_compute in
  [ "input[name*=" +:+ JS.q "break" +:+ " i]";
    "input[placeholder*=" +:+ JS.q "break" +:+ " i]";
    "input[aria-label*=" +:+ JS.q "break" +:+ " i]";
    "[data-testid=" +:+ JS.q "break-time" +:+ "]";
    ".break-time input" ].

Definition descriptionSelectors : list string := Eval vm_compute in
  [ "textarea[name*=" +:+ JS.q "description" +:+ " i]";
    "textarea[placeholder*=" +:+ JS.q "description" +:+ " i]";
    "input[name*=" +:+ JS.q "description" +:+ " i]";
    "input[placeholder*=" +:+ JS.q "note" +:+ " i]";
    "[data-testid=" +:+ JS.q "description" +:+ "]";
    ".description textarea";
    ".notes textarea" ].

Definition submitSelectors : list string := Eval vm_compute in
  [ "button[type=" +:+ JS.q "submit" +:+ "]";
    "button:has-text(" +:+ JS.q "Save" +:+ ")";
    "button:has-text(" +:+ JS.q "Submit" +:+ ")";
    "button:has-text(" +:+ JS.q "Add" +:+ ")";
    "button:has-text(" +:+ JS.q "Create" +:+ ")";
    "[data-testid=" +:+ JS.q "submit" +:+ "]";
    ".submit-btn";
    ".save-btn" ].

Definition errorSelectors : list string := Eval vm_compute in
  [ ".error-message";
    ".alert-error";
    "[data-testid=" +:+ JS.q "error" +:+ "]";
    ".field-error";
    ".validation-error" ].

Section Fillers.
Context (B : browser).

(** The loop of the four fillers: the first selector that yields an
    element gets [value]; what a call throws is dropped and the next
    selector is tried. *)
Definition fillFirst (what : string) (selectors : list string) (value : string) : M bool :=
  for_each selectors
    (fun selector (filled : bool) =>
       try_catch
         (input <- query B selector ;;
          match input with
          | Some el =>
              log Debug ("Filling " +:+ what +:+ " with selector: " +:+ selector) ;;
              fill B el value ;;
              ret (Break true)
          | None => ret (Next filled)
          end)
         (fun _ => ret (Next filled)))
    false.

Definition fillStartTime (startTime : string) : M unit :=
  filled <- fillFirst "start time" startTimeSelectors startTime ;;
  if negb filled then throw "Could not find start time input field" else ret tt.

Definition fillEndTime (endTime : string) : M unit :=
  filled <- fillFirst "end time" endTimeSelectors endTime ;;
  if negb filled then throw "Could not find end time input field" else ret tt.

Definition fillBreakTime (breakMinutes : Z) : M unit :=
  (* Convert minutes to hours:minutes format if needed *)
  let breakTime := formatBreakTime breakMinutes in
  filled <- fillFirst "break time" breakSelectors breakTime ;;
  if negb filled then log Warn "Could not find break time input field, skipping break entry"
  else ret tt.

Definition fillDescription (description : string) : M unit :=
  filled <- fillFirst "description" descriptionSelectors description ;;
  if negb filled then log Warn "Could not find description field, skipping description"
  else ret tt.

Definition checkForErrors : M unit :=
  r <- for_of errorSelectors
         (fun selector (_ : unit) =>
            r <- attempt
                   (errorElement <- query B selector ;;
                    match errorElement with
                    | Some el =>
                        errorText <- textContent B el ;;
                        if JS.truthy_opt errorText &&
                           JS.truthy_string (JS.trim (default "" errorText))
                        then throw ("Validation error: " +:+ JS.trim (default "" errorText))
                        else ret tt
                    | None => ret tt
                    end) ;;
            match r with
            | Ok _ => ret (Next tt)
            | Throw e =>
                (* every error here is an Error object *)
                if JS.includes e "Validation error" then ret (Raise e tt)
                else ret (Next tt)
            end)
         tt ;;
  match snd r with
  | Some e => throw e
  | None => ret tt
  end.

Definition submitTimeEntry : M unit :=
  submitted <-
    for_each submitSelectors
      (fun selector (submitted : bool) =>
         try_catch
           (button <- query B selector ;;
            match button with
            | Some b =>
                log Debug ("Submitting with selector: " +:+ selector) ;;
                click B b ;;
                (* Wait for the form to be processed *)
                waitForTimeout B 2000 ;;
                (* Check if there are any error messages *)
                checkForErrors ;;
                ret (Break true)
            | None => ret (Next submitted)
            end)
           (fun _ => ret (Next submitted)))
      false ;;
  if negb submitted then throw "Could not find submit button to save time entry"
  else ret tt.

End Fillers.
End Form.

(** Since [w0] every call satisfied [P]. *)
Definition only (P : action -> Prop) (w0 w : world) : Prop :=
  exists l, w_trace w = (w_trace w0 ++ l)%list /\ Forall P l.

(** What the workflow may do with [entry]: write nothing into an input but
    the empty string and the two times, type nothing but the work type,
    and not navigate. *)
Definition entry_call (entry : WorkEntry) (a : action) : Prop :=
  match a with
  | Fill _ v => v = "" \/ v = startTime entry \/ v = endTime entry
  | TypeText _ t => t = "Trabajo"
  | Goto _ => False
  | _ => True
  end.

(** ** The log-week command (src/index.ts)

    As for log-custom, the result is the exit code and the colours and
    pictograms of the console messages are left out. *)

(** The options of the log-week command, as commander hands them over. *)
Record WeekOptions := {
  week_start : string;
  week_end : string;
  week_break : string
}.

Section LogWeek.
Context (B : browser) (config : Config) (now tz : Z).

Definition logWeek (options : WeekOptions) : M Z :=
  console "Logging work hours for the current week..." ;;
  r <- attempt
         (validateConfig config ;;
          initialize B ;;
          loginSuccess <- login B config ;;
          (if negb loginSuccess then throw "Login failed" else ret tt) ;;
          navigateToTimeTracking B config ;;
          f <- fields ;;
          (if negb (snd f) then throw "Page not initialized" else ret tt) ;;
          let weekEntries := getCurrentWeekEntries config now tz in
          (* Update entries with provided options *)
          let updatedEntries :=
            map (fun entry =>
                   {| date := date entry;
                      startTime := week_start options;
                      endTime := week_end options;
                      breakMinutes := JS.parseInt (week_break options);
                      description := description entry |})
                weekEntries in
          successCount <-
            for_each updatedEntries
              (fun entry (successCount : Z) =>
                 console ("Logging " +:+ date entry +:+ "...") ;;
                 success <- logWorkHours B now entry ;;
                 successCount <-
                   (if success then
                      console (date entry +:+ " logged successfully") ;;
                      ret (successCount + 1)%Z
                    else
                      console ("Failed to log " +:+ date entry) ;;
                      ret successCount) ;;
                 (* Wait a bit between entries: a timer, not a call of the page *)
                 ret (Next successCount))
              0%Z ;;
          console (newline +:+ "Summary: " +:+ JS.toString successCount +:+ "/"
                   +:+ JS.toString (Z.of_nat (length updatedEntries))
                   +:+ " entries logged successfully")) ;;
  match r with
  | Ok _ => cleanup B ;; ret 0%Z
  | Throw e => console ("Error: " +:+ e) ;; ret 1%Z
  end.

End LogWeek.

(** Since [w0] the console is as it was. *)
Definition same_console (w0 w : world) : Prop := w_console w = w_console w0.

(** The last line that log-week prints when it got to its entries. *)
Definition week_summary (k : Z) : string :=
  newline +:+ "Summary: " +:+ JS.toString k +:+ "/5 entries logged successfully".

(** What login may do: write nothing into an input but the two
    credentials, type nothing, and navigate to the base address only. *)
Definition login_call (config : Config) (a : action) : Prop :=
  match a with
  | Fill _ v => v = factorial_email config \/ v = factorial_password config
  | TypeText _ _ => False
  | Goto u => u = factorial_baseUrl config
  | _ => True
  end.

(** What navigateToTimeTracking may do: write nothing, and navigate to
    one of its five addresses under the base address only. *)
Definition tracking_call (config : Config) (a : action) : Prop :=
  match a with
  | Fill _ _ | TypeText _ _ | Press _ _ | KeyboardPress _ => False
  | Goto u => exists t, In t timeUrls /\ u = factorial_baseUrl config +:+ t
  | _ => True
  end.

(* ================================================================== *)
(** * Theorems *)

(** ** The break time as HH:MM (C8) *)

Example formatBreakTime_60 : formatBreakTime 60 = "01:00".
Proof. reflexivity. Qed.

Example formatBreakTime_6005 : formatBreakTime 6005 = "100:05".
Proof. vm_compute. reflexivity. Qed.

Section Decimal.
Import JS.
Local Open Scope Z_scope.

Lemma append_cons (c : ascii) (a b : string) : String c a +:+ b = String c (a +:+ b).
Proof. reflexivity. Qed.

Lemma append_nil_l (b : string) : "" +:+ b = b.
Proof. reflexivity. Qed.

Lemma append_assoc (a b c : string) : (a +:+ b) +:+ c = a +:+ (b +:+ c).
Proof. induction a as [|x a IH]; [done|]. by rewrite !append_cons, IH. Qed.

Lemma length_append (a b : string) :
  String.length (a +:+ b) = (String.length a + String.length b)%nat.
Proof. induction a as [|x a IH]; [done|]. rewrite append_cons. cbn. by rewrite IH. Qed.

Lemma digit_char_ok (d : Z) :
  0 <= d < 10 ->
  is_digit (char_of_digit d) = true /\ digit_of (char_of_digit d) = d /\
  (0 < d -> Ascii.eqb (char_of_digit d) "0"%char = false).
Proof.
  intros Hd.
  assert (Hc : d = 0 \/ d = 1 \/ d = 2 \/ d = 3 \/ d = 4 \/ d = 5 \/ d = 6 \/
               d = 7 \/ d = 8 \/ d = 9) by lia.
  repeat (destruct Hc as [-> | Hc]); try subst d;
    (split; [reflexivity | split; [reflexivity | intros ?; first [lia | reflexivity]]]).
Qed.

Lemma digits_acc (fuel : nat) : forall n acc,
  digits fuel n acc = digits fuel n "" +:+ acc.
Proof.
  induction fuel as [|f IH]; intros n acc; cbn [digits]; [done|].
  destruct (n <? 10); [done|].
  rewrite (IH (n / 10) (String _ acc)), (IH (n / 10) (String _ "")).
  by rewrite append_assoc.
Qed.

Lemma digits_S (f : nat) (n : Z) :
  digits (S f) n "" =
  if n <? 10 then String (char_of_digit (n mod 10)) ""
  else digits f (n / 10) "" +:+ String (char_of_digit (n mod 10)) "".
Proof. cbn [digits]. destruct (n <? 10); [done|]. apply digits_acc. Qed.

Lemma all_digits_app (a b : string) :
  all_digits (a +:+ b) = all_digits a && all_digits b.
Proof.
  induction a as [|x a IH]; [done|]. rewrite append_cons. cbn. rewrite IH.
  by destruct (is_digit x).
Qed.

Lemma digits_value_app (a b : string) : forall v,
  all_digits a = true -> digits_value (a +:+ b) v = digits_value b (digits_value a v).
Proof.
  induction a as [|x a IH]; intros v Ha; [done|].
  rewrite append_cons. cbn in Ha |- *. apply andb_prop in Ha as [Hx Ha].
  rewrite Hx. by apply IH.
Qed.

Lemma leading_zero_app (a b : string) :
  a <> "" -> leading_zero (a +:+ b) = leading_zero a.
Proof. by destruct a. Qed.

(** The digits printed for [n] are digits, read back as [n], have no
    leading zero unless [n = 0], and are as many as [n] needs. *)
Lemma digits_spec (f : nat) : forall n,
  0 <= n < 10 ^ Z.of_nat (S f) ->
  let s := digits f n "" in
  all_digits s = true /\ digits_value s 0 = n /\ s <> "" /\
  (0 < n -> leading_zero s = false) /\
  (n < 10 -> String.length s = 1%nat) /\
  (10 <= n -> (2 <= String.length s)%nat) /\
  (10 <= n < 100 -> String.length s = 2%nat).
Proof.
  induction f as [|f IH]; intros n Hn.
  - change (10 ^ Z.of_nat 1) with 10 in Hn. cbn [digits].
    rewrite Z.mod_small by lia.
    destruct (digit_char_ok n Hn) as (Hd & Hv & Hz).
    cbn. rewrite Hd, Hv. repeat split; try done; try lia.
  - cbv zeta. rewrite digits_S. destruct (Z.ltb_spec n 10) as [Hlt | Hge].
    + rewrite Z.mod_small by lia.
      destruct (digit_char_ok n ltac:(lia)) as (Hd & Hv & Hz).
      cbn. rewrite Hd, Hv. repeat split; try done; try lia.
    + assert (Hq : 0 <= n / 10 < 10 ^ Z.of_nat (S f)).
      { split; [apply Z.div_pos; lia|].
        apply Z.div_lt_upper_bound; [lia|].
        rewrite (Nat2Z.inj_succ (S f)), Z.pow_succ_r in Hn by lia. lia. }
      destruct (IH _ Hq) as (Ha & Hv & Hne & Hz & Hl1 & Hl2 & Hl3).
      assert (Hm : 0 <= n mod 10 < 10) by (apply Z.mod_pos_bound; lia).
      destruct (digit_char_ok _ Hm) as (Hd & Hdv & _).
      assert (Hq1 : 0 < n / 10) by (apply Z.div_str_pos; lia).
      rewrite all_digits_app, Ha, digits_value_app, Hv by done.
      rewrite leading_zero_app, length_append by done. cbn.
      rewrite Hd, Hdv.
      repeat split; try done; try lia.
      * rewrite (Z.div_mod n 10) at 3 by lia. lia.
      * by destruct (digits f (n / 10) "").
      * intros _. by apply Hz.
      * intros ?. rewrite Hl1; [done|]. apply Z.div_lt_upper_bound; lia.
  Qed.

Lemma fuel_enough (n : Z) : 0 <= n -> n < 10 ^ Z.of_nat (S (Z.to_nat (Z.log2 n))).
Proof.
  intros Hn. destruct (Z.eq_dec n 0) as [-> | Hne]; [done|].
  pose proof (Z.log2_spec n ltac:(lia)) as [_ Hlt].
  pose proof (Z.log2_nonneg n) as Hl.
  rewrite Nat2Z.inj_succ, Z2Nat.id by done.
  eapply Z.lt_le_trans; [exact Hlt|].
  apply Z.pow_le_mono_l. lia.
Qed.

Lemma toString_spec (n : Z) :
  0 <= n ->
  let s := toString n in
  all_digits s = true /\ digits_value s 0 = n /\ s <> "" /\
  (0 < n -> leading_zero s = false) /\
  (n < 10 -> String.length s = 1%nat) /\
  (10 <= n -> (2 <= String.length s)%nat) /\
  (10 <= n < 100 -> String.length s = 2%nat).
Proof.
  intros Hn. unfold toString.
  destruct (Z.ltb_spec n 0); [lia|].
  apply digits_spec. split; [done|]. by apply fuel_enough.
Qed.
End Decimal.

Section FormatBreakTime.
Import JS.
Local Open Scope Z_scope.

Lemma padStart2_spec (n : Z) :
  0 <= n ->
  let s := padStart (toString n) 2 "0" in
  all_digits s = true /\ digits_value s 0 = n /\
  (2 <= String.length s)%nat /\
  (n < 100 -> String.length s = 2%nat) /\
  ((2 < String.length s)%nat -> leading_zero s = false).
Proof.
  intros Hn.
  destruct (toString_spec n Hn) as (Ha & Hv & Hne & Hz & Hl1 & Hl2 & Hl3).
  cbv zeta. unfold padStart.
  destruct (Z.lt_ge_cases n 10) as [Hlt | Hge].
  - rewrite (Hl1 Hlt). cbn [Nat.leb Nat.sub fill].
    rewrite append_cons, append_nil_l. cbn [all_digits digits_value String.length].
    change (is_digit "0") with true. cbn [andb]. rewrite (Hl1 Hlt).
    change (10 * 0 + digit_of "0") with 0.
    repeat split; try done; lia.
  - specialize (Hl2 Hge).
    destruct (Nat.leb_spec 2 (String.length (toString n))) as [_ | ?]; [|lia].
    repeat split; try done.
    + intros ?. apply Hl3. lia.
    + intros _. apply Hz. lia.
Qed.


End FormatBreakTime.



(** ** Reasoning about computations: outcomes and postconditions *)

Section Rules.
Context {A B : Type}.
Implicit Types (w : world) (post : res B -> world -> Prop).

Lemma ends_eq (m : M A) w (r : res A) (w' : world) :
  m w = (r, w') -> ends m w (fun r0 w0 => r0 = r /\ w0 = w').
Proof. unfold ends. intros ->. done. Qed.

Lemma ends_weaken (m : M A) w (P Q : res A -> world -> Prop) :
  ends m w P -> (forall r w', P r w' -> Q r w') -> ends m w Q.
Proof. unfold ends. auto. Qed.

Lemma ends_ret (a : B) w post : post (Ok a) w -> ends (ret a) w post.
Proof. done. Qed.

Lemma ends_throw (e : string) w post : post (Throw e) w -> ends (throw e) w post.
Proof. done. Qed.

Lemma ends_bind (m : M A) (k : A -> M B) w post :
  ends m w (fun r w' => match r with
                        | Ok a => ends (k a) w' post
                        | Throw e => post (Throw e) w'
                        end) ->
  ends (bind m k) w post.
Proof. unfold ends, bind. by destruct (m w) as [[a|e] w']. Qed.

Lemma ends_try_catch (m : M B) (h : string -> M B) w post :
  ends m w (fun r w' => match r with
                        | Ok a => post (Ok a) w'
                        | Throw e => ends (h e) w' post
                        end) ->
  ends (try_catch m h) w post.
Proof. unfold ends, try_catch. by destruct (m w) as [[a|e] w']. Qed.

Lemma ends_attempt (m : M A) w (post : res (res A) -> world -> Prop) :
  ends m w (fun r w' => post (Ok r) w') -> ends (attempt m) w post.
Proof. unfold ends, attempt. by destruct (m w). Qed.
End Rules.

Lemma ends_log (l : level) (msg : string) w (post : res unit -> world -> Prop) :
  post (Ok tt) (add_log (LogEntry l msg None) w) -> ends (log l msg) w post.
Proof. done. Qed.

Lemma ends_log_with (l : level) (msg e : string) w (post : res unit -> world -> Prop) :
  post (Ok tt) (add_log (LogEntry l msg (Some e)) w) -> ends (log_with l msg e) w post.
Proof. done. Qed.

Lemma ends_console (s : string) w (post : res unit -> world -> Prop) :
  post (Ok tt) (add_console s w) -> ends (console s) w post.
Proof. done. Qed.

Lemma ends_url w (post : res string -> world -> Prop) :
  post (Ok (p_url (w_page w))) w -> ends url w post.
Proof. done. Qed.

Section CallRules.
Context (B : browser) {A : Type}.

(** Whatever the environment answers. *)
Lemma ends_call_any (a : action) (read : page -> res A) w
      (post : res A -> world -> Prop) :
  (forall p' r, post r (after a p' w)) -> ends (call B a read) w post.
Proof.
  intros H. unfold ends, call.
  destruct (env_step B (w_trace w) a (effect a (w_page w))) as [p' [e|]]; apply H.
Qed.

(** The environment may throw; if it does not, the page is read. *)
Lemma ends_call (a : action) (read : page -> res A) w
      (post : res A -> world -> Prop) :
  (forall p' e, post (Throw e) (after a p' w)) ->
  (forall p', post (read p') (after a p' w)) ->
  ends (call B a read) w post.
Proof.
  intros Ht Ho. unfold ends, call.
  destruct (env_step B (w_trace w) a (effect a (w_page w))) as [p' [e|]];
    [apply Ht | apply Ho].
Qed.
End CallRules.

(** Loops: [inv rest s w] holds when [rest] is still to be visited with the
    loop variables at [s]. *)
Lemma ends_for_of {A S} (body : A -> S -> M (flow S))
      (inv : list A -> S -> world -> Prop)
      (post : res (S * option string) -> world -> Prop) :
  (forall x rest s w,
     inv (x :: rest) s w ->
     ends (body x s) w (fun r w' => match r with
                                    | Ok (Next s') => inv rest s' w'
                                    | Ok (Break s') => post (Ok (s', None)) w'
                                    | Ok (Raise e s') => post (Ok (s', Some e)) w'
                                    | Throw e => post (Throw e) w'
                                    end)) ->
  (forall s w, inv [] s w -> post (Ok (s, None)) w) ->
  forall xs s w, inv xs s w -> ends (for_of xs body s) w post.
Proof.
  intros Hbody Hnil xs. induction xs as [|x xs IH]; intros s w Hinv.
  - cbn. apply ends_ret. by apply Hnil.
  - cbn [for_of]. apply ends_bind.
    eapply ends_weaken; [by apply Hbody|].
    intros [[s'|s'|e s']|e] w' H; cbn; [by apply IH | by apply ends_ret.. | done].
Qed.

Lemma ends_for_each {A S} (body : A -> S -> M (flow S))
      (inv : list A -> S -> world -> Prop)
      (post : res S -> world -> Prop) :
  (forall x rest s w,
     inv (x :: rest) s w ->
     ends (body x s) w (fun r w' => match r with
                                    | Ok (Next s') => inv rest s' w'
                                    | Ok (Break s') => post (Ok s') w'
                                    | Ok (Raise e s') => post (Ok s') w'
                                    | Throw e => post (Throw e) w'
                                    end)) ->
  (forall s w, inv [] s w -> post (Ok s) w) ->
  forall xs s w, inv xs s w -> ends (for_each xs body s) w post.
Proof.
  intros Hbody Hnil xs s w Hinv. unfold for_each. apply ends_bind.
  eapply (ends_for_of body inv); [| |exact Hinv].
  - intros x rest s0 w0 H0. eapply ends_weaken; [by apply Hbody|].
    intros [[s'|s'|e s']|e] w' H; cbn; try done; by apply ends_ret.
  - intros s0 w0 H0. apply ends_ret. by apply Hnil.
Qed.

Lemma ends_case {A} (m : M A) w (post : res A -> world -> Prop) :
  (forall r w', m w = (r, w') -> post r w') -> ends m w post.
Proof. intros H. unfold ends. apply H. apply surjective_pairing. Qed.

Lemma ends_run {A} (m : M A) w (post : res A -> world -> Prop) :
  ends m w post -> forall r w', m w = (r, w') -> post r w'.
Proof. unfold ends. intros H r w' Heq. by rewrite Heq in H. Qed.

(** Applies the rule of the construct at the head of an [ends] goal, down
    to the Playwright calls and the loops. *)
Ltac wp :=
  repeat lazymatch goal with
    | |- ends (bind _ _) _ _ => apply ends_bind
    | |- ends (try_catch _ _) _ _ => apply ends_try_catch
    | |- ends (attempt _) _ _ => apply ends_attempt
    | |- ends (ret _) _ _ => apply ends_ret
    | |- ends (throw _) _ _ => apply ends_throw
    | |- ends (log _ _) _ _ => apply ends_log
    | |- ends (log_with _ _ _) _ _ => apply ends_log_with
    | |- ends (console _) _ _ => apply ends_console
    | |- ends url _ _ => apply ends_url
    | |- ends (let _ := _ in _) _ _ => cbv zeta
    end.

(** ** Browsers that do not interfere *)

Lemma inert_never_throws B : inert B -> never_throws B.
Proof. intros H tr a p. by rewrite H. Qed.

Lemma ends_call_inert B {A} (a : action) (read : page -> res A) w
      (post : res A -> world -> Prop) :
  inert B ->
  post (read (effect a (w_page w))) (after a (effect a (w_page w)) w) ->
  ends (call B a read) w post.
Proof. intros Hi H. unfold ends, call. by rewrite Hi. Qed.

Lemma ends_call_ok B {A} (a : action) (read : page -> res A) w
      (post : res A -> world -> Prop) :
  never_throws B ->
  (forall p', post (read p') (after a p' w)) ->
  ends (call B a read) w post.
Proof.
  intros Hn H. unfold ends, call. specialize (Hn (w_trace w) a (effect a (w_page w))).
  destruct (env_step B (w_trace w) a (effect a (w_page w))) as [p' err].
  cbn in Hn. subst err. apply H.
Qed.

(** Exposes the [call] behind a Playwright operation at the head of an
    [ends] goal; fails on anything else. *)
Ltac call_head :=
  lazymatch goal with
  | |- ends (call _ _ _) _ _ => idtac
  | |- ends (call_ _ _) _ _ => unfold call_ at 1
  | |- ends (goto _ _) _ _ => unfold goto at 1, call_ at 1
  | |- ends (waitForLoadState _ _) _ _ => unfold waitForLoadState at 1, call_ at 1
  | |- ends (waitForTimeout _ _) _ _ => unfold waitForTimeout at 1, call_ at 1
  | |- ends (pageClick _ _) _ _ => unfold pageClick at 1, call_ at 1
  | |- ends (keyboardPress _ _) _ _ => unfold keyboardPress at 1, call_ at 1
  | |- ends (screenshot _ _) _ _ => unfold screenshot at 1, call_ at 1
  | |- ends (click _ _) _ _ => unfold click at 1, call_ at 1
  | |- ends (fill _ _ _) _ _ => unfold fill at 1, call_ at 1
  | |- ends (typeText _ _ _) _ _ => unfold typeText at 1, call_ at 1
  | |- ends (press _ _ _) _ _ => unfold press at 1, call_ at 1
  | |- ends (title _) _ _ => unfold title at 1
  | |- ends (query _ _) _ _ => unfold query at 1
  | |- ends (queryAll _ _) _ _ => unfold queryAll at 1
  | |- ends (waitForSelector _ _ _) _ _ => unfold waitForSelector at 1
  | |- ends (isVisible _ _) _ _ => unfold isVisible at 1
  | |- ends (textContent _ _) _ _ => unfold textContent at 1
  | |- ends (evaluate _ _ _ _) _ _ => unfold evaluate at 1
  | |- ends (jsonValue _ _) _ _ => unfold jsonValue at 1
  end.

Ltac simpl_world :=
  cbn [effect w_page w_trace w_log w_console w_browser w_context w_hasPage
       after add_trace set_page add_log add_console set_session
       p_url p_title p_dom p_values].

Lemma ends_fields w (post : res (bool * bool * bool) -> world -> Prop) :
  post (Ok (w_browser w, w_context w, w_hasPage w)) w -> ends fields w post.
Proof. done. Qed.

(** ** Page invariants *)

Lemma ends_call_inv B (Inv : page -> Prop) {A} (a : action) (read : page -> res A) w
      (post : res A -> world -> Prop) :
  never_throws B -> stable B Inv -> Inv (w_page w) ->
  (forall p', Inv p' -> post (read p') (after a p' w)) ->
  ends (call B a read) w post.
Proof.
  intros Hn Hs Hi H. unfold ends, call.
  specialize (Hn (w_trace w) a (effect a (w_page w))).
  specialize (Hs (w_trace w) a (w_page w) Hi).
  destruct (env_step B (w_trace w) a (effect a (w_page w))) as [p' err].
  cbn in Hn, Hs. subst err. by apply H.
Qed.

Lemma inert_stable_dom B (d : Dom.node) : inert B -> stable B (fun p => p_dom p = d).
Proof. intros Hi tr a p Hp. rewrite Hi. cbn. by destruct a. Qed.


(** ** Frame properties

    A relation [R w0 w] between the world at some earlier point and the
    current one that logging preserves and that the calls in [allowed]
    preserve is preserved by every computation built from them. *)

Section Frame.
Context (R : world -> world -> Prop).
Hypothesis R_log : forall w0 w e, R w0 w -> R w0 (add_log e w).

Lemma obeys_ret {A} (a : A) : obeys R (ret a).
Proof. by intros w0 w H. Qed.

Lemma obeys_throw {A} (e : string) : obeys R (@throw A e).
Proof. by intros w0 w H. Qed.

Lemma obeys_bind {A B} (m : M A) (k : A -> M B) :
  obeys R m -> (forall a, obeys R (k a)) -> obeys R (bind m k).
Proof.
  intros Hm Hk w0 w H. specialize (Hm w0 w H). unfold bind.
  destruct (m w) as [[a|e] w']; [by apply Hk | done].
Qed.

Lemma obeys_try_catch {A} (m : M A) (h : string -> M A) :
  obeys R m -> (forall e, obeys R (h e)) -> obeys R (try_catch m h).
Proof.
  intros Hm Hh w0 w H. specialize (Hm w0 w H). unfold try_catch.
  destruct (m w) as [[a|e] w']; [done | by apply Hh].
Qed.

Lemma obeys_attempt {A} (m : M A) : obeys R m -> obeys R (attempt m).
Proof. intros Hm w0 w H. specialize (Hm w0 w H). unfold attempt. by destruct (m w). Qed.

Lemma obeys_log (l : level) (msg : string) : obeys R (log l msg).
Proof. intros w0 w H. by apply R_log. Qed.

Lemma obeys_log_with (l : level) (msg e : string) : obeys R (log_with l msg e).
Proof. intros w0 w H. by apply R_log. Qed.

Lemma obeys_url : obeys R url.
Proof. by intros w0 w H. Qed.

Lemma obeys_for_of {A S} (xs : list A) (body : A -> S -> M (flow S)) :
  (forall x s, obeys R (body x s)) -> forall s, obeys R (for_of xs body s).
Proof.
  intros Hbody. induction xs as [|x xs IH]; intros s; cbn [for_of].
  - apply obeys_ret.
  - apply obeys_bind; [apply Hbody|].
    intros [s'|s'|e s']; [apply IH | apply obeys_ret..].
Qed.

Lemma obeys_for_each {A S} (xs : list A) (body : A -> S -> M (flow S)) :
  (forall x s, obeys R (body x s)) -> forall s, obeys R (for_each xs body s).
Proof.
  intros Hbody s. unfold for_each. apply obeys_bind; [by apply obeys_for_of|].
  intros r. apply obeys_ret.
Qed.

Lemma obeys_ends {A} (m : M A) w0 w :
  obeys R m -> R w0 w -> ends m w (fun _ w' => R w0 w').
Proof. intros Hm H. by apply Hm. Qed.
End Frame.

(** Unfolds the composite of an [obeys] goal and leaves one goal for every
    Playwright call in it. *)
Ltac frame :=
  repeat lazymatch goal with
    | |- obeys _ (bind _ _) => apply obeys_bind; [|intros ?]
    | |- obeys _ (try_catch _ _) => apply obeys_try_catch; [|intros ?]
    | |- obeys _ (attempt _) => apply obeys_attempt
    | |- obeys _ (ret _) => apply obeys_ret
    | |- obeys _ (throw _) => apply obeys_throw
    | |- obeys _ (log _ _) => apply obeys_log; assumption
    | |- obeys _ (log_with _ _ _) => apply obeys_log_with; assumption
    | |- obeys _ url => apply obeys_url
    | |- obeys _ (for_each _ _ _) => apply obeys_for_each; intros ? ?
    | |- obeys _ (for_of _ _ _) => apply obeys_for_of; intros ? ?
    | |- obeys _ (match ?x with _ => _ end) => destruct x
    | |- obeys _ (let _ := _ in _) => cbv zeta
    | |- obeys _ (call _ _ _) => idtac
    | |- obeys _ (navigate _ _ _ _) => idtac
    | |- obeys _ fields => idtac
    | |- obeys _ (set_fields _ _ _) => idtac
    | |- obeys _ (console _) => idtac
    | |- obeys _ (call_ _ _) => unfold call_
    | |- obeys _ ?m => let h := head_of m in unfold h
    end
with head_of m :=
  lazymatch m with
  | ?f _ => head_of f
  | ?f => f
  end.

(** ** Nothing to do (C3) *)


Lemma quiet_refl w : quiet w w.
Proof. exists []. by rewrite app_nil_r. Qed.

Lemma quiet_log w0 w e : quiet w0 w -> quiet w0 (add_log e w).
Proof. done. Qed.

Lemma quiet_call B {A} (a : action) (read : page -> res A) :
  passive a -> obeys quiet (call B a read).
Proof.
  intros Ha w0 w (l & Hl & Hp).
  apply (ends_call_any B a read w (fun _ w' => quiet w0 w')).
  intros p' _. exists (l ++ [a])%list. split.
  - cbn. rewrite Hl. by rewrite <- app_assoc.
  - apply Forall_app. split; [done|]. by constructor.
Qed.

Ltac quiet_calls := frame; try (apply quiet_call; exact I); try exact quiet_log.

Section Quiet.
Context (B : browser).

Lemma findTargetRow_quiet : obeys quiet (findTargetRow B).
Proof. pose proof quiet_log. quiet_calls. Qed.
End Quiet.


(** ** No exception reaches the caller (C10) *)


Section NoEscape.
Context (B : browser) (config : Config) (now : Z).

(** A [try] whose handler logs and returns a value does not throw. *)
Lemma caught {A} (m : M A) (msg : string) (a : A) w :
  exists b w', try_catch m (fun e => log_with Error msg e ;; ret a) w = (Ok b, w').
Proof.
  unfold try_catch. destruct (m w) as [[b|e] w']; [by eauto|].
  cbn. by eauto.
Qed.

Lemma handleFactorialTimeEntry_total (entry : WorkEntry) w :
  exists b w', handleFactorialTimeEntry B now entry w = (Ok b, w').
Proof.
  unfold handleFactorialTimeEntry. unfold bind at 1, log at 1. apply caught.
Qed.

Lemma logWorkHours_total (entry : WorkEntry) w :
  exists b w', logWorkHours B now entry w = (Ok b, w').
Proof. apply caught. Qed.

Lemma logAnyMissingHours_total w :
  exists b w', logAnyMissingHours B config now w = (Ok b, w').
Proof. unfold logAnyMissingHours. unfold bind at 1, log at 1. apply caught. Qed.

(** logWorkHours answers true only when the workflow answered true. *)
Lemma logWorkHours_true (entry : WorkEntry) w :
  fst (logWorkHours B now entry w) = Ok true ->
  exists w1, fst (handleFactorialTimeEntry B now entry w1) = Ok true.
Proof.
  change (ends (logWorkHours B now entry) w
            (fun r _ => r = Ok true ->
                        exists w1, fst (handleFactorialTimeEntry B now entry w1) = Ok true)).
  unfold logWorkHours. wp.
  apply ends_case. intros [[]|e] w1 _; [|by wp].
  wp. apply ends_case. intros [[]|e] w2 _; [|by wp].
  wp. apply ends_case. intros [[|]|e] w3 Hrun; cbv beta iota; cbn [negb]; wp; try done.
  intros _.
  match type of Hrun with _ ?w1 = _ => exists w1 end.
  by rewrite Hrun.
Qed.

(** A failed navigation makes logWorkHours answer false. *)
Lemma logWorkHours_navigation_error (entry : WorkEntry) w (e : string) :
  JS.includes (p_url (w_page w)) "attendance" = false ->
  JS.includes (p_url (w_page w)) "time" = false ->
  snd (env_step B (w_trace w) (Goto attendanceUrl) (w_page w)) = Some e ->
  fst (logWorkHours B now entry w) = Ok false.
Proof.
  intros H1 H2 H3.
  unfold logWorkHours, try_catch, bind at 1, log at 1, bind at 1, url.
  cbn [w_page add_log]. rewrite H1, H2. cbn [negb andb].
  unfold bind at 1, bind at 1, log at 1, bind at 1, goto, call_, call.
  cbn [w_page w_trace add_log effect].
  destruct (env_step B (w_trace w) (Goto attendanceUrl) (w_page w)) as [p' err].
  cbn in H3. subst err. reflexivity.
Qed.
End NoEscape.


(** ** The verification (C1) *)


Lemma includes_nonempty (s sub : string) :
  sub <> "" -> JS.includes s sub = true -> JS.truthy_string s = true.
Proof. destruct s, sub; cbn; try done. Qed.

Lemma isMissingHoursText_spec (s : string) :
  isMissingHoursText (Some s) = true <->
  JS.includes s "-" = true /\ JS.includes s "h" = true.
Proof.
  unfold isMissingHoursText. split.
  - intros H. apply andb_prop in H as [H Hh]. apply andb_prop in H as [_ Hm]. done.
  - intros [Hm Hh]. rewrite Hm, Hh, (includes_nonempty s "-"); done.
Qed.

Lemma stillHasMissingHours_spec (p : page) (row : jsval) (v : jsval) :
  stillHasMissingHours p row = Ok v ->
  (truthy v = true <-> rowShowsMarkerSpan p row).
Proof.
  unfold stillHasMissingHours, rowShowsMarkerSpan.
  destruct row as [|b|s|i]; try (intros [= <-]; split; [done | by intros (?&?&?&?&?&?)]).
  destruct (resolve p i) as [[n up]|e] eqn:Hres; [|done].
  intros [= <-]. cbn [truthy]. rewrite existsb_exists. split.
  - intros (span & Hin & Htext). unfold Dom.byTag in Hin.
    apply list_elem_of_In, list_elem_of_filter in Hin as [Htag Hin].
    apply String.eqb_eq in Htag. apply isMissingHoursText_spec in Htext as [Hm Hh].
    by exists i, n, up, span.
  - intros (i' & n' & up' & span & [= <-] & Hres' & Hin & Htag & Hm & Hh).
    rewrite Hres in Hres'. injection Hres' as <- <-.
    exists span. split; [|by apply isMissingHoursText_spec].
    unfold Dom.byTag. apply list_elem_of_In, list_elem_of_filter. split; [|done].
    unfold Dom.has_tag. by rewrite Htag.
Qed.

Lemma stillHasMissingHours_throw (p : page) (row : jsval) (e : string) :
  stillHasMissingHours p row = Throw e -> ~ rowShowsMarkerSpan p row.
Proof.
  unfold stillHasMissingHours. intros H (i & n & up & span & -> & Hres & _).
  by rewrite Hres in H.
Qed.

(** C1, amended: after a submission that fillFactorialPopup reported as
    done, the verification always ends with a boolean.  It answers false
    only when, on reading the located row again, some span inside the row
    has a text with a minus sign and the letter h; with a browser that
    raises no error it answers false whenever there is such a span, and
    true otherwise, also when the row cannot be read again. *)
Theorem verification_criterion (B : browser) (row : jsval) (w : world) :
  let r := verifySubmission B row true w in
  (exists b, fst r = Ok b) /\
  (fst r = Ok false -> rowShowsMarkerSpan (w_page (snd r)) row) /\
  (never_throws B -> rowShowsMarkerSpan (w_page (snd r)) row -> fst r = Ok false).
Proof.
  cbv zeta.
  change (ends (verifySubmission B row true) w
            (fun r w' => (exists b, r = Ok b) /\
                         (r = Ok false -> rowShowsMarkerSpan (w_page w') row) /\
                         (never_throws B -> rowShowsMarkerSpan (w_page w') row -> r = Ok false))).
  unfold verifySubmission. wp.
  unfold waitForTimeout, call_. apply ends_case. intros r1 w1 H1.
  assert (Hw1 : never_throws B -> r1 = Ok tt).
  { intros Hn. unfold call in H1. specialize (Hn (w_trace (add_log
      (LogEntry Info "Verifying successful submission by checking if missing hours indicator has disappeared..." None) w))
      (WaitForTimeout 2000)). revert H1.
    match goal with |- context [env_step B ?t ?a ?p] =>
      specialize (Hn p); destruct (env_step B t a p) as [p' [e|]] end; [done|].
    by intros [= <- _]. }
  destruct r1 as [[]|e1].
  2:{ wp. split; [by eauto|]. split; [done|]. intros Hn. by specialize (Hw1 Hn). }
  wp. unfold evaluate, call. unfold ends.
  pose proof (fun Hn : never_throws B => Hn (w_trace w1) (Evaluate row "stillHasMissingHours")
                                            (effect (Evaluate row "stillHasMissingHours") (w_page w1)))
    as Hn2.
  destruct (env_step B (w_trace w1) (Evaluate row "stillHasMissingHours")
              (effect (Evaluate row "stillHasMissingHours") (w_page w1))) as [p2 [e2|]].
  { cbn. split; [by eauto|]. split; [done|]. intros Hn. by specialize (Hn2 Hn). }
  cbn [fst snd]. destruct (stillHasMissingHours p2 row) as [v|e3] eqn:Hcb.
  - pose proof (stillHasMissingHours_spec p2 row v Hcb) as Hspec.
    destruct (truthy v); cbn.
    + split; [by eauto|]. split; [intros _; by apply Hspec | done].
    + split; [by eauto|]. split; [done|]. intros _ Hrow. apply Hspec in Hrow. done.
  - cbn. split; [by eauto|]. split; [done|].
    intros _ Hrow. by apply stillHasMissingHours_throw in Hcb.
Qed.

(** ** The row locator (C2) *)


Lemma byAttr_is_Some (name value : string) (n : Dom.node) :
  is_Some (Dom.byAttr name value n) <->
  exists t, t ∈ Dom.descendants n /\ Dom.getAttribute name t = Some value.
Proof.
  unfold Dom.byAttr. split.
  - intros [t Ht]. apply head_Some_elem_of, list_elem_of_filter in Ht as [Hattr Hin].
    exists t. split; [done|]. unfold Dom.has_attr in Hattr.
    destruct (Dom.getAttribute name t) as [v|]; [|done].
    apply String.eqb_eq in Hattr. by subst.
  - intros (t & Hin & Hattr).
    destruct (filter _ (Dom.descendants n)) as [|x l] eqn:Hf; [|by eexists].
    exfalso. eapply (filter_nil_not_elem_of _ _ t Hf); [|done].
    unfold Dom.has_attr. rewrite Hattr. by rewrite String.eqb_refl.
Qed.

Lemma of_node_elem (o : option Dom.node) (r : nat) :
  of_node o = JElem r <-> exists tr, o = Some tr /\ Dom.node_id tr = Some r.
Proof.
  split.
  - destruct o as [[s|i t a k]|]; cbn; try done. intros [= ->]. by eexists.
  - intros ([s|i t a k] & -> & Hid); cbn in *; [done|]. by injection Hid as ->.
Qed.

Lemma verdict_marks (p : page) (el r : nat) : verdict p el = Some r <-> marks p el r.
Proof.
  unfold verdict, marks. split.
  - destruct (resolve p el) as [[n up]|e] eqn:Hel; [|done].
    destruct (isMissingHoursText _) eqn:Htext; [|done].
    apply isMissingHoursText_spec in Htext as [Hm Hh].
    destruct (of_node _) as [| | |r0] eqn:Hrow; try done.
    apply of_node_elem in Hrow as (tr & Hfind & Hid).
    destruct (resolve p r0) as [[row rowup]|e] eqn:Hr; [|done].
    case_bool_decide as Htoggle; [|done]. intros [= <-].
    apply byAttr_is_Some in Htoggle as (toggle & Hin & Hattr).
    by exists n, up, tr, row, rowup, toggle.
  - intros (n & up & tr & row & rowup & toggle & -> & Hm & Hh & Hfind & Hid & Hr & Hin & Hattr).
    rewrite (proj2 (isMissingHoursText_spec _) (conj Hm Hh)).
    rewrite (proj2 (of_node_elem _ r)) by eauto. rewrite Hr.
    rewrite bool_decide_eq_true_2; [done|]. apply byAttr_is_Some. eauto.
Qed.

Lemma verdict_none (p : page) (el : nat) :
  verdict p el = None <-> forall r, ~ marks p el r.
Proof.
  split.
  - intros H r Hm. apply verdict_marks in Hm. congruence.
  - intros H. destruct (verdict p el) as [r|] eqn:Hv; [|done].
    apply verdict_marks in Hv. by apply H in Hv.
Qed.

Lemma first_kept_cons (p : page) (el : nat) (els : list nat) :
  first_kept p (el :: els) =
  match verdict p el with Some r => Some r | None => first_kept p els end.
Proof. unfold first_kept. cbn. by destruct (verdict p el). Qed.

Lemma first_kept_app (p : page) (l1 l2 : list nat) :
  first_kept p (l1 ++ l2) =
  match first_kept p l1 with Some r => Some r | None => first_kept p l2 end.
Proof.
  induction l1 as [|x l1 IH]; [done|].
  rewrite <- app_comm_cons, !first_kept_cons. by destruct (verdict p x).
Qed.

Lemma first_kept_Some (p : page) (els : list nat) (r : nat) :
  first_kept p els = Some r ->
  exists pre el post,
    els = (pre ++ el :: post)%list /\ verdict p el = Some r /\
    forall x, x ∈ pre -> verdict p x = None.
Proof.
  induction els as [|x els IH]; [done|]. rewrite first_kept_cons.
  destruct (verdict p x) as [r0|] eqn:Hx.
  - intros [= ->]. exists [], x, els. split; [done|]. split; [done|].
    intros y Hy. by apply elem_of_nil in Hy.
  - intros H. destruct (IH H) as (pre & el & post & -> & Hel & Hpre).
    exists (x :: pre), el, post. split; [done|]. split; [done|].
    intros y Hy. apply elem_of_cons in Hy as [->|Hy]; [done | by apply Hpre].
Qed.

Lemma first_kept_None (p : page) (els : list nat) :
  first_kept p els = None -> forall x, x ∈ els -> verdict p x = None.
Proof.
  induction els as [|y els IH]; intros H x Hx; [by apply elem_of_nil in Hx|].
  rewrite first_kept_cons in H. destruct (verdict p y) eqn:Hy; [done|].
  apply elem_of_cons in Hx as [->|Hx]; [done | by apply IH].
Qed.

Section Locator.
Context (B : browser) (Hinert : inert B).

(** Calls that leave the page as it is. *)
Ltac call_inert :=
  call_head; apply (ends_call_inert B); [exact Hinert|]; simpl_world.

(** The block that looks for a date in the row: any outcome, same page. *)
Lemma date_block (row : jsval) (foundDate : string) w :
  ends (try_catch
          (dateCell <- evaluate B row "dateCellText" dateCellText ;;
           dateText <- jsonValue B dateCell ;;
           ret (match dateText with
                | JString t => if JS.truthy_string t then t else foundDate
                | _ => foundDate
                end))
          (fun _ => log Debug "Could not determine date for row" ;; ret foundDate)) w
       (fun r w' => exists fd, r = Ok fd /\ w_page w' = w_page w).
Proof.
  wp. call_inert. destruct (dateCellText (w_page w) row) as [v|e]; wp; [|by eauto].
  call_inert. wp. by eauto.
Qed.

Lemma inspectSpan_inert (sel : string) (el : nat) (fd : string) w :
  (exists n up, resolve (w_page w) el = Ok (n, up)) ->
  exists fd' w',
    inspectSpan B sel el (None, fd) w
    = (Ok (match verdict (w_page w) el with
           | Some r => Break (Some (JElem r), fd')
           | None => Next (None, fd')
           end), w') /\ w_page w' = w_page w.
Proof.
  intros (n & up & Hel).
  enough (ends (inspectSpan B sel el (None, fd)) w
            (fun r w' => exists fd',
                 r = Ok (match verdict (w_page w) el with
                         | Some r => Break (Some (JElem r), fd')
                         | None => Next (None, fd')
                         end) /\ w_page w' = w_page w)) as H.
  { unfold ends in H. destruct H as (fd' & Hr & Hp). exists fd'. eexists.
    split; [|exact Hp]. rewrite <- Hr. apply surjective_pairing. }
  unfold inspectSpan, verdict. cbv zeta. wp. call_inert. rewrite Hel. wp.
  destruct (isMissingHoursText (Some (Dom.textContent n))); wp; [|by eauto].
  call_inert. unfold closestRow. rewrite Hel.
  set (row := of_node (find (Dom.has_tag "TR") up)).
  match goal with
  | |- context [bind (try_catch ?m ?h) _] => set (dates := try_catch m h)
  end.
  wp. eapply ends_weaken; [apply date_block|].
  intros r1 w1 (fd1 & -> & Hp1). cbn [w_page add_log after add_trace set_page] in Hp1.
  wp. call_inert. rewrite Hp1. unfold hasToggleButton.
  destruct row as [| b | s | r] eqn:Hrow; cbn [truthy JS.truthy_string].
  - wp. cbn [truthy negb]. wp. by eauto.
  - destruct b; wp; cbn [truthy negb]; wp; by eauto.
  - destruct s; wp; cbn [truthy negb JS.truthy_string]; wp; by eauto.
  - destruct (resolve (w_page w) r) as [[rown rowup]|e]; wp; [|by eauto].
    cbn [truthy]. case_bool_decide; cbn [negb]; wp; [|by eauto].
    call_inert. wp. cbn [truthy JS.truthy_string negb]. wp. by eauto.
Qed.

(** The loop over the elements one selector yields. *)
Lemma spans_inert (sel : string) (spans : list nat) : forall (fd : string) w,
  (forall el, el ∈ spans -> resolvable (w_page w) el) ->
  exists fd' w',
    for_of spans (inspectSpan B sel) (None, fd) w
    = (Ok ((JElem <$> first_kept (w_page w) spans, fd'), None), w') /\
    w_page w' = w_page w.
Proof.
  induction spans as [|el spans IH]; intros fd w Hres.
  - exists fd, w. done.
  - destruct (inspectSpan_inert sel el fd w) as (fd1 & w1 & Hrun & Hp1).
    { apply Hres. by left. }
    cbn [for_of]. unfold bind. rewrite Hrun, first_kept_cons.
    destruct (verdict (w_page w) el) as [r|].
    + exists fd1, w1. done.
    + destruct (IH fd1 w1) as (fd2 & w2 & Hrest & Hp2).
      { intros x Hx. rewrite Hp1. apply Hres. by right. }
      exists fd2, w2. rewrite Hrest, Hp1. split; [done|]. congruence.
Qed.

Lemma trySelector_inert (sel : string) (fd : string) w :
  (forall el, el ∈ env_select B sel (w_page w) -> resolvable (w_page w) el) ->
  exists fd' w',
    trySelector B sel (None, fd) w
    = (Ok (match first_kept (w_page w) (env_select B sel (w_page w)) with
           | Some r => Break (Some (JElem r), fd')
           | None => Next (None, fd')
           end), w') /\ w_page w' = w_page w.
Proof.
  intros Hres. unfold trySelector, bind at 1, attempt, queryAll, call.
  rewrite Hinert. cbn [effect w_page].
  match goal with |- context [bind (for_of _ _ _) _ ?w1] =>
    destruct (spans_inert sel (env_select B sel (w_page w)) fd w1)
      as (fd1 & w2 & Hrun & Hp)
  end; [done|].
  cbn [w_page add_trace set_page] in Hrun, Hp.
  unfold bind. rewrite Hrun. cbn [fst snd].
  exists fd1, w2. split; [|done].
  by destruct (first_kept _ _).
Qed.

Lemma selectors_inert (sels : list string) : forall (fd : string) w,
  (forall sel el, sel ∈ sels -> el ∈ env_select B sel (w_page w) ->
                  resolvable (w_page w) el) ->
  exists fd' w',
    for_of sels (trySelector B) (None, fd) w
    = (Ok ((JElem <$> first_kept (w_page w)
                        (concat (map (fun sel => env_select B sel (w_page w)) sels)),
            fd'), None), w') /\ w_page w' = w_page w.
Proof.
  induction sels as [|sel sels IH]; intros fd w Hres.
  - exists fd, w. done.
  - destruct (trySelector_inert sel fd w) as (fd1 & w1 & Hrun & Hp1).
    { intros el Hel. apply (Hres sel); [by left | done]. }
    cbn [for_of map concat]. unfold bind. rewrite Hrun, first_kept_app.
    destruct (first_kept (w_page w) (env_select B sel (w_page w))) as [r|].
    + exists fd1, w1. done.
    + destruct (IH fd1 w1) as (fd2 & w2 & Hrest & Hp2).
      { intros s0 x Hs Hx. rewrite Hp1 in Hx |- *. apply (Hres s0); [by right | done]. }
      exists fd2, w2. rewrite Hp1 in Hrest. rewrite Hrest. split; [done|]. congruence.
Qed.

Lemma findTargetRow_inert w :
  (forall sel el, sel ∈ missingHoursSelectors -> el ∈ env_select B sel (w_page w) ->
                  resolvable (w_page w) el) ->
  exists fd w',
    findTargetRow B w = (Ok (JElem <$> first_kept (w_page w) (candidates B (w_page w)), fd), w')
    /\ w_page w' = w_page w.
Proof.
  intros Hres. unfold findTargetRow, bind at 1, log at 1, bind at 1, waitForTimeout, call_, call.
  rewrite Hinert. cbn [effect w_page add_log]. unfold bind at 1, log at 1.
  match goal with |- context [for_each _ _ _ ?w1] =>
    destruct (selectors_inert missingHoursSelectors "unknown" w1) as (fd & w2 & Hrun & Hp)
  end; [done|].
  exists fd, w2. unfold for_each, bind. rewrite Hrun. done.
Qed.
End Locator.


(** ** The two time inputs (C4) *)


Section Inert.
Context (B : browser) (Hinert : inert B).

Lemma same_dom_log w0 w e : same_dom w0 w -> same_dom w0 (add_log e w).
Proof. done. Qed.

Lemma same_values_log w0 w e : same_values w0 w -> same_values w0 (add_log e w).
Proof. done. Qed.

Lemma effect_dom (a : action) (p : page) : p_dom (effect a p) = p_dom p.
Proof. by destruct a. Qed.

Lemma same_dom_call {A} (a : action) (read : page -> res A) :
  obeys same_dom (call B a read).
Proof.
  intros w0 w H. unfold call. rewrite Hinert. unfold same_dom in *.
  cbv beta iota. destruct (read (effect a (w_page w))); cbn; by rewrite effect_dom.
Qed.

Lemma same_values_call {A} (a : action) (read : page -> res A) :
  reads_only a -> obeys same_values (call B a read).
Proof.
  intros Ha w0 w [Hv Hd]. unfold call. rewrite Hinert. unfold same_values, same_dom in *.
  cbv beta iota. destruct (read (effect a (w_page w))); destruct a; done.
Qed.
End Inert.

Ltac same_dom_calls := 
  pose proof same_dom_log; frame; try (by apply same_dom_call).

Ltac same_values_calls :=
  pose proof same_values_log; frame; try (apply same_values_call; [assumption | exact I]).

Section Fill.
Context (B : browser) (Hinert : inert B) (entry : WorkEntry).

Ltac call_inert :=
  call_head; apply (ends_call_inert B); [exact Hinert|]; simpl_world.

(** The work type cascade ends normally and leaves the document alone. *)
Lemma workType_inert w :
  ends (for_each workTypeSelectors
          (fun selector (_ : unit) =>
             try_catch
               (element <- query B selector ;;
                match element with
                | Some el =>
                    visible <- isVisible B el ;;
                    if visible then
                      log Info ("Trying to set work type with selector: " +:+ selector) ;;
                      click B el ;;
                      waitForTimeout B 500 ;;
                      fill B el "" ;;
                      typeText B el "Trabajo" ;;
                      waitForTimeout B 500 ;;
                      keyboardPress B "Tab" ;;
                      ret (Break tt)
                    else ret (Next tt)
                | None => ret (Next tt)
                end)
               (fun e =>
                  log_with Debug ("Work type selector " +:+ selector +:+ " failed:") e ;;
                  ret (Next tt)))
          tt) w
       (fun r w' => r = Ok tt /\ same_dom w w').
Proof.
  apply (ends_for_each _ (fun _ _ w' => same_dom w w')); [| by intros [] | done].
  intros sel rest [] w1 Hd. wp. call_inert.
  destruct (head (env_select B sel (w_page w1))) as [el|]; wp; [|done].
  call_inert. destruct (env_visible B el (w_page w1)); wp; [|done].
  repeat (call_inert; wp). done.
Qed.

Lemma rest_keeps_values :
  obeys same_values
    (log Info ("Looking for " +:+ JS.q "Aplicar" +:+ " button...") ;;
     applyButton <- findApplyButton B ;;
     match applyButton with
     | None => throw ("Could not find " +:+ JS.q "Aplicar" +:+ " button to submit the form")
     | Some b =>
         log Info ("Clicking " +:+ JS.q "Aplicar" +:+ " button to submit...") ;;
         click B b ;;
         waitForTimeout B 3000 ;;
         log Info "Checking for successful submission..." ;;
         currentUrl <- url ;;
         successIndicators <- queryAll B successSelector ;;
         if (0 <? length successIndicators)%nat then
           log Info "Found success indicators - form submission appears successful" ;;
           ret true
         else
           log Info "Form submitted without errors - will verify success in parent function" ;;
           ret true
     end).
Proof. same_values_calls. Qed.

Context (t0 t1 : nat) (w : world).
Hypothesis first_input : forall p,
  p_dom p = p_dom (w_page w) -> env_select B timeInputSelector p !! 0%nat = Some t0.
Hypothesis second_input : forall p,
  p_dom p = p_dom (w_page w) -> env_select B timeInputSelector p !! 1%nat = Some t1.
Hypothesis distinct : t0 <> t1.

Lemma fillTimes_inert w1 :
  same_dom w w1 ->
  ends (fillTimes B entry) w1 (fun r w' => r = Ok tt /\ filled entry t0 t1 w').
Proof.
  intros Hd. unfold fillTimes. wp. call_inert. wp. call_inert. wp.
  rewrite (first_input _ Hd), (second_input _ Hd). wp.
  repeat (call_inert; wp).
  split; [done|]. unfold filled. simpl_world.
  split; [|by apply lookup_insert_eq].
  rewrite lookup_insert_ne by done. by apply lookup_insert_eq.
Qed.

Lemma fillFactorialPopup_inert :
  ends (fillFactorialPopup B entry) w (fun _ w' => filled entry t0 t1 w').
Proof.
  unfold fillFactorialPopup. wp.
  eapply ends_weaken; [apply workType_inert|].
  intros r w1 [-> Hd]. wp.
  eapply ends_weaken; [apply fillTimes_inert|]; [done|].
  intros r w2 [-> Hf].
  eapply ends_weaken; [apply (obeys_ends same_values _ w2 w2 rest_keeps_values)|]; [done|].
  intros r w3 [Hv _]. unfold filled in *. destruct r as [b|e]; wp; cbn [w_page add_log].
  all: by rewrite Hv.
Qed.
End Fill.

(** C4: when the editor shows at least two time inputs, the first being
    [t0] and the second [t1], then after fillFactorialPopup the value read
    back from [t0] is the start time of the entry and the value read back
    from [t1] is its end time. *)
Theorem time_inputs_are_filled (B : browser) (entry : WorkEntry) (t0 t1 : nat) (w : world) :
  inert B ->
  (forall p, p_dom p = p_dom (w_page w) -> env_select B timeInputSelector p !! 0%nat = Some t0) ->
  (forall p, p_dom p = p_dom (w_page w) -> env_select B timeInputSelector p !! 1%nat = Some t1) ->
  t0 <> t1 ->
  let w' := snd (fillFactorialPopup B entry w) in
  p_values (w_page w') !! t0 = Some (startTime entry) /\
  p_values (w_page w') !! t1 = Some (endTime entry).
Proof.
  intros Hinert H0 H1 Hne. exact (fillFactorialPopup_inert B Hinert entry t0 t1 w H0 H1 Hne).
Qed.


(** ** Lookups that find nothing *)

Lemma ends_exists {A} (m : M A) w (r : res A) (Q : world -> Prop) :
  ends m w (fun r' w' => r' = r /\ Q w') -> exists w', m w = (r, w') /\ Q w'.
Proof.
  unfold ends. intros [Hr HQ]. exists (snd (m w)). split; [|done].
  rewrite <- Hr. apply surjective_pairing.
Qed.

Lemma absent_cons B Inv sel sels :
  absent B Inv (sel :: sels) ->
  (forall p, Inv p -> env_select B sel p = []) /\ absent B Inv sels.
Proof.
  intros H. split.
  - intros p. apply H. by left.
  - intros s p Hs. apply H. by right.
Qed.

Section Lookups.
Context (B : browser) (Inv : page -> Prop).
Context (Hok : never_throws B) (Hstable : stable B Inv).


Ltac call_ok :=
  call_head; apply (ends_call_inv B Inv);
  [exact Hok | exact Hstable | simpl_world; assumption | intros ? ?; simpl_world].

(** Whatever a computation does, the page stays in [Inv]. *)
Lemma inv_log (w : world) e : on_page Inv w -> on_page Inv (add_log e w).
Proof. done. Qed.

Lemma inv_call {A} (a : action) (read : page -> res A) :
  obeys (fun _ w : world => on_page Inv w) (call B a read).
Proof.
  intros w0 w Hi. unfold call. pose proof (Hstable (w_trace w) a (w_page w) Hi) as Hs.
  destruct (env_step B (w_trace w) a (effect a (w_page w))) as [p' [e|]]; [done|].
  by destruct (read p').
Qed.

Ltac inv_calls :=
  let H := fresh in
  assert (H : forall w0 w e, (fun _ w : world => on_page Inv w) w0 w -> (fun _ w : world => on_page Inv w) w0 (add_log e w))
    by (intros ? ? ?; apply inv_log);
  frame; try apply inv_call; try (intros ? ?; done).

(** A cascade of waits that never match tries every selector once, in
    order, and yields nothing. *)
Lemma waitForFirst_absent (what : string) (timeout : Z) (sels : list string) w :
  on_page Inv w -> absent B Inv sels ->
  ends (waitForFirst B what sels timeout) w
       (fun r w' =>
          r = Ok None /\ on_page Inv w' /\
          w_trace w' = (w_trace w ++ map (fun sel => WaitForSelector sel timeout) sels)%list).
Proof.
  intros Hw Habs. unfold waitForFirst.
  apply (ends_for_each _
           (fun rest found w' =>
              found = None /\ absent B Inv rest /\ on_page Inv w' /\
              (w_trace w' ++ map (fun sel => WaitForSelector sel timeout) rest)%list
              = (w_trace w ++ map (fun sel => WaitForSelector sel timeout) sels)%list)).
  - intros sel rest found w1 (-> & Hrest & Hw1 & Htr).
    apply absent_cons in Hrest as [Hsel Hrest]. wp. unfold on_page in Hw1. call_ok.
    rewrite Hsel by done. wp.
    split; [done|]. split; [done|]. split; [done|].
    simpl_world. by rewrite <- Htr, <- app_assoc.
  - intros found w1 (-> & _ & Hw1 & Htr). cbn in Htr. rewrite app_nil_r in Htr. done.
  - done.
Qed.

(** *** login *)
Section Login.
Context (config : Config).

Lemma navigate_ok w :
  on_page Inv w ->
  ends (navigate B config (Z.to_nat maxAttempts) 0) w (fun r w' => r = Ok tt /\ on_page Inv w').
Proof.
  intros Hw. unfold on_page in Hw.
  change (Z.to_nat maxAttempts) with 3%nat. cbn [navigate]. wp.
  repeat (call_ok; wp). done.
Qed.

Lemma isLoggedIn_total w : ends (isLoggedIn B) w (fun r _ => exists b, r = Ok b).
Proof.
  unfold isLoggedIn. apply ends_bind, ends_fields. cbn [snd].
  destruct (negb (w_hasPage w)); [wp; by eauto|].
  apply ends_try_catch, ends_case. intros [b|e] w' _; wp; by eauto.
Qed.

Lemma login_without_email_field w :
  on_page Inv w -> w_hasPage w = true ->
  absent B Inv emailSelectors ->
  fst (login B config w) = Ok true \/ fst (login B config w) = Throw email_not_found.
Proof.
  intros Hw Hpage Habs.
  change (ends (login B config) w (fun r _ => r = Ok true \/ r = Throw email_not_found)).
  unfold login. wp. apply ends_fields. cbn [snd]. rewrite Hpage. cbn [negb]. wp.
  eapply ends_weaken; [by apply navigate_ok|]. intros r w1 [-> Hw1]. wp.
  eapply ends_weaken; [by apply waitForFirst_absent|]. intros r w2 (-> & _). wp.
  eapply ends_weaken; [apply isLoggedIn_total|]. intros r w3 [[|] ->]; wp; by eauto.
Qed.

Lemma login_without_password_field w :
  on_page Inv w -> w_hasPage w = true ->
  (forall p, Inv p -> env_select B (default "" (head emailSelectors)) p <> []) ->
  absent B Inv passwordSelectors ->
  fst (login B config w) = Throw password_not_found.
Proof.
  intros Hw Hpage Hemail Habs.
  change (ends (login B config) w
            (fun r _ => r = Throw password_not_found)).
  unfold login. wp. apply ends_fields. cbn [snd]. rewrite Hpage. cbn [negb]. wp.
  eapply ends_weaken; [by apply navigate_ok|]. intros r w1 [-> Hw1]. wp.
  unfold waitForFirst at 1, for_each at 1, emailSelectors at 1. cbn [for_of]. wp.
  unfold on_page in Hw1. call_ok.
  match goal with Hp : Inv ?p |- _ =>
    pose proof (Hemail p Hp) as Hne; cbn in Hne;
    destruct (env_select B _ p) as [|el els]; [done|] end.
  wp. cbn [fst]. wp. call_ok. wp.
  eapply ends_weaken; [by apply waitForFirst_absent|]. intros r w2 (-> & _). wp. done.
Qed.
End Login.

(** *** The editor *)

(** The scan of all buttons by text finds nothing. *)
Lemma button_scan_absent (label found_msg : string) w :
  on_page Inv w -> no_button_says B Inv label ->
  ends (allButtons <- queryAll B "button" ;;
        for_each allButtons
          (fun button (found : option nat) =>
             r <- attempt (textContent B button) ;;
             match r with
             | Ok text =>
                 if JS.truthy_opt text &&
                    JS.includes (JS.toLowerCase (JS.trim (default "" text))) label
                 then log Info found_msg ;; ret (Break (Some button))
                 else ret (Next found)
             | Throw _ => ret (Next found)
             end)
          None) w
       (fun r w' => r = Ok None /\ on_page Inv w' /\ w_log w' = w_log w).
Proof.
  intros Hw Hno. unfold on_page in Hw. wp. call_ok.
  match goal with Hp : Inv ?p |- _ => rename p into p0; rename Hp into Hp0 end.
  apply (ends_for_each _
           (fun rest found w' =>
              found = None /\ on_page Inv w' /\ w_log w' = w_log w /\
              forall el, el ∈ rest -> el ∈ env_select B "button" p0));
    [| by intros found w1 (-> & ? & ? & _) | done].
  intros el rest found w1 (-> & Hw1 & Hlog & Hin). wp. unfold on_page in Hw1. call_ok.
  assert (Hrest : forall x, x ∈ rest -> x ∈ env_select B "button" p0)
    by (intros x Hx; apply Hin; by right).
  match goal with Hp : Inv ?p |- context [resolve ?p el] =>
    destruct (resolve p el) as [[n up]|e] eqn:Hres; wp; [|done];
    cbn [JS.truthy_opt default from_option id];
    rewrite (Hno p0 p el n up Hp0 Hp); [|apply Hin; by left|done]
  end.
  rewrite andb_false_r. wp. done.
Qed.

Lemma findApplyButton_absent w :
  on_page Inv w -> absent B Inv applyButtonSelectors -> no_button_says B Inv "aplicar" ->
  ends (findApplyButton B) w (fun r w' => r = Ok None /\ on_page Inv w' /\ w_log w' = w_log w).
Proof.
  intros Hw Habs Hno. unfold findApplyButton. wp.
  apply (ends_for_each _
           (fun rest found w' =>
              found = None /\ on_page Inv w' /\ w_log w' = w_log w /\ absent B Inv rest));
    [| | done].
  - intros sel rest found w1 (-> & Hw1 & Hlog & Hrest).
    apply absent_cons in Hrest as [Hsel Hrest]. wp. unfold on_page in Hw1. call_ok.
    rewrite Hsel by done. wp. done.
  - intros found w1 (-> & Hw1 & Hlog & _). cbv beta iota.
    eapply ends_weaken; [by apply button_scan_absent|].
    intros r w2 (-> & ? & Hlog2). split; [done|]. split; [done | congruence].
Qed.

Lemma findAddButton_absent w :
  on_page Inv w -> absent B Inv addButtonSelectors -> no_button_says B Inv "aÃ±adir" ->
  ends (findAddButton B) w (fun r w' => r = Ok None /\ on_page Inv w').
Proof.
  intros Hw Habs Hno. unfold findAddButton. wp.
  apply (ends_for_each _
           (fun rest found w' => found = None /\ on_page Inv w' /\ absent B Inv rest));
    [| | done].
  - intros sel rest found w1 (-> & Hw1 & Hrest).
    apply absent_cons in Hrest as [Hsel Hrest]. wp. unfold on_page in Hw1. call_ok.
    rewrite Hsel by done. wp. done.
  - intros found w1 (-> & Hw1 & _). cbv beta iota.
    eapply ends_weaken; [by apply button_scan_absent|].
    by intros r w2 (-> & ? & _).
Qed.

(** A cascade of the last resort whose selectors never match fills
    nothing and logs nothing. *)
Lemma fillBySelectors_absent (what value : string) (sels : list string) w :
  on_page Inv w -> absent B Inv sels ->
  ends (fillBySelectors B what sels value) w
       (fun r w' => r = Ok false /\ on_page Inv w' /\ w_log w' = w_log w).
Proof.
  intros Hw Habs. unfold fillBySelectors.
  apply (ends_for_each _
           (fun rest filled w' =>
              filled = false /\ on_page Inv w' /\ w_log w' = w_log w /\ absent B Inv rest));
    [| by intros filled w1 (-> & ? & ? & _) | done].
  intros sel rest filled w1 (-> & Hw1 & Hlog & Hrest).
  apply absent_cons in Hrest as [Hsel Hrest]. wp. unfold on_page in Hw1. call_ok.
  rewrite Hsel by done. wp. done.
Qed.

Lemma fillBySelectors_total (what value : string) (sels : list string) w :
  on_page Inv w ->
  ends (fillBySelectors B what sels value) w (fun r w' => (exists b, r = Ok b) /\ on_page Inv w').
Proof.
  intros Hw. unfold fillBySelectors.
  apply (ends_for_each _ (fun _ _ w' => on_page Inv w')); [| by eauto | done].
  intros sel rest filled w1 Hw1. wp. unfold on_page in Hw1. call_ok.
  match goal with |- context [head ?l] => destruct (head l) as [el|] end; wp; [|done].
  call_ok.
  match goal with |- context [env_visible B el ?p] => destruct (env_visible B el p) end;
    wp; [|done].
  repeat (call_ok; wp). by eauto.
Qed.

(** Fewer than two inputs and no start or end field: a warning, and the
    filler carries on. *)
Lemma fillTimes_without_fields (entry : WorkEntry) w :
  on_page Inv w ->
  (forall p, Inv p -> env_select B timeInputSelector p !! 1%nat = None) ->
  (forall p, Inv p -> env_select B "input" p !! 1%nat = None) ->
  absent B Inv startTimeSelectors ->
  absent B Inv endTimeSelectors ->
  ends (fillTimes B entry) w (fun r w' => r = Ok tt /\ last (w_log w') = Some incomplete).
Proof.
  intros Hw Htime Hall Hstart Hend. unfold on_page in Hw.
  unfold fillTimes. wp. call_ok. wp. call_ok. wp.
  rewrite Htime, Hall by done.
  repeat match goal with |- context [env_select B ?s ?p !! 0%nat] =>
    destruct (env_select B s p !! 0%nat) end; wp.
  all: eapply ends_weaken; [by apply fillBySelectors_absent|]; intros r w1 (-> & Hw1 & Hl1); wp.
  all: eapply ends_weaken; [by apply fillBySelectors_absent|]; intros r w2 (-> & Hw2 & Hl2).
  all: cbn [negb orb]; wp.
  all: split; [done|]; simpl_world; by rewrite last_snoc.
Qed.

Lemma fillTimes_total (entry : WorkEntry) w :
  on_page Inv w -> ends (fillTimes B entry) w (fun r w' => r = Ok tt /\ on_page Inv w').
Proof.
  intros Hw. unfold on_page in Hw. unfold fillTimes. wp. call_ok. wp. call_ok. wp.
  repeat match goal with |- context [env_select B ?s ?p !! ?i] =>
    destruct (env_select B s p !! i) end; wp;
    try (repeat (call_ok; wp); done).
  all: eapply ends_weaken; [by apply fillBySelectors_total|]; intros r w1 [[b1 ->] Hw1]; wp.
  all: eapply ends_weaken; [by apply fillBySelectors_total|]; intros r w2 [[b2 ->] Hw2].
  all: by destruct b1, b2; cbn [negb orb]; wp.
Qed.

Section Workflow.
Context (now : Z) (entry : WorkEntry).

Lemma fillFactorialPopup_without_apply w :
  on_page Inv w -> absent B Inv applyButtonSelectors -> no_button_says B Inv "aplicar" ->
  ends (fillFactorialPopup B entry) w
       (fun r w' =>
          r = Ok false /\
          last (w_log w') =
          Some (LogEntry Error "Failed to fill Factorial popup:" (Some apply_not_found))).
Proof.
  intros Hw Habs Hno. unfold fillFactorialPopup. wp.
  eapply ends_weaken.
  { apply (ends_for_each _ (fun _ _ w' => on_page Inv w') (fun r w' => r = Ok tt /\ on_page Inv w'));
      [| by intros [] | done].
    intros sel rest [] w1 Hw1. wp. unfold on_page in Hw1. call_ok.
    match goal with |- context [head ?l] => destruct (head l) as [el|] end; wp; [|done].
    call_ok.
    match goal with |- context [env_visible B el ?p] => destruct (env_visible B el p) end;
      wp; [|done].
    repeat (call_ok; wp). done. }
  intros r w1 [-> Hw1]. wp.
  eapply ends_weaken; [by apply fillTimes_total|]. intros r w2 [-> Hw2]. wp.
  eapply ends_weaken; [by apply findApplyButton_absent|]. intros r w3 (-> & _). wp.
  split; [done|]. simpl_world. by rewrite last_snoc.
Qed.

Lemma logHoursInRow_without_add (i : nat) w :
  on_page Inv w ->
  (forall p, Inv p -> exists n up, resolve p i = Ok (n, up)) ->
  absent B Inv addButtonSelectors ->
  no_button_says B Inv "aÃ±adir" ->
  ends (logHoursInRow B now entry (JElem i)) w (fun r _ => r = Throw add_not_found).
Proof.
  intros Hw Hrow Habs Hno. unfold on_page in Hw. unfold logHoursInRow. wp. call_ok.
  unfold toggleButtonOf.
  match goal with Hp : Inv ?p |- _ => destruct (Hrow p Hp) as (n & up & ->) end. wp.
  match goal with |- ends (dismissModal _) ?w1 _ =>
    assert (Hd : on_page Inv (snd (dismissModal B w1)))
  end.
  { assert (Ho : obeys (fun _ w : world => on_page Inv w) (dismissModal B)) by inv_calls.
    apply (Ho w). done. }
  apply ends_case. intros r1 w1 Hrun. rewrite Hrun in Hd. unfold on_page in Hd. cbn in Hd.
  destruct r1 as [[]|e]; wp; call_ok.
  all: match goal with |- context [head ?l] => destruct (head l) end; wp; [call_ok; wp|].
  all: destruct (of_node _); wp; repeat (call_ok; wp).
  all: eapply ends_weaken; [by apply findAddButton_absent|]; intros r w5 [-> _]; wp; done.
Qed.

(** What handleFactorialTimeEntry does with an error of steps 2 to 5. *)
Lemma handleFactorialTimeEntry_catches (row : jsval) (fd e : string) w w2 w3 :
  findTargetRow B (add_log workflow_started w) = (Ok (Some row, fd), w2) ->
  logHoursInRow B now entry row w2 = (Throw e, w3) ->
  handleFactorialTimeEntry B now entry w
    = (Ok false, add_log (LogEntry Error "Factorial workflow failed:" (Some e)) w3).
Proof.
  intros Hfind Hrun. unfold workflow_started in Hfind.
  unfold handleFactorialTimeEntry, bind at 1, log at 1, try_catch, bind at 1.
  rewrite Hfind. cbn [fst]. rewrite Hrun. reflexivity.
Qed.
End Workflow.
End Lookups.

(** ** Lookups that find nothing (C5) *)


(** ** Facts about the fixtures *)

Lemma still_inert : inert Fixture.still.
Proof. intros tr a p. reflexivity. Qed.

Lemma still_never_throws : never_throws Fixture.still.
Proof. intros tr a p. reflexivity. Qed.

Lemma still_stable (d : Dom.node) : stable Fixture.still (fun p => p_dom p = d).
Proof. apply inert_stable_dom, still_inert. Qed.

(** The fixture's selector engine looks at the document only. *)
Lemma select_dom (sel : string) (p : page) (d : Dom.node) :
  p_dom p = d -> Fixture.select sel p = Fixture.select sel (Fixture.page_of "" d).
Proof. intros <-. reflexivity. Qed.

Lemma resolve_dom (p : page) (d : Dom.node) (el : nat) :
  p_dom p = d -> resolve p el = resolve (Fixture.page_of "" d) el.
Proof. intros <-. reflexivity. Qed.

(** Decides [absent] on the pages that show a given fixture document. *)
Ltac absent_on_fixture :=
  let sel := fresh "sel" in
  let p := fresh "p" in
  let Hsel := fresh "Hsel" in
  let Hp := fresh "Hp" in
  intros sel p Hsel Hp; cbn [env_select Fixture.still];
  rewrite (select_dom sel p _ Hp);
  repeat (apply elem_of_cons in Hsel as [-> | Hsel]; [vm_compute; reflexivity|]);
  by apply elem_of_nil in Hsel.

Ltac no_button_on_fixture :=
  let p := fresh "p" in
  let p' := fresh "p'" in
  let el := fresh "el" in
  let n := fresh "n" in
  let up := fresh "up" in
  let Hp := fresh "Hp" in
  let Hp' := fresh "Hp'" in
  let Hel := fresh "Hel" in
  let Hres := fresh "Hres" in
  intros p p' el n up Hp Hp' Hel Hres; cbn [env_select Fixture.still] in Hel;
  rewrite (select_dom _ p _ Hp) in Hel; rewrite (resolve_dom p' _ el Hp') in Hres;
  vm_compute in Hel;
  repeat (apply elem_of_cons in Hel as [-> | Hel];
          [vm_compute in Hres; injection Hres as <- _; vm_compute; reflexivity|]);
  by apply elem_of_nil in Hel.



(** ** Witnesses and counterexamples of C1 to C4 *)

Lemma verification_witness :
  fst (verifySubmission Fixture.still (JElem 20) true
         (Fixture.start (Fixture.page_of Fixture.attendance_url
                                         (Fixture.attendance Fixture.missing))))
  = Ok false.
Proof.
  apply (verification_criterion Fixture.still (JElem 20)
           (Fixture.start (Fixture.page_of Fixture.attendance_url
                                           (Fixture.attendance Fixture.missing)))).
  - apply still_never_throws.
  - exists 20%nat. eexists _, _, (Dom.Elem 23 "SPAN" [("title", "-8h")] [Dom.Text "-8h"]).
    split; [reflexivity|]. split; [vm_compute; reflexivity|].
    split; [apply list_elem_of_In; vm_compute; tauto|].
    split; [reflexivity|]. split; vm_compute; reflexivity.
Defined.

(** The claim of C1 fails when the marker is not carried by a span: the
    locator keeps row 20 through the selector [title="-8h"], nothing changes
    on submission, the text of the row still shows "-8h", and the workflow
    reports success. *)
Lemma verification_misses_marker_outside_span :
  let w := Fixture.start (Fixture.page_of Fixture.attendance_url
                                          (Fixture.attendance Fixture.missing_div)) in
  let r := handleFactorialTimeEntry Fixture.still 0 Fixture.entry w in
  fst r = Ok true /\
  last (w_trace (snd r)) = Some (Evaluate (JElem 20) "stillHasMissingHours") /\
  rowTextShowsMissingHours (w_page (snd r)) 20 = true.
Proof. cbv zeta. repeat split; vm_compute; reflexivity. Qed.

(** The other direction: the marker has left the row, but a span that
    shows the logged shift and the hours holds a minus sign and an h; the
    workflow reports failure. *)
Lemma verification_rejects_shift_text :
  let shift := [Dom.Elem 23 "SPAN" [] [Dom.Text "09:00 - 17:00 (8h)"]] in
  let w := Fixture.start (Fixture.page_of Fixture.attendance_url
                                          (Fixture.attendance Fixture.missing)) in
  let r := handleFactorialTimeEntry (Fixture.submitting (Fixture.attendance shift)) 0
             Fixture.entry w in
  fst r = Ok false /\
  rowTextShowsMissingHours (w_page (snd r)) 20 = false.
Proof. cbv zeta. split; vm_compute; reflexivity. Qed.

(** The two runs of the specification's testable property. *)
Example submit_that_removes_the_marker :
  fst (handleFactorialTimeEntry (Fixture.submitting (Fixture.attendance Fixture.worked)) 0
         Fixture.entry
         (Fixture.start (Fixture.page_of Fixture.attendance_url
                                         (Fixture.attendance Fixture.missing))))
  = Ok true.
Proof. vm_compute. reflexivity. Qed.

Example submit_that_leaves_the_marker :
  fst (handleFactorialTimeEntry Fixture.still 0 Fixture.entry
         (Fixture.start (Fixture.page_of Fixture.attendance_url
                                         (Fixture.attendance Fixture.missing))))
  = Ok false.
Proof. vm_compute. reflexivity. Qed.

(** When the row cannot be read again the workflow reports success. *)
Example row_that_cannot_be_read_again :
  fst (handleFactorialTimeEntry Fixture.navigating 0 Fixture.entry
         (Fixture.start (Fixture.page_of Fixture.attendance_url
                                         (Fixture.attendance Fixture.missing))))
  = Ok true.
Proof. vm_compute. reflexivity. Qed.


(** On the fixture the locator passes over the summary row 10, which shows
    "-8h" without a toggle, and keeps row 20. *)
Example locator_on_the_fixture :
  fst (findTargetRow Fixture.still
         (Fixture.start (Fixture.page_of Fixture.attendance_url
                                         (Fixture.attendance Fixture.missing))))
  = Ok (Some (JElem 20), "12") /\
  verdict (Fixture.page_of Fixture.attendance_url (Fixture.attendance Fixture.missing)) 13 = None /\
  candidates Fixture.still
    (Fixture.page_of Fixture.attendance_url (Fixture.attendance Fixture.missing))
  = [13; 23; 13; 23; 13; 23; 13; 23; 13; 23]%nat.
Proof. repeat split; vm_compute; reflexivity. Qed.


Lemma time_inputs_witness :
  let w := Fixture.start (Fixture.page_of Fixture.attendance_url
                                          (Fixture.attendance Fixture.missing)) in
  let w' := snd (fillFactorialPopup Fixture.still Fixture.entry w) in
  p_values (w_page w') !! 40%nat = Some "09:00" /\
  p_values (w_page w') !! 41%nat = Some "17:00".
Proof.
  cbv zeta.
  apply (time_inputs_are_filled Fixture.still Fixture.entry 40 41).
  - intros tr a p. reflexivity.
  - intros p Hp. cbn [env_select Fixture.still]. rewrite (select_dom _ p _ Hp).
    vm_compute. reflexivity.
  - intros p Hp. cbn [env_select Fixture.still]. rewrite (select_dom _ p _ Hp).
    vm_compute. reflexivity.
  - lia.
Defined.

(** ** The command line (C6) *)

(** Once the browser was started after [w], it stays so. *)

Lemma launched_log w w' e : launched_since w w' -> launched_since w (add_log e w').
Proof. done. Qed.

Lemma launched_call B w {A} (a : action) (read : page -> res A) :
  obeys (fun _ w' => launched_since w w') (call B a read).
Proof.
  intros w0 w1 [l Hl].
  apply (ends_call_any B a read w1 (fun _ w' => launched_since w w')).
  intros p' _. exists (l ++ [a])%list. cbn. rewrite Hl.
  by rewrite <- app_assoc, <- app_comm_cons.
Qed.

Lemma set_fields_launched w (b c p : bool) :
  obeys (fun _ w' => launched_since w w') (set_fields b c p).
Proof. by intros w0 w1 H. Qed.

Lemma fields_launched w : obeys (fun _ w' => launched_since w w') fields.
Proof. by intros w0 w1 H. Qed.

Lemma console_launched w (s : string) : obeys (fun _ w' => launched_since w w') (console s).
Proof. by intros w0 w1 H. Qed.

Lemma navigate_launched B config w (n : nat) : forall attempts,
  obeys (fun _ w' : world => launched_since w w') (navigate B config n attempts).
Proof.
  assert (H : forall w0 w1 e, (fun _ w' : world => launched_since w w') w0 w1 ->
                              (fun _ w' : world => launched_since w w') w0 (add_log e w1))
    by (intros ? ? ? ?; by apply launched_log).
  induction n as [|n IH]; intros attempts; cbn [navigate]; [apply obeys_ret|].
  frame; first [apply launched_call | apply IH].
Qed.

Ltac launched_calls w :=
  let H := fresh in
  assert (H : forall w0 w1 e, (fun _ w' : world => launched_since w w') w0 w1 ->
                              (fun _ w' : world => launched_since w w') w0 (add_log e w1))
    by (intros ? ? ? ?; by apply launched_log);
  frame;
  first [ apply launched_call | apply set_fields_launched | apply fields_launched
        | apply console_launched | apply navigate_launched | (intros ? ?; done) ].

(** Membership in a list that evaluates to a literal one. *)
Ltac listed := vm_compute; repeat (first [left; reflexivity | right]).

Section CommandLineFacts.
Context (B : browser) (config : Config) (now : Z) (options : CustomOptions).

Lemma validateConfig_missing w :
factorial_email config = "" \/ factorial_password config = "" ->
exists e, validateConfig config w = (Throw e, w).
Proof.
unfold validateConfig.
intros [H|H]; rewrite H; destruct (factorial_email config), (factorial_password config);
  try done; cbn; by eauto.
Qed.

Lemma validateConfig_present w :
factorial_email config <> "" -> factorial_password config <> "" ->
validateConfig config w = (Ok tt, w).
Proof.
unfold validateConfig.
by destruct (factorial_email config), (factorial_password config).
Qed.




Lemma logCustom_starts_the_browser w :
factorial_email config <> "" -> factorial_password config <> "" ->
launched_since w (snd (logCustom B config now options w)).
Proof.
intros He Hp.
change (ends (logCustom B config now options) w (fun _ w' => launched_since w w')).
unfold logCustom. wp.
apply ends_case. intros r0 w0 Hv. rewrite validateConfig_present in Hv by done.
injection Hv as <- <-. unfold initialize. wp. call_head.
apply ends_call_any. intros p1 r1.
set (w1 := after Launch p1 _).
assert (H1 : launched_since w w1) by (exists []; done).
clearbody w1.
assert (Hall : forall {X} (m : M X) (post : res X -> world -> Prop) w3,
           obeys (fun _ w' : world => launched_since w w') m ->
           launched_since w w3 ->
           (forall r w4, launched_since w w4 -> post r w4) ->
           ends m w3 post).
{ intros X m post w3 Hm H3 Hpost. apply Hpost. by apply (Hm w3). }
assert (Hend : forall (r : res (option Z)) w5,
           launched_since w w5 ->
           ends (match r with
                 | Ok (Some code) => ret code
                 | Ok None => cleanup B ;; ret 0%Z
                 | Throw e => console ("Error: " +:+ e) ;; ret 1%Z
                 end) w5 (fun _ w' => launched_since w w')).
{ intros r w5 H5. destruct r as [[code|]|e]; wp; try done.
  apply Hall; [|done|by intros [[]|?] ? ?; wp].
  launched_calls w. }
destruct r1 as [[]|e]; cbv beta iota.
- apply Hall; [|done|].
  + launched_calls w.
  + intros r2 w4 H4. destruct r2 as [a|e]; cbv beta iota.
    * apply Hall; [|done|].
      { launched_calls w. }
      intros r3 w5 H5. by apply Hend.
    * by apply (Hend (Throw e)).
- wp. by apply (Hend (Throw e)).
Qed.

Lemma logCustom_without_credentials w :
factorial_email config = "" \/ factorial_password config = "" ->
exists w', logCustom B config now options w = (Ok 1%Z, w') /\ w_trace w' = w_trace w.
Proof.
intros H.
destruct (validateConfig_missing
            (add_console ("Logging work hours for " +:+ opt_date options +:+ "...") w) H)
  as [e He].
eexists. split.
- unfold logCustom, bind at 1, console at 1, bind at 1, attempt, bind at 1.
  rewrite He. reflexivity.
- reflexivity.
Qed.
End CommandLineFacts.

(** C6, amended: before the browser is started log-custom checks only that
    both credentials are configured.  When one is missing it exits with
    code 1 without a single browser call; when both are present the launch
    of the browser is its first call, whatever the date argument is. *)
Theorem log_custom_checks_credentials_only
        (B : browser) (config : Config) (now : Z) (options : CustomOptions) (w : world) :
  (factorial_email config = "" \/ factorial_password config = "" ->
   exists w', logCustom B config now options w = (Ok 1%Z, w') /\ w_trace w' = w_trace w) /\
  (factorial_email config <> "" -> factorial_password config <> "" ->
   launched_since w (snd (logCustom B config now options w))).
Proof.
  split.
  - apply logCustom_without_credentials.
  - apply logCustom_starts_the_browser.
Qed.

Lemma log_custom_witness :
  (exists w',
     logCustom Fixture.still Fixture.no_credentials 0 Fixture.bad_date
               (Fixture.cold (Fixture.page_of Fixture.login_url Fixture.login_refused))
     = (Ok 1%Z, w') /\ w_trace w' = []) /\
  launched_since
    (Fixture.cold (Fixture.page_of Fixture.login_url Fixture.login_refused))
    (snd (logCustom Fixture.still Fixture.config 0 Fixture.bad_date
                    (Fixture.cold (Fixture.page_of Fixture.login_url Fixture.login_refused)))).
Proof.
  split.
  - apply (proj1 (log_custom_checks_credentials_only
                    Fixture.still Fixture.no_credentials 0 Fixture.bad_date
                    (Fixture.cold (Fixture.page_of Fixture.login_url Fixture.login_refused)))).
    left. reflexivity.
  - apply (proj2 (log_custom_checks_credentials_only
                    Fixture.still Fixture.config 0 Fixture.bad_date
                    (Fixture.cold (Fixture.page_of Fixture.login_url Fixture.login_refused))));
      vm_compute; discriminate.
Defined.

(** The claim of C6 fails: with the date 12/01/2024, which is not of the
    form YYYY-MM-DD, and credentials configured, log-custom starts the
    browser, and on a page whose row for the 12th lacks hours it fills the
    editor in, submits it and exits with code 0. *)
Lemma invalid_date_reaches_the_browser :
  let r := logCustom (Fixture.submitting (Fixture.attendance Fixture.worked))
                     Fixture.config 0 Fixture.bad_date
                     (Fixture.cold (Fixture.page_of Fixture.attendance_url
                                                    (Fixture.attendance Fixture.missing))) in
  opt_date Fixture.bad_date = "12/01/2024" /\
  fst r = Ok 0%Z /\
  head (w_trace (snd r)) = Some Launch /\
  In (Fill 40 "09:00") (w_trace (snd r)) /\
  In "   Date: 12/01/2024" (w_console (snd r)).
Proof.
  cbv zeta. split; [reflexivity|]. split; [vm_compute; reflexivity|].
  split; [vm_compute; reflexivity|]. split; listed.
Qed.

(** ** The refused login (C7) *)

(** C7 at the failing input: on the login page that shows the error element
    with the text [Invalid email or password] after the refused attempt,
    login logs that text, and the error it throws is the generic one, which
    does not carry the text. *)
Theorem login_drops_the_error_text :
  let r := login Fixture.still Fixture.config
                 (Fixture.start (Fixture.page_of Fixture.login_url Fixture.login_refused)) in
  fst r = Throw "Login failed - please check credentials" /\
  In (LogEntry Error "Login failed with error: Invalid email or password" None)
     (w_log (snd r)) /\
  JS.includes "Login failed - please check credentials" "Invalid email or password" = false.
Proof.
  cbv zeta. split; [vm_compute; reflexivity|]. split; [listed | vm_compute; reflexivity].
Qed.

(** ** The entries of the week (C9) *)

Lemma week_entries_shape (config : Config) (now tz : Z) :
  length (getCurrentWeekEntries config now tz) = 5%nat /\
  Forall (fun e =>
            startTime e = workHours_defaultStartTime config /\
            endTime e = workHours_defaultEndTime config /\
            breakMinutes e = Some (workHours_defaultBreakMinutes config) /\
            description e = Some ("Work day - " +:+ date e))
         (getCurrentWeekEntries config now tz).
Proof.
  split; [reflexivity|].
  unfold getCurrentWeekEntries. cbv zeta. apply Forall_map, Forall_forall.
  intros i _. cbn [startTime endTime breakMinutes description date]. done.
Qed.

(** C9 at the failing input: half an hour after midnight of Monday
    2024-01-01 in a zone one hour east of Greenwich, the five entries are
    dated from 2023-12-31, a Sunday, to Thursday 2024-01-04. *)
Theorem week_entries_shifted_by_utc :
  Date.getDay 60 Fixture.monday_after_midnight = 1%Z /\
  map date (getCurrentWeekEntries Fixture.config Fixture.monday_after_midnight 60) =
    ["2023-12-31"; "2024-01-01"; "2024-01-02"; "2024-01-03"; "2024-01-04"] /\
  Date.WeekDay (Date.MakeDate (Date.days_from_civil 2023 12 31) 0) = 0%Z.
Proof. repeat split; vm_compute; reflexivity. Qed.

(** In Greenwich itself the same code gives Monday to Friday. *)
Example week_entries_in_utc :
  map date (getCurrentWeekEntries Fixture.config Fixture.monday_after_midnight 0) =
    ["2023-12-25"; "2023-12-26"; "2023-12-27"; "2023-12-28"; "2023-12-29"] /\
  Date.WeekDay (Date.MakeDate (Date.days_from_civil 2023 12 25) 0) = 1%Z.
Proof. repeat split; vm_compute; reflexivity. Qed.

(** ** No error leaves the public methods (C10) *)


(** * Further properties *)

(** ** The calendar behind the entries of the week *)

Lemma all_from_spec (f : Z -> bool) (n : nat) : forall z0,
  all_from n z0 f = true -> forall z, (z0 <= z < z0 + Z.of_nat n)%Z -> f z = true.
Proof.
  induction n as [|n IH]; intros z0 H z Hz; [lia|].
  cbn [all_from] in H. apply andb_prop in H as [Hn H].
  destruct (Z.eq_dec z z0) as [->|Hne]; [done|].
  apply (IH (z0 + 1)%Z); [done|lia].
Qed.

Lemma era_days_ok : all_from (Z.to_nat 146097) 0 era_day_ok = true.
Proof. vm_compute. reflexivity. Qed.

Lemma era_day_ok_spec (doe : Z) : (0 <= doe < 146097)%Z -> era_day_ok doe = true.
Proof. intros H. apply (all_from_spec _ _ _ era_days_ok). lia. Qed.

Section Calendar.
Local Open Scope Z_scope.

Lemma civil_from_days_spec (z : Z) :
  let '(y, m, d) := Date.civil_from_days z in
  1 <= m <= 12 /\ 1 <= d <= 31 /\ Date.days_from_civil y m d = z.
Proof.
  unfold Date.civil_from_days, Date.days_from_civil. cbv zeta.
  set (z' := z + 719468).
  set (era := z' / 146097).
  set (doe := z' - era * 146097).
  assert (Hdoe : 0 <= doe < 146097).
  { unfold doe, era. pose proof (Z.div_mod z' 146097). pose proof (Z.mod_pos_bound z' 146097). lia. }
  pose proof (era_day_ok_spec doe Hdoe) as Hok. unfold era_day_ok in Hok. cbv zeta in Hok.
  set (yoe := (doe - doe / 1460 + doe / 36524 - doe / 146096) / 365) in *.
  set (doy := doe - (365 * yoe + yoe / 4 - yoe / 100)) in *.
  set (mp := (5 * doy + 2) / 153) in *.
  set (d := doy - (153 * mp + 2) / 5 + 1) in *.
  set (m := if mp <? 10 then mp + 3 else mp - 9) in *.
  repeat (apply andb_prop in Hok as [Hok ?]).
  split; [lia|]. split; [lia|].
  assert (Hy : (if m <=? 2 then (if m <=? 2 then yoe + era * 400 + 1 else yoe + era * 400) - 1
                else (if m <=? 2 then yoe + era * 400 + 1 else yoe + era * 400))
               = yoe + era * 400) by (destruct (m <=? 2); lia).
  rewrite Hy.
  assert (He : (yoe + era * 400) / 400 = era).
  { symmetry. apply (Z.div_unique _ _ _ yoe); lia. }
  rewrite He.
  replace (yoe + era * 400 - era * 400) with yoe by lia.
  unfold doe in *. lia.
Qed.
End Calendar.

Section WeekEntries.
Local Open Scope Z_scope.

Lemma days_from_civil_day (y m d : Z) :
  Date.days_from_civil y m d = Date.days_from_civil y m 1 + d - 1.
Proof. unfold Date.days_from_civil. cbv zeta. lia. Qed.

Lemma MakeDate_fields (D T : Z) :
  0 <= T < Date.msPerDay ->
  Date.Day (Date.MakeDate D T) = D /\ Date.TimeWithinDay (Date.MakeDate D T) = T.
Proof.
  unfold Date.Day, Date.TimeWithinDay, Date.MakeDate, Date.msPerDay. intros H.
  split.
  - symmetry. apply (Z.div_unique _ _ _ T); lia.
  - symmetry. apply (Z.mod_unique _ _ D); lia.
Qed.

Lemma TimeWithinDay_bound (t : Z) : 0 <= Date.TimeWithinDay t < Date.msPerDay.
Proof. unfold Date.TimeWithinDay, Date.msPerDay. apply Z.mod_pos_bound. lia. Qed.

Lemma LocalTime_UTC (tz t : Z) : Date.LocalTime tz (Date.UTC tz t) = t.
Proof. unfold Date.LocalTime, Date.UTC. lia. Qed.

(** [setDate] moves to the given day of the month of the local date and
    keeps the local time of day. *)
Lemma setDate_spec (tz t dt : Z) :
  Date.setDate tz t dt =
  Date.UTC tz (Date.MakeDate (Date.Day (Date.LocalTime tz t) - Date.getDate tz t + dt)
                             (Date.TimeWithinDay (Date.LocalTime tz t))).
Proof.
  unfold Date.setDate, Date.getDate, Date.YearFromTime, Date.MonthFromTime, Date.DateFromTime.
  cbv zeta.
  pose proof (civil_from_days_spec (Date.Day (Date.LocalTime tz t))) as H.
  destruct (Date.civil_from_days (Date.Day (Date.LocalTime tz t))) as [[y m] d].
  destruct H as (Hm & Hd & Hz). cbn [fst snd].
  do 2 f_equal. unfold Date.MakeDay.
  replace ((m - 1) / 12) with 0 by (symmetry; apply Z.div_small; lia).
  replace ((m - 1) mod 12) with (m - 1) by (symmetry; apply Z.mod_small; lia).
  rewrite (days_from_civil_day y m d) in Hz.
  replace (y + 0) with y by lia. replace (m - 1 + 1) with m by lia. lia.
Qed.

Lemma getDate_setDate_fields (tz t dt : Z) :
  Date.Day (Date.LocalTime tz (Date.setDate tz t dt))
  = Date.Day (Date.LocalTime tz t) - Date.getDate tz t + dt /\
  Date.TimeWithinDay (Date.LocalTime tz (Date.setDate tz t dt))
  = Date.TimeWithinDay (Date.LocalTime tz t).
Proof.
  rewrite setDate_spec, LocalTime_UTC. apply MakeDate_fields, TimeWithinDay_bound.
Qed.

Lemma week_entries_local_monday (config : Config) (now tz : Z) :
  let lt := Date.LocalTime tz now in
  let monday := Date.Day lt - (Date.WeekDay lt + 6) mod 7 in
  Date.WeekDay (Date.MakeDate monday 0) = 1 /\
  monday <= Date.Day lt <= monday + 6 /\
  map date (getCurrentWeekEntries config now tz) =
  map (fun i => Date.isoDate (Date.UTC tz (Date.MakeDate (monday + i) (Date.TimeWithinDay lt))))
      [0; 1; 2; 3; 4].
Proof.
  cbv zeta.
  set (lt := Date.LocalTime tz now).
  set (D := Date.Day lt).
  assert (Hw : 0 <= Date.WeekDay lt < 7) by (unfold Date.WeekDay; apply Z.mod_pos_bound; lia).
  assert (Hmod : 0 <= (Date.WeekDay lt + 6) mod 7 < 7) by (apply Z.mod_pos_bound; lia).
  split; [|split; [lia|]].
  - destruct (MakeDate_fields (D - (Date.WeekDay lt + 6) mod 7) 0) as [HD _];
      [unfold Date.msPerDay; lia|].
    unfold Date.WeekDay at 1. rewrite HD. unfold Date.WeekDay. fold D.
    clear. generalize D. intros z. Z.div_mod_to_equations. lia.
  - unfold getCurrentWeekEntries. cbv zeta. rewrite map_map. cbn [date].
    apply map_ext. intros i.
    set (dow := Date.getDay tz now).
    set (start := Date.setDate tz now _).
    destruct (getDate_setDate_fields tz now
                (Date.getDate tz now - dow + (if dow =? 0 then -6 else 1))) as [HD HT].
    fold start in HD, HT. fold lt in HD, HT. fold D in HD.
    rewrite (setDate_spec tz start). rewrite HD, HT.
    do 3 f_equal.
    assert (Hdow : dow = Date.WeekDay lt) by reflexivity.
    rewrite Hdow. destruct (Z.eqb_spec (Date.WeekDay lt) 0) as [H0|H0].
    + rewrite H0. change ((0 + 6) mod 7) with 6. lia.
    + replace ((Date.WeekDay lt + 6) mod 7) with (Date.WeekDay lt - 1); [lia|].
      apply (Z.mod_unique _ _ 1); lia.
Qed.
End WeekEntries.

Section IsoDate.
Local Open Scope Z_scope.

Lemma append_nil_r (a : string) : a +:+ "" = a.
Proof. induction a as [|x a IH]; [done|]. by rewrite append_cons, IH. Qed.

Lemma lacks_app (c : ascii) (a b : string) : lacks c (a +:+ b) = lacks c a && lacks c b.
Proof.
  induction a as [|x a IH]; [done|]. rewrite append_cons. cbn [lacks]. rewrite IH.
  by rewrite andb_assoc.
Qed.

Lemma digit_is_not_T (x : ascii) : JS.is_digit x = true -> Ascii.eqb x "T" = false.
Proof. destruct x as [[] [] [] [] [] [] [] []]; done. Qed.

Lemma all_digits_lacks_T (s : string) : all_digits s = true -> lacks "T" s = true.
Proof.
  induction s as [|x s IH]; [done|]. cbn [all_digits lacks]. intros H.
  apply andb_prop in H as [Hx Hs]. by rewrite (digit_is_not_T x Hx), IH.
Qed.

Lemma before_char_app (c : ascii) (a b : string) :
  lacks c a = true -> JS.before_char c (a +:+ b) = a +:+ JS.before_char c b.
Proof.
  induction a as [|x a IH]; [done|]. cbn [lacks]. intros H.
  apply andb_prop in H as [Hx Ha]. rewrite !append_cons. cbn [JS.before_char].
  destruct (Ascii.eqb x c); [done|]. by rewrite IH.
Qed.

Lemma all_digits_fill (k : nat) : forall cur,
  cur = "" \/ cur = "0" -> all_digits (JS.fill k "0" cur) = true.
Proof.
  induction k as [|k IH]; intros cur Hc; [done|].
  destruct Hc as [-> | ->]; cbn [JS.fill all_digits]; rewrite IH; auto.
Qed.

Lemma all_digits_pad (w : nat) (n : Z) : 0 <= n -> all_digits (Date.pad w n) = true.
Proof.
  intros Hn. destruct (toString_spec n Hn) as (Ha & _).
  unfold Date.pad, JS.padStart. destruct (w <=? _)%nat; [done|].
  rewrite all_digits_app, Ha, all_digits_fill; auto.
Qed.

(** The date that toISOString prints depends on the day only. *)
Lemma isoDate_of_day (t : Z) :
  Date.isoDate t =
  let '(y, m, d) := Date.civil_from_days (Date.Day t) in
  (if (0 <=? y) && (y <=? 9999) then Date.pad 4 y
   else if y <? 0 then "-" +:+ Date.pad 6 (- y) else "+" +:+ Date.pad 6 y)
  +:+ "-" +:+ Date.pad 2 m +:+ "-" +:+ Date.pad 2 d.
Proof.
  unfold Date.isoDate, Date.toISOString.
  pose proof (civil_from_days_spec (Date.Day t)) as H.
  destruct (Date.civil_from_days (Date.Day t)) as [[y m] d]. destruct H as (Hm & Hd & _).
  cbv zeta.
  set (yp := if (0 <=? y) && (y <=? 9999) then _ else _).
  assert (Hyp : lacks "T" yp = true).
  { unfold yp. destruct (Z.leb_spec 0 y); cbn [andb].
    - destruct (y <=? 9999).
      + apply all_digits_lacks_T, all_digits_pad. lia.
      + destruct (Z.ltb_spec y 0); [lia|]. rewrite append_cons, append_nil_l. cbn [lacks].
        rewrite all_digits_lacks_T; [done|]. apply all_digits_pad. lia.
    - destruct (Z.ltb_spec y 0); [|lia]. rewrite append_cons, append_nil_l. cbn [lacks].
      rewrite all_digits_lacks_T; [done|]. apply all_digits_pad. lia. }
  rewrite (before_char_app _ yp) by done.
  rewrite (before_char_app _ "-") by done.
  rewrite (before_char_app _ (Date.pad 2 m)) by (apply all_digits_lacks_T, all_digits_pad; lia).
  rewrite (before_char_app _ "-") by done.
  rewrite (before_char_app _ (Date.pad 2 d)) by (apply all_digits_lacks_T, all_digits_pad; lia).
  assert (Hend : forall r, JS.before_char "T" ("T" +:+ r) = "") by done.
  by rewrite Hend, append_nil_r.
Qed.

Lemma isoDate_same_day (t1 t2 : Z) :
  Date.Day t1 = Date.Day t2 -> Date.isoDate t1 = Date.isoDate t2.
Proof. intros H. by rewrite !isoDate_of_day, H. Qed.

Lemma week_entries_of_the_week (config : Config) (now tz : Z) :
  Date.Day now = Date.Day (Date.LocalTime tz now) ->
  let monday := Date.Day now - (Date.WeekDay now + 6) mod 7 in
  Date.WeekDay (Date.MakeDate monday 0) = 1 /\
  monday <= Date.Day now <= monday + 6 /\
  map date (getCurrentWeekEntries config now tz) =
  map (fun i => Date.isoDate (Date.MakeDate (monday + i) 0)) [0; 1; 2; 3; 4].
Proof.
  intros Hday. cbv zeta.
  destruct (week_entries_local_monday config now tz) as (Hmon & Hin & Hdates). cbv zeta in *.
  assert (Hwd : Date.WeekDay (Date.LocalTime tz now) = Date.WeekDay now)
    by (unfold Date.WeekDay; by rewrite Hday).
  rewrite Hwd, <- Hday in *.
  split; [done|]. split; [done|].
  rewrite Hdates. apply map_ext. intros i. apply isoDate_same_day.
  pose proof (TimeWithinDay_bound (Date.LocalTime tz now)) as HT.
  set (T := Date.TimeWithinDay (Date.LocalTime tz now)) in *.
  set (mon := Date.Day now - (Date.WeekDay now + 6) mod 7).
  destruct (MakeDate_fields (mon + i) 0) as [-> _]; [unfold Date.msPerDay; lia|].
  (* the time of day in UTC stays within the day *)
  assert (Hnow : Date.LocalTime tz now = Date.MakeDate (Date.Day now) T).
  { unfold T, Date.MakeDate, Date.TimeWithinDay. rewrite Hday. unfold Date.Day.
    pose proof (Z.div_mod (Date.LocalTime tz now) Date.msPerDay). unfold Date.msPerDay in *. lia. }
  assert (Hutc : 0 <= T - tz * 60000 < Date.msPerDay).
  { pose proof (TimeWithinDay_bound now) as Hb.
    assert (Hn : now = Date.MakeDate (Date.Day now) (Date.TimeWithinDay now)).
    { unfold Date.MakeDate, Date.TimeWithinDay, Date.Day.
      pose proof (Z.div_mod now Date.msPerDay). unfold Date.msPerDay in *. lia. }
    unfold Date.LocalTime, Date.MakeDate in *. lia. }
  unfold Date.UTC, Date.MakeDate.
  replace ((mon + i) * Date.msPerDay + T - tz * 60000)
    with (Date.MakeDate (mon + i) (T - tz * 60000)) by (unfold Date.MakeDate; lia).
  by destruct (MakeDate_fields (mon + i) (T - tz * 60000) Hutc) as [-> _].
Qed.




End IsoDate.

(** ** The session driver on its own *)

Lemma ends_set_fields (b c p : bool) w (post : res unit -> world -> Prop) :
  post (Ok tt) (set_session b c p w) -> ends (set_fields b c p) w post.
Proof. done. Qed.

Lemma ends_call_throws B {A} (a : action) (read : page -> res A) w (e : string)
      (post : res A -> world -> Prop) :
  snd (env_step B (w_trace w) a (effect a (w_page w))) = Some e ->
  (forall p', post (Throw e) (after a p' w)) ->
  ends (call B a read) w post.
Proof.
  intros He H. unfold ends, call.
  destruct (env_step B (w_trace w) a (effect a (w_page w))) as [p' err].
  cbn in He. subst err. apply H.
Qed.

Lemma ends_call_returns B {A} (a : action) (read : page -> res A) w
      (post : res A -> world -> Prop) :
  snd (env_step B (w_trace w) a (effect a (w_page w))) = None ->
  (forall p', post (read p') (after a p' w)) ->
  ends (call B a read) w post.
Proof.
  intros He H. unfold ends, call.
  destruct (env_step B (w_trace w) a (effect a (w_page w))) as [p' err].
  cbn in He. subst err. apply H.
Qed.

Lemma ends_call_cases B {A} (a : action) (read : page -> res A) w
      (post : res A -> world -> Prop) :
  (forall p' e, env_step B (w_trace w) a (effect a (w_page w)) = (p', Some e) ->
                post (Throw e) (after a p' w)) ->
  (forall p', env_step B (w_trace w) a (effect a (w_page w)) = (p', None) ->
              post (read p') (after a p' w)) ->
  ends (call B a read) w post.
Proof.
  intros Ht Ho. unfold ends, call.
  destruct (env_step B (w_trace w) a (effect a (w_page w))) as [p' [e|]] eqn:H;
    [by apply Ht | by apply Ho].
Qed.

Section Session.
Context (B : browser) (config : Config).

(** X3: initialize either sets the three handles after exactly the calls
    launch, newContext and newPage, or it logs the error of the call that
    failed and throws it again, leaving the page handle as it was. *)
Theorem initialize_outcome (w : world) :
  let r := initialize B w in
  match fst r with
  | Ok _ =>
      w_browser (snd r) = true /\ w_context (snd r) = true /\ w_hasPage (snd r) = true /\
      w_trace (snd r) = (w_trace w ++ [Launch; NewContext; NewPage])%list
  | Throw e =>
      w_hasPage (snd r) = w_hasPage w /\
      last (w_log (snd r)) = Some (LogEntry Error "Failed to initialize browser:" (Some e)) /\
      exists n, (1 <= n <= 3)%nat /\
                w_trace (snd r) = (w_trace w ++ take n [Launch; NewContext; NewPage])%list
  end.
Proof.
  cbv zeta.
  change (ends (initialize B) w
            (fun r w' =>
               match r with
               | Ok _ =>
                   w_browser w' = true /\ w_context w' = true /\ w_hasPage w' = true /\
                   w_trace w' = (w_trace w ++ [Launch; NewContext; NewPage])%list
               | Throw e =>
                   w_hasPage w' = w_hasPage w /\
                   last (w_log w') = Some (LogEntry Error "Failed to initialize browser:" (Some e)) /\
                   exists n, (1 <= n <= 3)%nat /\
                             w_trace w' = (w_trace w ++ take n [Launch; NewContext; NewPage])%list
               end)).
  unfold initialize. wp. call_head. apply ends_call.
  { intros p e. wp. simpl_world. rewrite last_snoc. split; [done|]. split; [done|].
    exists 1%nat. split; [lia|done]. }
  intros p1. wp. apply ends_fields. wp. apply ends_set_fields.
  wp. call_head. apply ends_call.
  { intros p e. wp. simpl_world. rewrite last_snoc. split; [done|]. split; [done|].
    exists 2%nat. split; [lia|]. by rewrite <- app_assoc. }
  intros p2. wp. apply ends_fields. wp. apply ends_set_fields.
  wp. call_head. apply ends_call.
  { intros p e. wp. simpl_world. rewrite last_snoc. split; [done|]. split; [done|].
    exists 3%nat. split; [lia|]. by rewrite <- !app_assoc. }
  intros p3. wp. apply ends_fields. wp. apply ends_set_fields.
  wp. simpl_world. by rewrite <- !app_assoc.
Qed.

(** X4: When the site cannot be reached, login tries three times, five seconds
    apart, and then throws the navigation error with the browser's message;
    it looks for no form. *)
Theorem login_gives_up_after_three_attempts (w : world) (e : string) :
  w_hasPage w = true ->
  (forall tr u p, snd (env_step B tr (Goto u) p) = Some e) ->
  (forall tr ms p, snd (env_step B tr (WaitForTimeout ms) p) = None) ->
  let r := login B config w in
  fst r = Throw (navigation_failed e) /\
  w_trace (snd r) =
    (w_trace w ++ [Goto (factorial_baseUrl config); WaitForTimeout 5000;
                   Goto (factorial_baseUrl config); WaitForTimeout 5000;
                   Goto (factorial_baseUrl config)])%list.
Proof.
  intros Hpage Hgoto Hwait. cbv zeta.
  change (ends (login B config) w
            (fun r w' =>
               r = Throw (navigation_failed e) /\
               w_trace w' =
                 (w_trace w ++ [Goto (factorial_baseUrl config); WaitForTimeout 5000;
                                Goto (factorial_baseUrl config); WaitForTimeout 5000;
                                Goto (factorial_baseUrl config)])%list)).
  unfold login. wp. apply ends_fields. cbn [snd]. rewrite Hpage. cbn [negb]. wp.
  change (Z.to_nat maxAttempts) with 3%nat. cbn [navigate]. wp.
  call_head. apply (ends_call_throws B _ _ _ e); [apply Hgoto|]. intros p1.
  cbv beta iota. change (0 + 1 =? maxAttempts)%Z with false. cbv iota. wp.
  call_head. apply ends_call_returns; [apply Hwait|]. intros p2. wp.
  call_head. apply (ends_call_throws B _ _ _ e); [apply Hgoto|]. intros p3.
  cbv beta iota. change (0 + 1 + 1 =? maxAttempts)%Z with false. cbv iota. wp.
  call_head. apply ends_call_returns; [apply Hwait|]. intros p4. wp.
  call_head. apply (ends_call_throws B _ _ _ e); [apply Hgoto|]. intros p5.
  cbv beta iota. change (0 + 1 + 1 + 1 =? maxAttempts)%Z with true. cbv iota. wp.
  simpl_world. split; [reflexivity|]. by rewrite <- !app_assoc.
Qed.

End Session.

Lemma login_offline_witness :
  fst (login Fixture.offline Fixture.config
             (Fixture.start (Fixture.page_of Fixture.login_url Fixture.empty_page)))
  = Throw (navigation_failed "net::ERR_NAME_NOT_RESOLVED").
Proof.
  apply (login_gives_up_after_three_attempts Fixture.offline Fixture.config
           (Fixture.start (Fixture.page_of Fixture.login_url Fixture.empty_page))
           "net::ERR_NAME_NOT_RESOLVED"); reflexivity.
Defined.

(** ** How often login navigates *)

Lemma obeys_fields (R : world -> world -> Prop) : obeys R fields.
Proof. by intros w0 w H. Qed.

Lemma gotos_app (l1 l2 : list action) : gotos (l1 ++ l2) = (gotos l1 + gotos l2)%nat.
Proof. induction l1 as [|a l1 IH]; [done|]. cbn [app gotos]. rewrite IH. lia. Qed.

Lemma goto_bound_refl w : goto_bound 0 w w.
Proof. exists []. by rewrite app_nil_r. Qed.

Lemma goto_bound_log k w0 w e : goto_bound k w0 w -> goto_bound k w0 (add_log e w).
Proof. done. Qed.

Lemma goto_bound_weaken k k' w0 w : (k <= k')%nat -> goto_bound k w0 w -> goto_bound k' w0 w.
Proof. intros Hk (l & Hl & Hb). exists l. split; [done|lia]. Qed.

Lemma goto_bound_after k w0 w (a : action) (p' : page) :
  goto_bound k w0 w ->
  goto_bound (if is_goto a then S k else k) w0 (after a p' w).
Proof.
  intros (l & Hl & Hb). exists (l ++ [a])%list. split.
  - cbn. by rewrite Hl, <- app_assoc.
  - rewrite gotos_app. cbn [gotos]. destruct (is_goto a); lia.
Qed.

Lemma goto_bound_call B k {A} (a : action) (read : page -> res A) :
  is_goto a = false -> obeys (goto_bound k) (call B a read).
Proof.
  intros Ha w0 w H.
  apply (ends_call_any B a read w (fun _ w' => goto_bound k w0 w')).
  intros p' _. pose proof (goto_bound_after k w0 w a p' H) as H'. by rewrite Ha in H'.
Qed.

(** Solves [obeys (goto_bound k) m] for an [m] that makes no [page.goto]. *)
Ltac no_goto_calls :=
  lazymatch goal with
  | |- obeys (goto_bound ?k) _ => pose proof (goto_bound_log k)
  end;
  frame;
  first [ apply goto_bound_call; reflexivity | apply obeys_fields ].

Section Navigation.
Context (B : browser) (config : Config).

Lemma navigate_gotos (n : nat) : forall attempts k w0 w,
  goto_bound k w0 w ->
  goto_bound (k + n) w0 (snd (navigate B config n attempts w)).
Proof.
  induction n as [|n IH]; intros attempts k w0 w H.
  - cbn. by replace (k + 0)%nat with k by lia.
  - change (ends (navigate B config (S n) attempts) w (fun _ w' => goto_bound (k + S n) w0 w')).
    cbn [navigate]. wp. call_head. apply ends_call_any. intros p1 r1.
    assert (H1 : goto_bound (S k) w0
                   (after (Goto (factorial_baseUrl config)) p1
                      (add_log (LogEntry Info ("Navigation attempt "
                                  +:+ JS.toString (attempts + 1) +:+ "/"
                                  +:+ JS.toString maxAttempts +:+ "...") None) w)))
      by (apply (goto_bound_after k w0 _ (Goto _)); by apply goto_bound_log).
    assert (Hrest : forall (r : res unit) w2,
               goto_bound (S k) w0 w2 ->
               ends (match r with
                     | Ok _ => ret tt
                     | Throw navError =>
                         if (attempts + 1 =? maxAttempts)%Z
                         then throw ("Failed to navigate to Factorial after "
                                     +:+ JS.toString maxAttempts
                                     +:+ " attempts. Network issue or site unavailable. Error: "
                                     +:+ navError)
                         else
                           log_with Warn ("Navigation attempt " +:+ JS.toString (attempts + 1)
                                          +:+ " failed, retrying in 5 seconds...") navError ;;
                           waitForTimeout B 5000 ;;
                           navigate B config n (attempts + 1)%Z
                     end) w2 (fun _ w' => goto_bound (k + S n) w0 w')).
    { intros r w2 H2. destruct r as [[]|navError].
      - wp. apply (goto_bound_weaken (S k)); [lia|done].
      - destruct (attempts + 1 =? maxAttempts)%Z; wp.
        + apply (goto_bound_weaken (S k)); [lia|done].
        + call_head. apply ends_call_any. intros p3 r3.
          assert (H3 : goto_bound (S k) w0
                         (after (WaitForTimeout 5000) p3
                            (add_log (LogEntry Warn ("Navigation attempt "
                                        +:+ JS.toString (attempts + 1)
                                        +:+ " failed, retrying in 5 seconds...")
                                        (Some navError)) w2)))
            by (apply (goto_bound_after (S k) w0 _ (WaitForTimeout 5000));
                by apply goto_bound_log).
          destruct r3 as [[]|e3]; [|apply (goto_bound_weaken (S k)); [lia|done]].
          cbv beta iota. unfold ends.
          replace (k + S n)%nat with (S k + n)%nat by lia. by apply IH. }
    destruct r1 as [[]|e1]; cbv beta iota.
    + wp. call_head. apply ends_call_any. intros p2 r2.
      assert (H2 : goto_bound (S k) w0
                     (after (WaitForLoadState "networkidle") p2
                        (after (Goto (factorial_baseUrl config)) p1
                           (add_log (LogEntry Info ("Navigation attempt "
                                       +:+ JS.toString (attempts + 1) +:+ "/"
                                       +:+ JS.toString maxAttempts +:+ "...") None) w))))
        by (apply (goto_bound_after (S k) w0 _ (WaitForLoadState _)); done).
      destruct r2 as [[]|e2]; cbv beta iota.
      * wp. apply (Hrest (Ok tt)). by apply goto_bound_log.
      * by apply (Hrest (Throw e2)).
    + by apply (Hrest (Throw e1)).
Qed.

(** X5: Whatever the browser answers, login navigates with [page.goto] at most
    three times. *)
Theorem login_navigates_at_most_three_times (w : world) :
  goto_bound 3 w (snd (login B config w)).
Proof.
  change (ends (login B config) w (fun _ w' => goto_bound 3 w w')).
  unfold login. wp. apply ends_fields. cbn [snd].
  destruct (negb (w_hasPage w)); wp.
  { apply (goto_bound_weaken 0); [lia|apply goto_bound_refl]. }
  apply ends_case. intros r1 w1 Hnav.
  assert (H1 : goto_bound 3 w w1).
  { pose proof (navigate_gotos (Z.to_nat maxAttempts) 0 0 w
                  (add_log (LogEntry Info "Navigating to Factorial login page..." None) w)
                  (goto_bound_log _ _ _ _ (goto_bound_refl w))) as H.
    by rewrite Hnav in H. }
  assert (Hcatch : forall (r : res bool) w2,
             goto_bound 3 w w2 ->
             match r with
             | Ok a => goto_bound 3 w w2
             | Throw e =>
                 ends (log_with Error "Login failed:" e ;; throw e) w2
                      (fun (_ : res bool) w' => goto_bound 3 w w')
             end).
  { intros [a|e] w2 H2; [done|]. wp. by apply goto_bound_log. }
  destruct r1 as [[]|e1]; [|by apply (Hcatch (Throw e1))].
  apply ends_bind.
  eapply ends_weaken.
  { apply (obeys_ends (goto_bound 3) _ w w1); [|exact H1]. no_goto_calls. }
  intros r2 w2 H2. destruct r2 as [[]|e2]; [|by apply (Hcatch (Throw e2))].
  eapply ends_weaken.
  { apply (obeys_ends (goto_bound 3) _ w w2); [|exact H2]. no_goto_calls. }
  intros r3 w3 H3. by apply (Hcatch r3).
Qed.
End Navigation.

(** ** isLoggedIn, navigateToTimeTracking and cleanup *)

Section LoggedIn.
Context (B : browser) (Inv : page -> Prop).
Context (Hok : never_throws B) (Hstable : stable B Inv).

Ltac call_inv :=
  call_head; apply (ends_call_inv B Inv);
  [exact Hok | exact Hstable | simpl_world; assumption | intros ? ?; simpl_world].

Lemma isLoggedIn_without_indicator (w : world) :
  on_page Inv w -> w_hasPage w = true -> absent B Inv loggedInIndicators ->
  ends (isLoggedIn B) w
       (fun r w' => r = Ok (url_says_logged_in (p_url (w_page w'))) /\ on_page Inv w' /\
                    w_trace w' = (w_trace w ++ map Query loggedInIndicators)%list).
Proof.
  intros Hw Hpage Habs. unfold isLoggedIn. wp. apply ends_fields. cbn [snd].
  rewrite Hpage. cbn [negb]. wp.
  eapply ends_weaken.
  { apply (ends_for_each _
             (fun rest found w' =>
                found = false /\ absent B Inv rest /\ on_page Inv w' /\
                (w_trace w' ++ map Query rest)%list
                = (w_trace w ++ map Query loggedInIndicators)%list)
             (fun r w' => r = Ok false /\ on_page Inv w' /\
                          w_trace w' = (w_trace w ++ map Query loggedInIndicators)%list)).
    - intros sel rest found w1 (-> & Hrest & Hw1 & Htr).
      apply absent_cons in Hrest as [Hsel Hrest]. wp. unfold on_page in Hw1. call_inv.
      rewrite Hsel by done. cbn [head]. wp. split; [done|]. split; [done|]. split; [done|].
      simpl_world. rewrite <- Htr. cbn [map]. by rewrite <- app_assoc.
    - intros found w1 (-> & _ & Hw1 & Htr). cbn [map] in Htr. by rewrite app_nil_r in Htr.
    - split; [done|]. split; [done|]. split; [done|]. done. }
  intros r w1 H. cbv beta in H. destruct H as (-> & Hw1 & Htr). cbv beta iota. wp.
  unfold url_says_logged_in.
  destruct (JS.includes (p_url (w_page w1)) "/login") eqn:Hl; cbn [orb negb andb]; wp;
    [by rewrite Hl|].
  destruct (JS.includes (p_url (w_page w1)) "/signin") eqn:Hs; cbn [negb andb]; wp;
    [by rewrite Hl, Hs|].
  by destruct (JS.includes (p_url (w_page w1)) "factorialhr.com") eqn:Hf; cbn [andb]; wp;
    rewrite Hl, Hs, Hf.
Qed.
End LoggedIn.

(** X6: With no logged-in indicator on the page, isLoggedIn asks for each
    indicator once and then decides by the address: logged in exactly when
    it holds factorialhr.com and neither /login nor /signin. *)
Theorem isLoggedIn_decides_by_url (B : browser) (Inv : page -> Prop) (w : world) :
  never_throws B -> stable B Inv ->
  on_page Inv w -> w_hasPage w = true -> absent B Inv loggedInIndicators ->
  exists w',
    isLoggedIn B w = (Ok (url_says_logged_in (p_url (w_page w'))), w') /\
    w_trace w' = (w_trace w ++ map Query loggedInIndicators)%list.
Proof.
  intros Hok Hstable Hw Hpage Habs.
  pose proof (isLoggedIn_without_indicator B Inv Hok Hstable w Hw Hpage Habs) as H.
  unfold ends in H. destruct (isLoggedIn B w) as [r w'] eqn:Hrun. cbn [fst snd] in H.
  destruct H as (-> & _ & Htr). by exists w'.
Qed.

Section Surface.
Context (B : browser) (config : Config).

(** A loop whose body yields a flow in every case yields its variables. *)
Lemma for_each_returns {A S} (body : A -> S -> M (flow S)) (xs : list A) (s : S) w :
  (forall x s w, exists f w', body x s w = (Ok f, w')) ->
  exists s' w', for_each xs body s w = (Ok s', w').
Proof.
  intros Hbody. unfold for_each, bind.
  assert (H : exists r w', for_of xs body s w = (Ok r, w')).
  { revert s w. induction xs as [|x xs IH]; intros s w; [by eexists _, _|].
    cbn [for_of]. unfold bind. destruct (Hbody x s w) as ([s'|s'|e s'] & w' & ->).
    - apply IH.
    - by eexists _, _.
    - by eexists _, _. }
  destruct H as (r & w' & ->). by eexists _, _.
Qed.

Lemma caught_flow {S} (m : M (flow S)) (h : string -> M (flow S)) w :
  (forall e w, exists f w', h e w = (Ok f, w')) ->
  exists f w', try_catch m h w = (Ok f, w').
Proof.
  intros Hh. unfold try_catch. destruct (m w) as [[f|e] w']; [by eexists _, _|apply Hh].
Qed.

(** X7: navigateToTimeTracking ends normally or with one of two errors of its
    own: whatever a call throws inside its loops is caught there.  Without
    a page it throws at once, and every error it throws with a page has
    been logged. *)
Theorem navigateToTimeTracking_errors (w : world) :
  let r := navigateToTimeTracking B config w in
  (fst r = Ok tt \/ fst r = Throw "Browser not initialized" \/ fst r = Throw no_time_tracking) /\
  (w_hasPage w = false -> r = (Throw "Browser not initialized", w)) /\
  (w_hasPage w = true -> fst r = Throw no_time_tracking ->
   last (w_log (snd r)) =
   Some (LogEntry Error "Failed to navigate to time tracking:" (Some no_time_tracking))).
Proof.
  cbv zeta. split; [|split].
  - change (ends (navigateToTimeTracking B config) w
              (fun r _ => r = Ok tt \/ r = Throw "Browser not initialized"
                          \/ r = Throw no_time_tracking)).
    unfold navigateToTimeTracking. wp. apply ends_fields. cbn [snd].
    destruct (negb (w_hasPage w)); wp; [by auto|].
    apply ends_case. intros r1 w1 H1.
    match type of H1 with
    | for_each ?xs ?body ?s ?w0 = _ =>
        destruct (for_each_returns body xs s w0) as (found & w1' & Hrun)
    end.
    { intros x s w0. apply caught_flow. intros e w2. by eexists _, _. }
    rewrite Hrun in H1. injection H1 as <- <-. cbv beta iota.
    apply ends_bind, ends_case. intros r2 w2 H2.
    assert (Hr2 : exists found2, r2 = Ok found2).
    { destruct found; cbn [negb] in H2.
      - injection H2 as <- <-. by eexists.
      - match type of H2 with
        | for_each ?xs ?body ?s ?w0 = _ =>
            destruct (for_each_returns body xs s w0) as (found2 & w2' & Hrun2)
        end.
        + intros x s w0. apply caught_flow. intros e w3. by eexists _, _.
        + rewrite Hrun2 in H2. injection H2 as <- <-. by eexists. }
    destruct Hr2 as [found2 ->]. cbv beta iota.
    destruct found2; cbn [negb]; wp; auto.
  - intros Hpage. unfold navigateToTimeTracking, bind, fields. by rewrite Hpage.
  - intros Hpage.
    change (ends (navigateToTimeTracking B config) w
              (fun r w' => r = Throw no_time_tracking ->
                           last (w_log w') =
                           Some (LogEntry Error "Failed to navigate to time tracking:"
                                          (Some no_time_tracking)))).
    unfold navigateToTimeTracking. wp. apply ends_fields. cbn [snd]. rewrite Hpage.
    cbn [negb]. apply ends_try_catch, ends_case. intros [[]|e] w1 _; [done|].
    wp. intros [= ->]. simpl_world. by rewrite last_snoc.
Qed.

(** X8: cleanup never throws.  It closes what is open, the page first, then
    the context, then the browser, stops at the first call that fails, and
    makes no call when nothing was opened. *)
Theorem cleanup_closes_what_is_open (w : world) :
  let r := cleanup B w in
  fst r = Ok tt /\
  exists l, w_trace (snd r) = (w_trace w ++ l)%list /\
            l `prefix_of` closes w /\
            (never_throws B -> l = closes w).
Proof.
  cbv zeta.
  change (ends (cleanup B) w
            (fun r w' => r = Ok tt /\
                         exists l, w_trace w' = (w_trace w ++ l)%list /\
                                   l `prefix_of` closes w /\
                                   (never_throws B -> l = closes w))).
  unfold cleanup, closes. wp. apply ends_fields. simpl_world. cbn [fst snd]. wp.
  destruct (w_hasPage w), (w_context w), (w_browser w); cbv iota; wp;
    repeat (call_head; apply ends_call_cases;
            [ intros ? ? Hstep; wp; split; [done|]; simpl_world;
              eexists; split; [by rewrite <- ?app_assoc|]; split;
              [ by (eexists; cbn; reflexivity)
              | intros Hn; exfalso;
                match type of Hstep with
                | env_step _ ?tr ?a ?p = _ => specialize (Hn tr a p); rewrite Hstep in Hn
                end; done ]
            | intros ? _; cbv beta iota; wp ]);
    (split; [done|]; simpl_world; rewrite <- ?app_assoc; cbn [app];
     eexists; split; [first [reflexivity | symmetry; apply app_nil_r]|];
     split; [reflexivity | done]).
Qed.
End Surface.

Lemma isLoggedIn_witness :
  exists w',
    isLoggedIn Fixture.still
      (Fixture.start (Fixture.page_of Fixture.login_url Fixture.login_refused))
    = (Ok (url_says_logged_in (p_url (w_page w'))), w') /\
    w_trace w' =
      (w_trace (Fixture.start (Fixture.page_of Fixture.login_url Fixture.login_refused))
       ++ map Query loggedInIndicators)%list.
Proof.
  apply (isLoggedIn_decides_by_url Fixture.still (fun p => p_dom p = Fixture.login_refused)).
  - apply still_never_throws.
  - apply still_stable.
  - reflexivity.
  - reflexivity.
  - absent_on_fixture.
Defined.

Lemma navigateToTimeTracking_witness :
  navigateToTimeTracking Fixture.still Fixture.config
    (Fixture.cold (Fixture.page_of Fixture.login_url Fixture.empty_page))
  = (Throw "Browser not initialized",
     Fixture.cold (Fixture.page_of Fixture.login_url Fixture.empty_page)).
Proof.
  apply (proj1 (proj2 (navigateToTimeTracking_errors Fixture.still Fixture.config
                         (Fixture.cold (Fixture.page_of Fixture.login_url Fixture.empty_page))))).
  reflexivity.
Defined.

Lemma cleanup_witness :
  exists l,
    w_trace (snd (cleanup Fixture.still
                    (Fixture.start (Fixture.page_of Fixture.login_url Fixture.empty_page))))
    = l /\
    l = [ClosePage; CloseContext; CloseBrowser].
Proof.
  destruct (cleanup_closes_what_is_open Fixture.still
              (Fixture.start (Fixture.page_of Fixture.login_url Fixture.empty_page)))
    as (_ & l & Htr & _ & Hall).
  exists l. split; [exact Htr|]. apply Hall. intros tr a p. reflexivity.
Defined.

(** ** The workflow and the entry it is given *)

(** X9: Whatever the browser answers, the row locator only waits and reads: it
    makes no click, no fill, no key press and no navigation. *)
Theorem locator_only_reads (B : browser) (w : world) :
  quiet w (snd (findTargetRow B w)).
Proof. apply findTargetRow_quiet, quiet_refl. Qed.

(** X10: The workflow reads the start and the end time of the entry and nothing
    else: two entries that agree on these are treated alike, whatever their
    date, break and description. *)
Theorem workflow_ignores_the_date (B : browser) (now : Z) (e1 e2 : WorkEntry) :
  startTime e1 = startTime e2 -> endTime e1 = endTime e2 ->
  handleFactorialTimeEntry B now e1 = handleFactorialTimeEntry B now e2.
Proof.
  intros Hs He.
  unfold handleFactorialTimeEntry, logHoursInRow, fillFactorialPopup, fillTimes.
  by rewrite Hs, He.
Qed.

Lemma workflow_ignores_the_date_witness :
  handleFactorialTimeEntry Fixture.still 0 Fixture.entry
  = handleFactorialTimeEntry Fixture.still 0
      {| date := "1999-12-31"; startTime := startTime Fixture.entry;
         endTime := endTime Fixture.entry; breakMinutes := None; description := None |}.
Proof. apply workflow_ignores_the_date; reflexivity. Defined.

Section StayOnPage.
Context (B : browser) (config : Config) (now : Z).

Lemma goto_bound_rest {A} (k : nat) (m : M A) w0 w :
  obeys (goto_bound k) m -> goto_bound k w0 w -> goto_bound k w0 (snd (m w)).
Proof. intros Hm H. by apply Hm. Qed.

Lemma dismissPopups_no_goto k : obeys (goto_bound k) (dismissPopups B).
Proof. no_goto_calls. Qed.

Lemma handleFactorialTimeEntry_no_goto k entry :
  obeys (goto_bound k) (handleFactorialTimeEntry B now entry).
Proof. no_goto_calls. Qed.

(** X12: logWorkHours navigates with [page.goto] at most once, and not at all
    when the address of the page already holds attendance or time. *)
Theorem logWorkHours_navigates_at_most_once (entry : WorkEntry) (w : world) :
  goto_bound 1 w (snd (logWorkHours B now entry w)) /\
  (JS.includes (p_url (w_page w)) "attendance" || JS.includes (p_url (w_page w)) "time" = true ->
   goto_bound 0 w (snd (logWorkHours B now entry w))).
Proof.
  assert (Hgen : forall k,
             (k = 1%nat \/
              JS.includes (p_url (w_page w)) "attendance"
              || JS.includes (p_url (w_page w)) "time" = true) ->
             goto_bound k w (snd (logWorkHours B now entry w))).
  { intros k Hk.
    change (ends (logWorkHours B now entry) w (fun _ w' => goto_bound k w w')).
    unfold logWorkHours.
    assert (Hcatch : forall (r : res bool) w2,
               goto_bound k w w2 ->
               match r with
               | Ok a => goto_bound k w w2
               | Throw e =>
                   ends (log_with Error "Failed to log work hours:" e ;; ret false) w2
                        (fun (_ : res bool) w' => goto_bound k w w')
               end).
    { intros [a|e] w2 H2; [done|]. wp. by apply goto_bound_log. }
    apply ends_try_catch. wp. simpl_world.
    set (w1 := add_log _ w).
    assert (H1 : goto_bound 0 w w1) by apply goto_bound_log, goto_bound_refl.
    assert (Hrest : forall w2,
               goto_bound k w w2 ->
               ends (dismissPopups B ;;
                     success <-
                       try_catch
                         (log Info "Using Factorial-specific workflow..." ;;
                          success <- handleFactorialTimeEntry B now entry ;;
                          if negb success then throw "Factorial workflow failed"
                          else ret success)
                         (fun error =>
                            log_with Error "Factorial workflow failed:" error ;;
                            throw "Could not log work hours using Factorial workflow") ;;
                     if success then log Info "Work hours logged successfully" ;; ret true
                     else ret false) w2
                    (fun r w' =>
                       match r with
                       | Ok a => goto_bound k w w'
                       | Throw e =>
                           ends (log_with Error "Failed to log work hours:" e ;; ret false) w'
                                (fun (_ : res bool) w'0 => goto_bound k w w'0)
                       end)).
    { intros w2 H2. eapply ends_weaken.
      - apply (obeys_ends (goto_bound k) _ w w2); [|exact H2].
        pose proof (dismissPopups_no_goto k). pose proof (handleFactorialTimeEntry_no_goto k entry).
        pose proof (goto_bound_log k).
        repeat lazymatch goal with
          | |- obeys _ (bind _ _) => apply obeys_bind; [|intros ?]
          | |- obeys _ (try_catch _ _) => apply obeys_try_catch; [|intros ?]
          | |- obeys _ (ret _) => apply obeys_ret
          | |- obeys _ (throw _) => apply obeys_throw
          | |- obeys _ (log _ _) => apply obeys_log; assumption
          | |- obeys _ (log_with _ _ _) => apply obeys_log_with; assumption
          | |- obeys _ (match ?c with _ => _ end) => destruct c
          | |- obeys _ (dismissPopups _) => assumption
          | |- obeys _ (handleFactorialTimeEntry _ _ _) => assumption
          end.
      - intros r w3 H3. by apply (Hcatch r). }
    destruct (JS.includes (p_url (w_page w)) "attendance") eqn:Ha;
      destruct (JS.includes (p_url (w_page w)) "time") eqn:Ht; cbn [negb andb orb] in *;
      try (apply ends_ret; cbv beta iota; apply Hrest; apply (goto_bound_weaken 0); [lia|done]).
    destruct Hk as [-> | Hk]; [|done]. wp.
    call_head. apply ends_call_any. intros p2 r2.
    assert (H2 : goto_bound 1 w
                   (after (Goto attendanceUrl) p2
                      (add_log (LogEntry Warn "Not on attendance page, trying to navigate..." None)
                               w1)))
      by (apply (goto_bound_after 0 w _ (Goto attendanceUrl)); by apply goto_bound_log).
    destruct r2 as [[]|e2]; cbv beta iota; [|by apply (Hcatch (Throw e2))].
    wp. call_head. apply ends_call_any. intros p3 r3.
    pose proof (goto_bound_after 1 w _ (WaitForLoadState "load") p3 H2) as H3.
    destruct r3 as [[]|e3]; cbv beta iota; [|by apply (Hcatch (Throw e3))].
    wp. call_head. apply ends_call_any. intros p4 r4.
    pose proof (goto_bound_after 1 w _ (WaitForTimeout 2000) p4 H3) as H4.
    destruct r4 as [[]|e4]; cbv beta iota; [|by apply (Hcatch (Throw e4))].
    by apply Hrest. }
  split; [apply Hgen; by left | intros H; apply Hgen; by right].
Qed.

(** X22: logAnyMissingHours navigates with [page.goto] at most once, and not
    at all when the address of the page already holds attendance or time. *)
Theorem logAnyMissingHours_navigates_at_most_once (w : world) :
  goto_bound 1 w (snd (logAnyMissingHours B config now w)) /\
  (JS.includes (p_url (w_page w)) "attendance" || JS.includes (p_url (w_page w)) "time" = true ->
   goto_bound 0 w (snd (logAnyMissingHours B config now w))).
Proof.
  assert (Hgen : forall k,
             (k = 1%nat \/
              JS.includes (p_url (w_page w)) "attendance"
              || JS.includes (p_url (w_page w)) "time" = true) ->
             goto_bound k w (snd (logAnyMissingHours B config now w))).
  { intros k Hk.
    change (ends (logAnyMissingHours B config now) w (fun _ w' => goto_bound k w w')).
    unfold logAnyMissingHours.
    assert (Hcatch : forall (r : res bool) w2,
               goto_bound k w w2 ->
               match r with
               | Ok a => goto_bound k w w2
               | Throw e =>
                   ends (log_with Error "Failed to log missing hours automatically:" e ;;
                         ret false) w2
                        (fun (_ : res bool) w' => goto_bound k w w')
               end).
    { intros [a|e] w2 H2; [done|]. wp. by apply goto_bound_log. }
    apply ends_bind, ends_log. cbv beta iota. apply ends_try_catch. cbv zeta.
    apply ends_bind, ends_url. cbv beta iota. simpl_world.
    set (w1 := add_log _ w).
    assert (H1 : goto_bound 0 w w1) by apply goto_bound_log, goto_bound_refl.
    set (defaultEntry := {| date := Date.isoDate now;
                            startTime := workHours_defaultStartTime config;
                            endTime := workHours_defaultEndTime config;
                            breakMinutes := Some (workHours_defaultBreakMinutes config);
                            description := Some "Automated work hours entry" |}).
    assert (Hrest : forall w2,
               goto_bound k w w2 ->
               ends (dismissPopups B ;;
                     log Info "Using flexible workflow to find and log any missing hours..." ;;
                     handleFactorialTimeEntry B now defaultEntry) w2
                    (fun r w' =>
                       match r with
                       | Ok a => goto_bound k w w'
                       | Throw e =>
                           ends (log_with Error "Failed to log missing hours automatically:" e ;;
                                 ret false) w'
                                (fun (_ : res bool) w'0 => goto_bound k w w'0)
                       end)).
    { intros w2 H2. eapply ends_weaken.
      - apply (obeys_ends (goto_bound k) _ w w2); [|exact H2].
        pose proof (dismissPopups_no_goto k).
        pose proof (handleFactorialTimeEntry_no_goto k defaultEntry).
        pose proof (goto_bound_log k).
        apply obeys_bind; [assumption|intros ?].
        apply obeys_bind; [by apply obeys_log|intros ?]. assumption.
      - intros r w3 H3. by apply (Hcatch r). }
    apply ends_bind.
    destruct (JS.includes (p_url (w_page w)) "attendance") eqn:Ha;
      destruct (JS.includes (p_url (w_page w)) "time") eqn:Ht; cbn [negb andb orb] in *;
      try (apply ends_ret; cbv beta iota; apply Hrest; apply (goto_bound_weaken 0); [lia|done]).
    destruct Hk as [-> | Hk]; [|done]. wp.
    call_head. apply ends_call_any. intros p2 r2.
    assert (H2 : goto_bound 1 w
                   (after (Goto attendanceUrl) p2
                      (add_log (LogEntry Info "Navigating to time tracking page..." None) w1)))
      by (apply (goto_bound_after 0 w _ (Goto attendanceUrl)); by apply goto_bound_log).
    destruct r2 as [[]|e2]; cbv beta iota; [|by apply (Hcatch (Throw e2))].
    wp. call_head. apply ends_call_any. intros p3 r3.
    pose proof (goto_bound_after 1 w _ (WaitForLoadState "load") p3 H2) as H3.
    destruct r3 as [[]|e3]; cbv beta iota; [|by apply (Hcatch (Throw e3))].
    wp. call_head. apply ends_call_any. intros p4 r4.
    pose proof (goto_bound_after 1 w _ (WaitForTimeout 2000) p4 H3) as H4.
    destruct r4 as [[]|e4]; cbv beta iota; [|by apply (Hcatch (Throw e4))].
    by apply Hrest. }
  split; [apply Hgen; by left | intros H; apply Hgen; by right].
Qed.
End StayOnPage.

Lemma logWorkHours_navigation_witness :
  goto_bound 0
    (Fixture.start (Fixture.page_of Fixture.attendance_url (Fixture.attendance Fixture.missing)))
    (snd (logWorkHours Fixture.still 0 Fixture.entry
            (Fixture.start (Fixture.page_of Fixture.attendance_url
                                            (Fixture.attendance Fixture.missing))))).
Proof.
  apply (logWorkHours_navigates_at_most_once Fixture.still 0 Fixture.entry). reflexivity.
Defined.

(** ** The fallback of the time fields *)

Section Fallback.
Context (B : browser) (Hinert : inert B) (entry : WorkEntry).
Context (a0 a1 : nat) (w : world).
Hypothesis one_time_input : forall p,
  p_dom p = p_dom (w_page w) -> env_select B timeInputSelector p !! 1%nat = None.
Hypothesis first_input : forall p,
  p_dom p = p_dom (w_page w) -> env_select B "input" p !! 0%nat = Some a0.
Hypothesis second_input : forall p,
  p_dom p = p_dom (w_page w) -> env_select B "input" p !! 1%nat = Some a1.
Hypothesis distinct : a0 <> a1.

Ltac call_inert :=
  call_head; apply (ends_call_inert B); [exact Hinert|]; simpl_world.

Lemma fillTimes_fallback w1 :
  same_dom w w1 ->
  ends (fillTimes B entry) w1 (fun r w' => r = Ok tt /\ filled entry a0 a1 w').
Proof.
  intros Hd. unfold fillTimes. wp. call_inert. wp. call_inert. wp.
  rewrite (one_time_input _ Hd), (first_input _ Hd), (second_input _ Hd).
  assert (Hgo : ends (log Info "Fallback: using first two inputs for start and end time" ;;
                      try_catch
                        (click B a0 ;;
                         fill B a0 (startTime entry) ;;
                         log Info ("Set start time to " +:+ startTime entry +:+ " in first input") ;;
                         waitForTimeout B 500 ;;
                         click B a1 ;;
                         fill B a1 (endTime entry) ;;
                         log Info ("Set end time to " +:+ endTime entry +:+ " in second input") ;;
                         waitForTimeout B 500)
                        (fun e => log_with Error "Failed to fill inputs with fallback method:" e ;;
                                  throw e))
                   (add_log
                      (LogEntry Info
                         ("Found " +:+ JS.toString (Z.of_nat (length (env_select B timeInputSelector (w_page w1))))
                          +:+ " time inputs and "
                          +:+ JS.toString (Z.of_nat (length (env_select B "input" (w_page w1))))
                          +:+ " total inputs") None)
                      (after (QueryAll "input") (w_page w1)
                         (after (QueryAll timeInputSelector) (w_page w1) w1)))
                   (fun r w' => r = Ok tt /\ filled entry a0 a1 w')).
  { wp. repeat (call_inert; wp).
    split; [done|]. unfold filled. simpl_world.
    split; [|by apply lookup_insert_eq].
    rewrite lookup_insert_ne by done. by apply lookup_insert_eq. }
  destruct (env_select B timeInputSelector (w_page w1) !! 0%nat); exact Hgo.
Qed.

Lemma fillFactorialPopup_fallback :
  ends (fillFactorialPopup B entry) w (fun _ w' => filled entry a0 a1 w').
Proof.
  unfold fillFactorialPopup. wp.
  eapply ends_weaken; [apply (workType_inert B Hinert)|].
  intros r w1 [-> Hd]. wp.
  eapply ends_weaken; [apply fillTimes_fallback|]; [done|].
  intros r w2 [-> Hf].
  eapply ends_weaken;
    [apply (obeys_ends same_values _ w2 w2 (rest_keeps_values B Hinert))|]; [done|].
  intros r w3 [Hv _]. unfold filled in *. destruct r as [b|e]; wp; cbn [w_page add_log].
  all: by rewrite Hv.
Qed.
End Fallback.

(** X13: When the editor shows fewer than two time inputs but at least two
    inputs of any kind, fillFactorialPopup falls back on the first two
    inputs of the page: the start time is read back from the first and the
    end time from the second. *)
Theorem first_two_inputs_are_the_fallback
        (B : browser) (entry : WorkEntry) (a0 a1 : nat) (w : world) :
  inert B ->
  (forall p, p_dom p = p_dom (w_page w) -> env_select B timeInputSelector p !! 1%nat = None) ->
  (forall p, p_dom p = p_dom (w_page w) -> env_select B "input" p !! 0%nat = Some a0) ->
  (forall p, p_dom p = p_dom (w_page w) -> env_select B "input" p !! 1%nat = Some a1) ->
  a0 <> a1 ->
  let w' := snd (fillFactorialPopup B entry w) in
  p_values (w_page w') !! a0 = Some (startTime entry) /\
  p_values (w_page w') !! a1 = Some (endTime entry).
Proof.
  intros Hinert H1 H2 H3 Hne.
  exact (fillFactorialPopup_fallback B Hinert entry a0 a1 w H1 H2 H3 Hne).
Qed.

Lemma first_two_inputs_witness :
  let w := Fixture.start (Fixture.page_of Fixture.attendance_url text_editor) in
  let w' := snd (fillFactorialPopup Fixture.still Fixture.entry w) in
  p_values (w_page w') !! 40%nat = Some "09:00" /\
  p_values (w_page w') !! 41%nat = Some "17:00".
Proof.
  cbv zeta.
  apply (first_two_inputs_are_the_fallback Fixture.still Fixture.entry 40 41).
  - intros tr a p. reflexivity.
  - intros p Hp. cbn [env_select Fixture.still]. rewrite (select_dom _ p _ Hp).
    vm_compute. reflexivity.
  - intros p Hp. cbn [env_select Fixture.still]. rewrite (select_dom _ p _ Hp).
    vm_compute. reflexivity.
  - intros p Hp. cbn [env_select Fixture.still]. rewrite (select_dom _ p _ Hp).
    vm_compute. reflexivity.
  - lia.
Defined.

Lemma logAnyMissingHours_navigation_witness :
  goto_bound 0
    (Fixture.start (Fixture.page_of Fixture.attendance_url (Fixture.attendance Fixture.missing)))
    (snd (logAnyMissingHours Fixture.still Fixture.config 0
            (Fixture.start (Fixture.page_of Fixture.attendance_url
                                            (Fixture.attendance Fixture.missing))))).
Proof.
  apply (logAnyMissingHours_navigates_at_most_once Fixture.still Fixture.config 0). reflexivity.
Defined.

(** ** The submit button that is not visible *)

Section HiddenButton.
Context (B : browser) (Inv : page -> Prop).
Context (Hok : never_throws B) (Hstable : stable B Inv).
Context (Hhidden : forall el p, env_visible B el p = false).
Context (b : nat).
Context (Hlast : forall p,
           Inv p -> head (env_select B (default "" (last applyButtonSelectors)) p) = Some b).

Ltac call_inv :=
  call_head; apply (ends_call_inv B Inv);
  [exact Hok | exact Hstable | simpl_world; assumption | intros ? ?; simpl_world].

Lemma findApplyButton_hidden w :
  on_page Inv w -> ends (findApplyButton B) w (fun r _ => r = Ok (Some b)).
Proof.
  intros Hw. unfold on_page in Hw. unfold findApplyButton, for_each.
  change (default "" (last applyButtonSelectors))
    with ("button[type=" +:+ JS.q "submit" +:+ "]") in Hlast.
  unfold applyButtonSelectors. cbn [for_of]. wp.
  do 3 (call_inv;
        match goal with
        | |- context [head (env_select B ?sel ?p)] =>
            destruct (head (env_select B sel p)) as [?|]
        end; wp; [call_inv; rewrite Hhidden; wp|]).
  all: call_inv; rewrite Hlast by done; wp; call_inv; rewrite Hhidden; wp; cbn [fst]; by wp.
Qed.
End HiddenButton.

(** X23: Visibility decides where the search for the submit button stops,
    not what it yields: when no candidate is visible, the element of the
    last selector of the list, a button of type submit, is the button
    that findApplyButton yields. *)
Theorem hidden_submit_button_is_still_used
        (B : browser) (Inv : page -> Prop) (b : nat) (w : world) :
  never_throws B -> stable B Inv -> on_page Inv w ->
  (forall el p, env_visible B el p = false) ->
  (forall p, Inv p ->
             head (env_select B (default "" (last applyButtonSelectors)) p) = Some b) ->
  fst (findApplyButton B w) = Ok (Some b).
Proof.
  intros Hok Hstable Hw Hhidden Hlast.
  exact (findApplyButton_hidden B Inv Hok Hstable Hhidden b Hlast w Hw).
Qed.

Lemma hidden_submit_button_witness :
  fst (findApplyButton hidden_controls
         (Fixture.start (Fixture.page_of Fixture.login_url Fixture.login_refused)))
  = Ok (Some 3%nat).
Proof.
  apply (hidden_submit_button_is_still_used hidden_controls
           (fun p => p_dom p = Fixture.login_refused)).
  - intros tr a p. reflexivity.
  - intros tr a p Hp. cbn. by destruct a.
  - reflexivity.
  - intros el p. reflexivity.
  - intros p Hp. cbn [env_select hidden_controls]. rewrite (select_dom _ p _ Hp).
    vm_compute. reflexivity.
Defined.

(** ** The form fillers of the older workflow *)

Section FormFacts.
Context (B : browser).

Lemma fillFirst_returns (what value : string) (sels : list string) w :
  exists b w', Form.fillFirst B what sels value w = (Ok b, w').
Proof.
  apply for_each_returns. intros x s w0. apply caught_flow. intros e w1. by eexists _, _.
Qed.

(** X15: The optional fields never stop the form: fillBreakTime and
    fillDescription end normally whatever the browser answers. *)
Theorem optional_fields_never_throw (breakMinutes : Z) (description : string) (w : world) :
  fst (Form.fillBreakTime B breakMinutes w) = Ok tt /\
  fst (Form.fillDescription B description w) = Ok tt.
Proof.
  split.
  - unfold Form.fillBreakTime. cbv zeta. unfold bind.
    destruct (fillFirst_returns "break time" (formatBreakTime breakMinutes)
                Form.breakSelectors w) as ([|] & w' & ->); reflexivity.
  - unfold Form.fillDescription, bind.
    destruct (fillFirst_returns "description" description
                Form.descriptionSelectors w) as ([|] & w' & ->); reflexivity.
Qed.

(** X16: Every error that checkForErrors throws is a validation error. *)
Theorem checkForErrors_throws_validation_errors_only (w : world) :
  match fst (Form.checkForErrors B w) with
  | Ok _ => True
  | Throw e => JS.includes e "Validation error" = true
  end.
Proof.
  change (ends (Form.checkForErrors B) w
            (fun r _ => match r with
                        | Ok _ => True
                        | Throw e => JS.includes e "Validation error" = true
                        end)).
  unfold Form.checkForErrors. apply ends_bind.
  apply (ends_for_of _ (fun _ _ _ => True)); [| |done].
  - intros sel rest [] w1 _. apply ends_bind, ends_attempt, ends_case. intros r1 w2 _.
    cbv beta iota. destruct r1 as [[]|e]; wp; [done|].
    destruct (JS.includes e "Validation error") eqn:He; wp; [|done].
    cbn [snd]. wp. done.
  - intros [] w1 _. cbn [snd]. wp. done.
Qed.

(** X18: submitTimeEntry throws one error only, that of the missing button:
    what checkForErrors throws after the click is caught by the loop. *)
Theorem submitTimeEntry_reports_no_validation_error (w : world) :
  fst (Form.submitTimeEntry B w) = Ok tt \/
  fst (Form.submitTimeEntry B w) = Throw "Could not find submit button to save time entry".
Proof.
  unfold Form.submitTimeEntry, bind.
  match goal with
  | |- context [for_each ?xs ?body ?s w] =>
      destruct (for_each_returns body xs s w) as ([|] & w' & ->)
  end.
  - intros x s w0. apply caught_flow. intros e w1. by eexists _, _.
  - by left.
  - by right.
Qed.
End FormFacts.

Section Required.
Context (B : browser) (Hok : never_throws B).

Lemma fillFirst_trace (what value : string) (sels : list string) w :
  ends (Form.fillFirst B what sels value) w
       (fun r w' =>
          (r = Ok false /\ w_trace w' = (w_trace w ++ map Query sels)%list) \/
          (r = Ok true /\
           exists asked rest el,
             sels = (asked ++ rest)%list /\ asked <> [] /\
             w_trace w' = (w_trace w ++ map Query asked ++ [Fill el value])%list)).
Proof.
  unfold Form.fillFirst.
  apply (ends_for_each _
           (fun rest filled w' =>
              filled = false /\
              exists asked, sels = (asked ++ rest)%list /\
                            w_trace w' = (w_trace w ++ map Query asked)%list)).
  - intros sel rest filled w1 (-> & asked & Hsels & Htr). wp.
    call_head. apply ends_call_ok; [exact Hok|]. intros p1.
    destruct (head (env_select B sel p1)) as [el|]; wp.
    + call_head. apply ends_call_ok; [exact Hok|]. intros p2. wp.
      right. split; [done|]. exists (asked ++ [sel])%list, rest, el.
      split; [by rewrite <- app_assoc|]. split; [by destruct asked|].
      simpl_world. rewrite Htr, map_app. cbn [map]. by rewrite <- !app_assoc.
    + split; [done|]. exists (asked ++ [sel])%list. split; [by rewrite <- app_assoc|].
      simpl_world. rewrite Htr, map_app. cbn [map]. by rewrite <- !app_assoc.
  - intros filled w1 (-> & asked & Hsels & Htr). left. split; [done|].
    rewrite app_nil_r in Hsels. by subst asked.
  - split; [done|]. exists []. split; [done|]. cbn [map]. by rewrite app_nil_r.
Qed.


Context (Inv : page -> Prop) (Hstable : stable B Inv).

End Required.



(** ** What the workflow writes *)

Lemma only_refl P w : only P w w.
Proof. exists []. by rewrite app_nil_r. Qed.

Lemma only_log P w0 w e : only P w0 w -> only P w0 (add_log e w).
Proof. done. Qed.

Lemma only_call B P {A} (a : action) (read : page -> res A) :
  P a -> obeys (only P) (call B a read).
Proof.
  intros Ha w0 w (l & Hl & Hp).
  apply (ends_call_any B a read w (fun _ w' => only P w0 w')).
  intros p' _. exists (l ++ [a])%list. split.
  - cbn. rewrite Hl. by rewrite <- app_assoc.
  - apply Forall_app. split; [done|]. by constructor.
Qed.

(** X11: Whatever the browser answers, the workflow fills an input with nothing
    but the empty string, the start time or the end time of the entry,
    types nothing but the work type, and never navigates: the date, the
    break and the description of the entry never reach the page. *)
Theorem workflow_writes_the_times_only (B : browser) (now : Z) (entry : WorkEntry) (w : world) :
  only (entry_call entry) w (snd (handleFactorialTimeEntry B now entry w)).
Proof.
  assert (H : obeys (only (entry_call entry)) (handleFactorialTimeEntry B now entry)).
  { pose proof (only_log (entry_call entry)).
    frame; apply only_call; cbn; auto. }
  apply H, only_refl.
Qed.

(** ** What the session driver writes *)

Section SessionCalls.
Context (B : browser) (config : Config).

Lemma navigate_only (P : action -> Prop) (n : nat) :
  P (Goto (factorial_baseUrl config)) -> P (WaitForLoadState "networkidle") ->
  P (WaitForTimeout 5000) ->
  forall attempts, obeys (only P) (navigate B config n attempts).
Proof.
  intros Hg Hl Ht. pose proof (only_log P).
  induction n as [|n IH]; intros attempts; cbn [navigate]; [apply obeys_ret|].
  frame; first [by apply only_call | apply IH].
Qed.

(** X24: Whatever the browser answers, login fills an input with nothing but
    the configured email or password, types nothing, and navigates to
    the base address only. *)
Theorem login_writes_the_credentials_only (w : world) :
  only (login_call config) w (snd (login B config w)).
Proof.
  assert (H : obeys (only (login_call config)) (login B config)).
  { pose proof (only_log (login_call config)).
    pose proof (navigate_only (login_call config) (Z.to_nat maxAttempts)
                  eq_refl I I 0%Z) as Hnav.
    frame;
      first [ exact Hnav
            | by intros ? ? ?
            | apply only_call; cbn; auto ]. }
  apply H, only_refl.
Qed.

(** X25: Whatever the browser answers, navigateToTimeTracking writes nothing
    into the page and presses no key, and every navigation it makes goes
    to the base address followed by one of its five paths. *)
Theorem navigateToTimeTracking_writes_nothing (w : world) :
  only (tracking_call config) w (snd (navigateToTimeTracking B config w)).
Proof.
  assert (H : obeys (only (tracking_call config)) (navigateToTimeTracking B config)).
  { pose proof (only_log (tracking_call config)).
    unfold navigateToTimeTracking.
    apply obeys_bind; [by intros ? ? ?|intros f].
    destruct (negb (snd f)); [apply obeys_throw|].
    apply obeys_try_catch; [|intros e; frame].
    apply obeys_bind; [by apply obeys_log|intros _].
    apply obeys_bind.
    { apply obeys_for_each. intros sel found. frame; apply only_call; exact I. }
    intros found. apply obeys_bind.
    - destruct (negb found); [|apply obeys_ret].
      assert (Hurls : forall urls,
                 (forall u, In u urls -> In u timeUrls) ->
                 forall s,
                   obeys (only (tracking_call config))
                     (for_each urls
                        (fun u (found0 : bool) =>
                           try_catch
                             (log Info ("Trying direct navigation to: "
                                        +:+ factorial_baseUrl config +:+ u) ;;
                              goto B (factorial_baseUrl config +:+ u) ;;
                              waitForLoadState B "load" ;;
                              waitForTimeout B 2000 ;;
                              pageTitle <- title B ;;
                              currentUrl <- url ;;
                              if negb (JS.includes (JS.toLowerCase pageTitle) "error") &&
                                 negb (JS.includes (JS.toLowerCase pageTitle) "404") &&
                                 negb (JS.includes currentUrl "/login")
                              then
                                log Info ("Successfully navigated to: " +:+ currentUrl) ;;
                                ret (Break true)
                              else ret (Next found0))
                             (fun e =>
                                log_with Debug ("Failed to navigate to " +:+ u +:+ ":") e ;;
                                ret (Next found0)))
                        s)).
      { intros urls. unfold for_each. induction urls as [|u urls IH]; intros Hin s.
        - cbn [for_of]. frame.
        - assert (Hu : tracking_call config (Goto (factorial_baseUrl config +:+ u)))
            by (exists u; split; [apply Hin; by left | done]).
          assert (IH' := IH (fun u' H' => Hin u' (or_intror H'))).
          cbn [for_of].
          apply obeys_bind.
          + apply obeys_bind.
            * frame; apply only_call; first [exact Hu | exact I].
            * intros [s'|s'|e s'].
              -- intros w0 w1 Hw. specialize (IH' s' w0 w1 Hw). unfold bind in IH'.
                 by destruct (for_of urls _ s' w1) as [[r|e] w2].
              -- apply obeys_ret.
              -- apply obeys_ret.
          + intros r. apply obeys_ret. }
      apply Hurls. auto.
    - intros found2. frame. }
  apply H, only_refl.
Qed.
End SessionCalls.

(** ** The exit codes of the commands *)

Lemma same_console_log w0 w e : same_console w0 w -> same_console w0 (add_log e w).
Proof. done. Qed.

Lemma same_console_call B {A} (a : action) (read : page -> res A) :
  obeys same_console (call B a read).
Proof.
  intros w0 w H.
  apply (ends_call_any B a read w (fun _ w' => same_console w0 w')).
  intros p' _. exact H.
Qed.

Lemma cleanup_keeps_console B w :
  ends (cleanup B) w (fun r w' => r = Ok tt /\ w_console w' = w_console w).
Proof.
  unfold cleanup. wp. apply ends_fields. simpl_world. cbn [fst snd]. wp.
  destruct (w_hasPage w), (w_context w), (w_browser w); cbv iota; wp;
    repeat (call_head; apply ends_call; [intros ? ?; by wp | intros ?; cbv beta iota; wp]);
    done.
Qed.

Section ExitCodes.
Context (B : browser) (config : Config) (now tz : Z).

(** Steps over a part of a command's [try] block that may throw. *)
Ltac step :=
  apply ends_bind, ends_case; intros [?|?] ? _; cbv beta iota; [|done].

Ltac step_as a :=
  apply ends_bind, ends_case; intros [a|?] ? _; cbv beta iota; [|done].


End ExitCodes.
